(** * Schema upgrader of the PostgreSQL chain database

    A shallow embedding of [services/chaindb/postgresql/upgrader.go]:
    the [Upgrade] executor, the seven upgrade functions of schema
    version 1, the [columnExists] probe and the [version] / [setVersion]
    pair.

    The Go code talks to the database through methods of [*Service] and
    of the transaction and row handles of the SQL driver.  Those methods
    are not part of the file; they form the [Backend] interface below and
    every function is written against an arbitrary backend.  Each call
    through the interface is recorded, with its arguments and its answer,
    in the trace of the run, so that statements such as "no transaction
    was opened" or "the scope was cancelled before returning" are
    statements about the trace. *)

From Stdlib Require Import NArith ZArith Strings.String Strings.Byte DecimalString.
From stdpp Require Import gmap strings list fin_maps.

Local Open Scope string_scope.
Local Open Scope list_scope.
Local Open Scope N_scope.

(** ** Data *)

(** Go's [uint64]: a natural number below [2^64]; increments wrap. *)
Definition uint64 : Type := N.
Definition uint64_modulus : N := 2 ^ 64.
Definition uint64_incr (i : uint64) : uint64 := (i + 1) mod uint64_modulus.

(** Go's [[]byte]. *)
Definition bytes : Type := list byte.

(** Transaction and row-set handles handed out by the driver. *)
Definition Tx : Type := N.
Definition Rows : Type := N.

(** Modelled from the spec: the variable [ErrNoTransaction] is declared
    in another file of the package; the spec calls it "a distinct
    sentinel condition", so it is a constructor of its own, different
    from every error a collaborator produces ([ErrExternal]) and from
    every wrapped error.  [Wrap err msg] is [errors.Wrap(err, msg)]. *)
Inductive error : Type :=
| ErrNoTransaction
| ErrExternal (msg : string)
| Wrap (err : error) (msg : string).

(** Whether an error is the sentinel itself. *)
Definition is_sentinel (e : error) : bool :=
  match e with ErrNoTransaction => true | _ => false end.

(** A value-or-error answer of a collaborator: the Go code tests the
    error first at every such call and ignores the value when it is set. *)
Inductive result (A : Type) : Type :=
| Ok (a : A)
| Err (err : error).
Arguments Ok {A} a.
Arguments Err {A} err.

Definition isOk {A} (r : result A) : bool :=
  match r with Ok _ => true | Err _ => false end.

(** Modelled from the spec: "passing an active transaction implicitly
    via the execution context".  The context carries at most one
    transaction; [tx] is [s.tx(ctx)], [nil] being [None]. *)
Record Ctx : Type := { ctx_tx : option Tx }.

Definition tx (ctx : Ctx) : option Tx := ctx_tx ctx.
Definition withTx (ctx : Ctx) (t : Tx) : Ctx := {| ctx_tx := Some t |}.
Definition background : Ctx := {| ctx_tx := None |}.

(** [schemaMetadata]. *)
Record schemaMetadata : Type := { Version : uint64 }.

(** The fields of [chaindb.ProposerSlashing] and of
    [phase0.BeaconBlockHeader] that the upgrader reads and writes. *)
Definition Root : Type := bytes.

Record ProposerSlashing : Type := {
  Block1Root : Root;
  Header1Slot : uint64;
  Header1ProposerIndex : uint64;
  Header1ParentRoot : Root;
  Header1StateRoot : Root;
  Header1BodyRoot : Root;
  Block2Root : Root;
  Header2Slot : uint64;
  Header2ProposerIndex : uint64;
  Header2ParentRoot : Root;
  Header2StateRoot : Root;
  Header2BodyRoot : Root
}.

Record BeaconBlockHeader : Type := {
  Slot : uint64;
  ProposerIndex : uint64;
  ParentRoot : Root;
  StateRoot : Root;
  BodyRoot : Root
}.

Definition setBlock1Root (p : ProposerSlashing) (r : Root) : ProposerSlashing :=
  {| Block1Root := r;
     Header1Slot := Header1Slot p;
     Header1ProposerIndex := Header1ProposerIndex p;
     Header1ParentRoot := Header1ParentRoot p;
     Header1StateRoot := Header1StateRoot p;
     Header1BodyRoot := Header1BodyRoot p;
     Block2Root := Block2Root p;
     Header2Slot := Header2Slot p;
     Header2ProposerIndex := Header2ProposerIndex p;
     Header2ParentRoot := Header2ParentRoot p;
     Header2StateRoot := Header2StateRoot p;
     Header2BodyRoot := Header2BodyRoot p |}.

Definition setBlock2Root (p : ProposerSlashing) (r : Root) : ProposerSlashing :=
  {| Block1Root := Block1Root p;
     Header1Slot := Header1Slot p;
     Header1ProposerIndex := Header1ProposerIndex p;
     Header1ParentRoot := Header1ParentRoot p;
     Header1StateRoot := Header1StateRoot p;
     Header1BodyRoot := Header1BodyRoot p;
     Block2Root := r;
     Header2Slot := Header2Slot p;
     Header2ProposerIndex := Header2ProposerIndex p;
     Header2ParentRoot := Header2ParentRoot p;
     Header2StateRoot := Header2StateRoot p;
     Header2BodyRoot := Header2BodyRoot p |}.

(** ** Traces *)

(** A field of a structured log line ([.Uint64(k, v)], [.Int(k, v)]). *)
Inductive LogField : Type :=
| Uint64 (key : string) (v : uint64)
| Int (key : string) (v : Z).

(** One entry per call that leaves the upgrader: the arguments, then the
    answer.  [EvCall i j body r] is the call [upgradeFunc(ctx, s)] made by
    [Upgrade] for index [j] of the upgrade registered for version [i];
    [body] is what the called function did and [r] what it returned.
    The events of a called function are nested in its [EvCall], so the
    top level of the trace of [Upgrade] holds exactly what [Upgrade]
    itself did. *)
#[warning="-register-all"]
Inductive Event : Type :=
| EvLog (msg : string) (fields : list LogField)
| EvMetadata (ctx : Ctx) (key : string) (r : result bytes)
| EvSetMetadata (ctx : Ctx) (key : string) (data : bytes) (r : option error)
| EvBeginTx (ctx : Ctx) (r : result Tx)
| EvCancel (t : Tx)
| EvCommitTx (ctx : Ctx) (r : option error)
| EvExec (t : Tx) (ctx : Ctx) (sql : string) (r : option error)
| EvQuery (t : Tx) (ctx : Ctx) (sql : string) (r : result Rows)
| EvRowsNext (rows : Rows) (r : bool)
| EvRowsScan (rows : Rows) (r : result bool)
| EvRowsClose (rows : Rows)
| EvProposerSlashingsForSlotRange (ctx : Ctx) (minSlot maxSlot : uint64)
    (r : result (list ProposerSlashing))
| EvSetProposerSlashing (ctx : Ctx) (p : ProposerSlashing) (r : option error)
| EvCall (version : uint64) (index : nat) (body : list Event) (r : option error).

Definition Trace : Type := list Event.

(** ** The collaborators *)

(** Modelled from the spec: the methods the upgrader calls and does not
    define ([Metadata], [SetMetadata], [BeginTx], [CommitTx] and the two
    proposer slashing accessors of [*Service]; [Exec] and [Query] of the
    transaction; [Next], [Scan] and [Close] of the rows), as functions
    over a state [W] of the outside world that they may read and change.
    Nothing is assumed of them here.

    [BeginTx] answers with the handle [t] of the new transaction; the Go
    method returns the context [withTx ctx t] and a function [cancel]
    that rolls [t] back, which is [be_cancel t] here.  [RowsScan] answers
    with the boolean written through the pointer [&found]. *)
Record Backend (W : Type) : Type := {
  be_Metadata : Ctx -> string -> W -> result bytes * W;
  be_SetMetadata : Ctx -> string -> bytes -> W -> option error * W;
  be_BeginTx : Ctx -> W -> result Tx * W;
  be_cancel : Tx -> W -> W;
  be_CommitTx : Ctx -> W -> option error * W;
  be_Exec : Tx -> Ctx -> string -> W -> option error * W;
  be_Query : Tx -> Ctx -> string -> W -> result Rows * W;
  be_RowsNext : Rows -> W -> bool * W;
  be_RowsScan : Rows -> W -> result bool * W;
  be_RowsClose : Rows -> W -> W;
  be_ProposerSlashingsForSlotRange :
    Ctx -> uint64 -> uint64 -> W -> result (list ProposerSlashing) * W;
  be_SetProposerSlashing : Ctx -> ProposerSlashing -> W -> option error * W
}.
Arguments be_Metadata {W}.
Arguments be_SetMetadata {W}.
Arguments be_BeginTx {W}.
Arguments be_cancel {W}.
Arguments be_CommitTx {W}.
Arguments be_Exec {W}.
Arguments be_Query {W}.
Arguments be_RowsNext {W}.
Arguments be_RowsScan {W}.
Arguments be_RowsClose {W}.
Arguments be_ProposerSlashingsForSlotRange {W}.
Arguments be_SetProposerSlashing {W}.

(** The pure library functions: [json.Marshal] and [json.Unmarshal] at
    type [schemaMetadata], and [HashTreeRoot] of a block header. *)
Record Codec : Type := {
  jsonMarshal : schemaMetadata -> result bytes;
  jsonUnmarshal : bytes -> result schemaMetadata;
  HashTreeRoot : BeaconBlockHeader -> result Root
}.

(** ** Computations *)

(** A computation reads and changes the world and reports what it did. *)
Definition M (W A : Type) : Type := W -> A * W * Trace.

Definition ret {W A} (a : A) : M W A := fun w => (a, w, []).

Definition bind {W A B} (m : M W A) (k : A -> M W B) : M W B :=
  fun w =>
    let '(a, w1, t1) := m w in
    let '(b, w2, t2) := k a w1 in
    (b, w2, t1 ++ t2).

Notation "'do' x <- m ; k" := (bind m (fun x => k))
  (at level 10, x name, m at level 100, k at level 200).

(** Result, final world and trace of a run. *)
Definition answer {W A} (r : A * W * Trace) : A := fst (fst r).
Definition world {W A} (r : A * W * Trace) : W := snd (fst r).
Definition trace {W A} (r : A * W * Trace) : Trace := snd r.

(** ** The upgrader *)

Section Steps.
Context {W : Type} (s : Backend W) (codec : Codec).

(** *** Calls through the interface, each leaving its event *)

Definition Metadata (ctx : Ctx) (key : string) : M W (result bytes) :=
  fun w => let (r, w') := be_Metadata s ctx key w in (r, w', [EvMetadata ctx key r]).

Definition SetMetadata (ctx : Ctx) (key : string) (data : bytes) : M W (option error) :=
  fun w => let (r, w') := be_SetMetadata s ctx key data w in
           (r, w', [EvSetMetadata ctx key data r]).

Definition BeginTx (ctx : Ctx) : M W (result Tx) :=
  fun w => let (r, w') := be_BeginTx s ctx w in (r, w', [EvBeginTx ctx r]).

Definition cancel (t : Tx) : M W unit :=
  fun w => (tt, be_cancel s t w, [EvCancel t]).

Definition CommitTx (ctx : Ctx) : M W (option error) :=
  fun w => let (r, w') := be_CommitTx s ctx w in (r, w', [EvCommitTx ctx r]).

Definition Exec (t : Tx) (ctx : Ctx) (sql : string) : M W (option error) :=
  fun w => let (r, w') := be_Exec s t ctx sql w in (r, w', [EvExec t ctx sql r]).

Definition Query (t : Tx) (ctx : Ctx) (sql : string) : M W (result Rows) :=
  fun w => let (r, w') := be_Query s t ctx sql w in (r, w', [EvQuery t ctx sql r]).

Definition RowsNext (rows : Rows) : M W bool :=
  fun w => let (r, w') := be_RowsNext s rows w in (r, w', [EvRowsNext rows r]).

Definition RowsScan (rows : Rows) : M W (result bool) :=
  fun w => let (r, w') := be_RowsScan s rows w in (r, w', [EvRowsScan rows r]).

Definition RowsClose (rows : Rows) : M W unit :=
  fun w => (tt, be_RowsClose s rows w, [EvRowsClose rows]).

Definition ProposerSlashingsForSlotRange (ctx : Ctx) (minSlot maxSlot : uint64)
  : M W (result (list ProposerSlashing)) :=
  fun w => let (r, w') := be_ProposerSlashingsForSlotRange s ctx minSlot maxSlot w in
           (r, w', [EvProposerSlashingsForSlotRange ctx minSlot maxSlot r]).

Definition SetProposerSlashing (ctx : Ctx) (p : ProposerSlashing) : M W (option error) :=
  fun w => let (r, w') := be_SetProposerSlashing s ctx p w in
           (r, w', [EvSetProposerSlashing ctx p r]).

(** [log.Info()...Msg(msg)]. *)
Definition logInfo (msg : string) (fields : list LogField) : M W unit :=
  fun w => (tt, w, [EvLog msg fields]).

(** [if _, err := tx.Exec(ctx, sql); err != nil { return errors.Wrap(err, msg) }],
    followed by the rest [k] of the function. *)
Definition execOrWrap (t : Tx) (ctx : Ctx) (sql msg : string)
    (k : M W (option error)) : M W (option error) :=
  do r <- Exec t ctx sql;
  match r with
  | Some err => ret (Some (Wrap err msg))
  | None => k
  end.

(** *** The upgrade functions of version 1 *)

(** [validatorsEpochNull] allows epochs in the t_validators table to be NULL. *)
Definition validatorsEpochNull (ctx : Ctx) : M W (option error) :=
  match tx ctx with
  | None => ret (Some ErrNoTransaction)
  | Some tx =>
    (* Drop NOT NULL constraints. *)
    execOrWrap tx ctx
      "ALTER TABLE t_validators ALTER COLUMN f_activation_eligibility_epoch DROP NOT NULL"
      "failed to drop NOT NULL constraint on f_activation_eligibility_epoch" (
    execOrWrap tx ctx
      "ALTER TABLE t_validators ALTER COLUMN f_activation_epoch DROP NOT NULL"
      "failed to drop NOT NULL constraint on f_activation_epoch" (
    execOrWrap tx ctx
      "ALTER TABLE t_validators ALTER COLUMN f_exit_epoch DROP NOT NULL"
      "failed to drop NOT NULL constraint on f_exit_epoch" (
    execOrWrap tx ctx
      "ALTER TABLE t_validators ALTER COLUMN f_withdrawable_epoch DROP NOT NULL"
      "failed to drop NOT NULL constraint on f_withdrawable_epoch" (
    (* Change -1 values to NULL. *)
    execOrWrap tx ctx
      "UPDATE t_validators SET f_activation_eligibility_epoch = NULL WHERE f_activation_eligibility_epoch = -1"
      "failed to change -1 to NULL on f_activation_eligibility_epoch" (
    execOrWrap tx ctx
      "UPDATE t_validators SET f_activation_epoch = NULL WHERE f_activation_epoch = -1"
      "failed to change -1 to NULL on f_activation_epoch" (
    execOrWrap tx ctx
      "UPDATE t_validators SET f_exit_epoch = NULL WHERE f_exit_epoch = -1"
      "failed to change -1 to NULL on f_exit_epoch" (
    execOrWrap tx ctx
      "UPDATE t_validators SET f_withdrawable_epoch = NULL WHERE f_withdrawable_epoch = -1"
      "failed to change -1 to NULL on f_withdrawable_epoch" (
    ret None))))))))
  end.

(** [createDeposits] creates the t_deposits table. *)
Definition createDeposits (ctx : Ctx) : M W (option error) :=
  match tx ctx with
  | None => ret (Some ErrNoTransaction)
  | Some tx =>
    execOrWrap tx ctx
      "CREATE TABLE t_deposits (
  f_inclusion_slot         BIGINT NOT NULL
 ,f_inclusion_block_root   BYTEA NOT NULL REFERENCES t_blocks(f_root) ON DELETE CASCADE
 ,f_inclusion_index        BIGINT NOT NULL
 ,f_validator_pubkey       BYTEA NOT NULL
 ,f_withdrawal_credentials BYTEA NOT NULL
 ,f_amount                 BIGINT NOT NULL
)"
      "failed to create deposits table" (
    execOrWrap tx ctx
      "CREATE UNIQUE INDEX i_deposits_1 ON t_deposits(f_inclusion_slot,f_inclusion_block_root,f_inclusion_index)"
      "failed to create deposits index" (
    ret None))
  end.

(** [createChainSpec] creates the t_chain_spec table. *)
Definition createChainSpec (ctx : Ctx) : M W (option error) :=
  match tx ctx with
  | None => ret (Some ErrNoTransaction)
  | Some tx =>
    execOrWrap tx ctx
      "CREATE TABLE t_chain_spec (
  f_key TEXT NOT NULL PRIMARY KEY
 ,f_value TEXT NOT NULL
)"
      "failed to create chain spec table" (
    ret None)
  end.

(** [createGenesis] creates the t_genesis table. *)
Definition createGenesis (ctx : Ctx) : M W (option error) :=
  match tx ctx with
  | None => ret (Some ErrNoTransaction)
  | Some tx =>
    execOrWrap tx ctx
      "CREATE TABLE t_genesis (
  f_validators_root BYTEA NOT NULL PRIMARY KEY
 ,f_time TIMESTAMPTZ NOT NULL
 ,f_fork_version BYTEA NOT NULL
)"
      "failed to create genesis table" (
    ret None)
  end.

(** The body of [for _, proposerSlashing := range proposerSlashings]:
    [Some err] when the loop returns from the function with [err],
    [None] when it runs to its end. *)
Fixpoint updateProposerSlashings (ctx : Ctx) (proposerSlashings : list ProposerSlashing)
  : M W (option error) :=
  match proposerSlashings with
  | [] => ret None
  | proposerSlashing :: rest =>
    let header1 :=
      {| Slot := Header1Slot proposerSlashing;
         ProposerIndex := Header1ProposerIndex proposerSlashing;
         ParentRoot := Header1ParentRoot proposerSlashing;
         StateRoot := Header1StateRoot proposerSlashing;
         BodyRoot := Header1BodyRoot proposerSlashing |} in
    match HashTreeRoot codec header1 with
    | Err err => ret (Some (Wrap err "failed to calculate proposer slashing block 1 root"))
    | Ok root1 =>
      let proposerSlashing := setBlock1Root proposerSlashing root1 in
      let header2 :=
        {| Slot := Header2Slot proposerSlashing;
           ProposerIndex := Header2ProposerIndex proposerSlashing;
           ParentRoot := Header2ParentRoot proposerSlashing;
           StateRoot := Header2StateRoot proposerSlashing;
           BodyRoot := Header2BodyRoot proposerSlashing |} in
      match HashTreeRoot codec header2 with
      | Err err => ret (Some (Wrap err "failed to calculate proposer slashing block 2 root"))
      | Ok root2 =>
        let proposerSlashing := setBlock2Root proposerSlashing root2 in
        do r <- SetProposerSlashing ctx proposerSlashing;
        match r with
        | Some err => ret (Some (Wrap err "failed to update proposer slashing"))
        | None => updateProposerSlashings ctx rest
        end
      end
    end
  end.

(** [addProposerSlashingBlockRoots] adds calculated block roots to the
    t_proposer_slashings table. *)
Definition addProposerSlashingBlockRoots (ctx : Ctx) : M W (option error) :=
  match tx ctx with
  | None => ret (Some ErrNoTransaction)
  | Some tx =>
    (* Start by altering the table to add the columns, but allow them to be NULL. *)
    execOrWrap tx ctx
      "
ALTER TABLE t_proposer_slashings
ADD COLUMN f_block_1_root BYTEA
"
      "failed to add f_block_1_root to proposer slashings table" (
    execOrWrap tx ctx
      "
ALTER TABLE t_proposer_slashings
ADD COLUMN f_block_2_root BYTEA
"
      "failed to add f_block_2_root to proposer slashings table" (
    (* Need to update all of the existing slashings so that they have the
       block root populated.  Using hard-coded maximum values for slots to
       catch all proposer slashings. *)
    do r <- ProposerSlashingsForSlotRange ctx 0 0x7fffffffffffffff;
    match r with
    | Err err => ret (Some (Wrap err "failed to obtain current proposer slashings"))
    | Ok proposerSlashings =>
      do early <- updateProposerSlashings ctx proposerSlashings;
      match early with
      | Some err => ret (Some err)
      | None =>
        (* Add the NOT NULL constraint to the created columns. *)
        execOrWrap tx ctx
          "
ALTER TABLE t_proposer_slashings
ALTER COLUMN f_block_1_root SET NOT NULL
"
          "failed to add NOT NULL constraint for f_block_1_root to proposer slashings table" (
        execOrWrap tx ctx
          "
ALTER TABLE t_proposer_slashings
ALTER COLUMN f_block_2_root SET NOT NULL
"
          "failed to add NOT NULL constraint for f_block_2_root to proposer slashings table" (
        ret None))
      end
    end))
  end.

(** [createETH1Deposits] creates the t_et1_deposits table. *)
Definition createETH1Deposits (ctx : Ctx) : M W (option error) :=
  match tx ctx with
  | None => ret (Some ErrNoTransaction)
  | Some tx =>
    execOrWrap tx ctx
      "
CREATE TABLE IF NOT EXISTS t_eth1_deposits (
  f_eth1_block_number      BIGINT NOT NULL
 ,f_eth1_block_hash        BYTEA NOT NULL
 ,f_eth1_block_timestamp   TIMESTAMPTZ NOT NULL
 ,f_eth1_tx_hash           BYTEA NOT NULL
 ,f_eth1_log_index         BIGINT NOT NULL
 ,f_eth1_sender            BYTEA NOT NULL
 ,f_eth1_recipient         BYTEA NOT NULL
 ,f_eth1_gas_used          BIGINT NOT NULL
 ,f_eth1_gas_price         BIGINT NOT NULL
 ,f_deposit_index          BIGINT UNIQUE NOT NULL
 ,f_validator_pubkey       BYTEA NOT NULL
 ,f_withdrawal_credentials BYTEA NOT NULL
 ,f_signature              BYTEA NOT NULL
 ,f_amount                 BIGINT NOT NULL
)"
      "failed to create Ethereum 1 deposits table" (
    execOrWrap tx ctx
      "CREATE UNIQUE INDEX IF NOT EXISTS i_eth1_deposits_1 ON t_eth1_deposits(f_eth1_block_hash, f_eth1_tx_hash, f_eth1_log_index)"
      "failed to create Ethereum 1 deposits index 1" (
    execOrWrap tx ctx
      "CREATE INDEX IF NOT EXISTS i_eth1_deposits_2 ON t_eth1_deposits(f_validator_pubkey)"
      "failed to create Ethereum 1 deposits index 2" (
    execOrWrap tx ctx
      "CREATE INDEX IF NOT EXISTS i_eth1_deposits_3 ON t_eth1_deposits(f_withdrawal_credentials)"
      "failed to create Ethereum 1 deposits index 3" (
    execOrWrap tx ctx
      "CREATE INDEX IF NOT EXISTS i_eth1_deposits_4 ON t_eth1_deposits(f_eth1_sender)"
      "failed to create Ethereum 1 deposits index 4" (
    execOrWrap tx ctx
      "CREATE INDEX IF NOT EXISTS i_eth1_deposits_5 ON t_eth1_deposits(f_eth1_recipient)"
      "failed to create Ethereum 1 deposits index 5" (
    ret None))))))
  end.

(** The text built by [fmt.Sprintf] in [columnExists]. *)
Definition columnExistsQuery (tableName columnName : string) : string :=
  "SELECT true
FROM pg_attribute
WHERE attrelid = '" +:+ tableName +:+ "'::regclass
  AND attname = '" +:+ columnName +:+ "'
  AND NOT attisdropped".

(** [columnExists] returns true if the given column exists in the given
    table.  Inside [if tx == nil { ... }] the context returned by
    [BeginTx] is a new variable of that block: [tx] is taken from it,
    and the query below still runs with the context of the caller.  The
    deferred calls run when the function returns, last one first:
    [rows.Close()], then [cancel()] when the block was entered. *)
Definition columnExists (ctx : Ctx) (tableName columnName : string)
  : M W (bool * option error) :=
  let probe (tx : Tx) : M W (bool * option error) :=
    let query := columnExistsQuery tableName columnName in
    do r <- Query tx ctx query;
    match r with
    | Err err => ret (false, Some err)
    | Ok rows =>
      do _ <- RowsNext rows;
      do scanned <- RowsScan rows;
      do _ <- RowsClose rows;
      match scanned with
      | Err err => ret (false, Some (Wrap err "failed to scan row"))
      | Ok found => ret (found, None)
      end
    end in
  match tx ctx with
  | None =>
    do b <- BeginTx ctx;
    match b with
    | Err err => ret (false, Some (Wrap err "failed to begin transaction"))
    | Ok own =>
      do r <- probe own;
      do _ <- cancel own;
      ret r
    end
  | Some tx => probe tx
  end.

(** [addAttestationAggregationIndices] adds aggregation indices to the
    t_attestations table. *)
Definition addAttestationAggregationIndices (ctx : Ctx) : M W (option error) :=
  match tx ctx with
  | None => ret (Some ErrNoTransaction)
  | Some tx =>
    (* Earlier versions of the upgrade carried this out manually; check if
       it's already present. *)
    do r <- columnExists ctx "t_attestations" "f_aggregation_indices";
    match r with
    | (_, Some err) =>
      ret (Some (Wrap err
        "failed to check if f_aggregation_indices is present in t_attestations"))
    | (alreadyPresent, None) =>
      if alreadyPresent then
        (* Nothing more to do. *)
        ret None
      else
        execOrWrap tx ctx
          "
ALTER TABLE t_attestations
ADD COLUMN f_aggregation_indices BIGINT[]
"
          "failed to add f_aggregation_indices to attestations table" (
        ret None)
    end
  end.

(** *** The schema version *)

(** [version] obtains the version of the schema. *)
Definition version (ctx : Ctx) : M W (uint64 * option error) :=
  do r <- Metadata ctx "schema";
  match r with
  | Err err => ret (0, Some (Wrap err "failed to obtain schema metadata"))
  | Ok data =>
    (* No data means it's version 0 of the schema. *)
    if Nat.eqb (length data) 0%nat then ret (0, None)
    else
      match jsonUnmarshal codec data with
      | Err err => ret (0, Some (Wrap err "failed to unmarshal metadata JSON"))
      | Ok metadata => ret (Version metadata, None)
      end
  end.

(** [setVersion] sets the version of the schema. *)
Definition setVersion (ctx : Ctx) (version : uint64) : M W (option error) :=
  match tx ctx with
  | None => ret (Some ErrNoTransaction)
  | Some _ =>
    let metadata := {| Version := version |} in
    match jsonMarshal codec metadata with
    | Err err => ret (Some (Wrap err "failed to marshal metadata"))
    | Ok data => SetMetadata ctx "schema" data
    end
  end.

(** *** The registry and the executor *)

(** [upgrade]: the functions take the context; the service [s] they
    also take in Go is the backend of this section. *)
Record upgrade : Type := {
  requiresRefetch : bool;
  funcs : list (Ctx -> M W (option error))
}.

(** The call [upgradeFunc(ctx, s)] of index [i] at version [version]. *)
Definition call (version : uint64) (i : nat) (m : M W (option error))
  : M W (option error) :=
  fun w => let '(r, w', body) := m w in (r, w', [EvCall version i body r]).

(** How the loop over the versions ends: by a [return] from inside it,
    by its guard becoming false, or, in this model only, by running out
    of [fuel] before either happened. *)
Inductive LoopEnd : Type :=
| Returned (r : bool * option error)
| Completed (requiresRefetch : bool)
| OutOfFuel.

Section Executor.
(** The two package-level variables read by [Upgrade]. *)
Variable currentVersion : uint64.
Variable upgrades : gmap N upgrade.

(** [for i, upgradeFunc := range upgrade.funcs], from index [i] on;
    [total] is [len(upgrade.funcs)].  [Some r] when the loop returns
    [r] from [Upgrade]. *)
Fixpoint runFuncs (cancelTx : Tx) (ctx : Ctx) (version : uint64) (total i : nat)
    (rest : list (Ctx -> M W (option error))) : M W (option (bool * option error)) :=
  match rest with
  | [] => ret None
  | upgradeFunc :: rest' =>
    do _ <- logInfo "Running upgrade function"
              [Int "current" (Z.of_nat i + 1); Int "total" (Z.of_nat total)];
    do r <- call version i (upgradeFunc ctx);
    match r with
    | Some err =>
      do _ <- cancel cancelTx;
      ret (Some (false, Some (Wrap err "failed to upgrade")))
    | None => runFuncs cancelTx ctx version total (S i) rest'
    end
  end.

(** [for i := version; i <= currentVersion; i++], from the value [i]
    of the counter on, one unit of [fuel] per iteration. *)
Fixpoint upgradeVersions (fuel : nat) (cancelTx : Tx) (ctx : Ctx) (i : uint64)
    (requiresRefetch' : bool) : M W LoopEnd :=
  if i <=? currentVersion then
    match fuel with
    | O => ret OutOfFuel
    | S fuel' =>
      do _ <- logInfo "Upgrading database" [Uint64 "version" i];
      match upgrades !! i with
      | Some upgrade =>
        do r <- runFuncs cancelTx ctx i (length (funcs upgrade)) 0 (funcs upgrade);
        match r with
        | Some early => ret (Returned early)
        | None =>
          upgradeVersions fuel' cancelTx ctx (uint64_incr i)
            (requiresRefetch' || requiresRefetch upgrade)
        end
      | None => upgradeVersions fuel' cancelTx ctx (uint64_incr i) requiresRefetch'
      end
    end
  else ret (Completed requiresRefetch').

(** [Upgrade] upgrades the database.  Returns true if the upgrade
    requires blocks to be refetched.  [None] only when the loop over
    the versions needs more than [fuel] iterations. *)
Definition Upgrade (fuel : nat) (ctx : Ctx) : M W (option (bool * option error)) :=
  do v <- version ctx;
  match v with
  | (_, Some err) => ret (Some (false, Some (Wrap err "failed to obtain version")))
  | (version, None) =>
    if version =? currentVersion then
      (* Nothing to do. *)
      ret (Some (false, None))
    else
      do b <- BeginTx ctx;
      match b with
      | Err err =>
        ret (Some (false, Some (Wrap err "failed to begin upgrade transaction")))
      | Ok t =>
        let ctx := withTx ctx t in
        do l <- upgradeVersions fuel t ctx version false;
        match l with
        | OutOfFuel => ret None
        | Returned r => ret (Some r)
        | Completed requiresRefetch =>
          do e <- setVersion ctx currentVersion;
          match e with
          | Some err =>
            do _ <- cancel t;
            ret (Some (false, Some (Wrap err "failed to set latest schema version")))
          | None =>
            do c <- CommitTx ctx;
            match c with
            | Some err =>
              do _ <- cancel t;
              ret (Some (false, Some (Wrap err "failed to commit upgrade transaction")))
            | None =>
              do _ <- logInfo "Upgrade complete" [];
              ret (Some (requiresRefetch, None))
            end
          end
        end
      end
  end.
End Executor.
End Steps.

(** [currentVersion] as the package declares it. *)
Definition currentVersion : uint64 := 1.

(** [upgrades] as the package declares it: one upgrade, for version 1. *)
Definition upgrades {W : Type} (s : Backend W) (codec : Codec) : gmap N (upgrade (W:=W)) :=
  {[ 1 := {| requiresRefetch := true;
             funcs := [ validatorsEpochNull s;
                        createDeposits s;
                        createChainSpec s;
                        createGenesis s;
                        addProposerSlashingBlockRoots s codec;
                        createETH1Deposits s;
                        addAttestationAggregationIndices s ] |} ]}.

(** ** Reading traces *)

(** The events of the loop over the versions that do not end the run:
    log lines and upgrade functions that returned [nil]. *)
Definition quiet (ev : Event) : bool :=
  match ev with
  | EvLog _ _ => true
  | EvCall _ _ _ None => true
  | _ => false
  end.

(** The version announced by a line "Upgrading database". *)
Definition loggedVersion (ev : Event) : option uint64 :=
  match ev with
  | EvLog msg [Uint64 key i] =>
    if (String.eqb msg "Upgrading database" && String.eqb key "version")%bool
    then Some i else None
  | _ => None
  end.

(** The versions the loop of [Upgrade] went through, in order. *)
Definition visited (tr : Trace) : list uint64 := omap loggedVersion tr.

(** The values [first], [first + 1], ... up to [last]; none when
    [last < first]. *)
Definition versionRange (first last : uint64) : list uint64 :=
  map (fun k => first + N.of_nat k) (seq 0 (N.to_nat (last + 1 - first))).

(** The upgrade functions [Upgrade] called, as (version, index), in order. *)
Definition called (tr : Trace) : list (uint64 * nat) :=
  omap (fun ev => match ev with EvCall i j _ _ => Some (i, j) | _ => None end) tr.

(** The calls that applying the upgrades registered for [versions]
    takes: for each version with an upgrade, every index of its list of
    functions, in order. *)
Definition callsOf {W} (upgrades : gmap N (upgrade (W:=W))) (versions : list uint64)
  : list (uint64 * nat) :=
  flat_map (fun i => match upgrades !! i with
                     | Some u => map (fun j => (i, j)) (seq 0 (length (funcs u)))
                     | None => []
                     end) versions.

(** The flag of the upgrade registered for a version, [false] if none is. *)
Definition refetchAt {W} (upgrades : gmap N (upgrade (W:=W))) (i : uint64) : bool :=
  match upgrades !! i with
  | Some u => requiresRefetch u
  | None => false
  end.

(** The upgrades applied in a run: those registered for the versions the
    loop went through. *)
Definition applied {W} (upgrades : gmap N (upgrade (W:=W))) (tr : Trace)
  : list (upgrade (W:=W)) :=
  omap (fun i => upgrades !! i) (visited tr).

Definition isExec (ev : Event) : bool :=
  match ev with EvExec _ _ _ _ => true | _ => false end.

Definition isBeginOrCancel (ev : Event) : bool :=
  match ev with EvBeginTx _ _ | EvCancel _ => true | _ => false end.

(** The shapes a run of [Upgrade] takes: its result next to the top
    level of its trace.  [loop] is what the loop over the versions left
    and holds [quiet] events only; in a run that commits, the calls in it
    are those of the upgrades registered for the versions gone through. *)
Inductive Shape {W : Type} (upgrades : gmap N (upgrade (W:=W))) (ctx : Ctx)
  : option (bool * option error) -> Trace -> Prop :=
| VersionFailed rm err :
    Shape upgrades ctx
      (Some (false, Some (Wrap err "failed to obtain version")))
      [EvMetadata ctx "schema" rm]
| UpToDate rm :
    Shape upgrades ctx (Some (false, None)) [EvMetadata ctx "schema" rm]
| BeginFailed rm err :
    Shape upgrades ctx
      (Some (false, Some (Wrap err "failed to begin upgrade transaction")))
      [EvMetadata ctx "schema" rm; EvBeginTx ctx (Err err)]
| Starved rm t loop :
    forallb quiet loop = true ->
    Shape upgrades ctx None
      ([EvMetadata ctx "schema" rm; EvBeginTx ctx (Ok t)] ++ loop)
| StepFailed rm t loop i j body err :
    forallb quiet loop = true ->
    Shape upgrades ctx
      (Some (false, Some (Wrap err "failed to upgrade")))
      ([EvMetadata ctx "schema" rm; EvBeginTx ctx (Ok t)] ++ loop ++
       [EvCall i j body (Some err); EvCancel t])
| MarshalFailed rm t loop err :
    forallb quiet loop = true ->
    Shape upgrades ctx
      (Some (false, Some (Wrap (Wrap err "failed to marshal metadata")
                            "failed to set latest schema version")))
      ([EvMetadata ctx "schema" rm; EvBeginTx ctx (Ok t)] ++ loop ++ [EvCancel t])
| SetVersionFailed rm t loop data err :
    forallb quiet loop = true ->
    Shape upgrades ctx
      (Some (false, Some (Wrap err "failed to set latest schema version")))
      ([EvMetadata ctx "schema" rm; EvBeginTx ctx (Ok t)] ++ loop ++
       [EvSetMetadata (withTx ctx t) "schema" data (Some err); EvCancel t])
| CommitFailed rm t loop data err :
    forallb quiet loop = true ->
    Shape upgrades ctx
      (Some (false, Some (Wrap err "failed to commit upgrade transaction")))
      ([EvMetadata ctx "schema" rm; EvBeginTx ctx (Ok t)] ++ loop ++
       [EvSetMetadata (withTx ctx t) "schema" data None;
        EvCommitTx (withTx ctx t) (Some err); EvCancel t])
| Succeeded rm t loop data :
    forallb quiet loop = true ->
    called loop = callsOf upgrades (visited loop) ->
    Shape upgrades ctx
      (Some (existsb (refetchAt upgrades) (visited loop), None))
      ([EvMetadata ctx "schema" rm; EvBeginTx ctx (Ok t)] ++ loop ++
       [EvSetMetadata (withTx ctx t) "schema" data None;
        EvCommitTx (withTx ctx t) None; EvLog "Upgrade complete" []]).

(** ** The contract of the transaction scope *)

(** Modelled from the spec: the Transaction Scope ("a scoped unit of work
    with explicit begin/commit/cancel semantics") and the Metadata Store
    Adapter ("get and set, both scoped to the ambient transaction when
    one is active") are not part of the file.  [persisted w] is what the
    database holds for a reader outside every transaction, and
    [stored p key] the metadata it holds under [key], empty when absent.
    Work done inside a transaction reaches [persisted] through a
    successful commit only; a metadata read outside every transaction
    answers with what is stored; metadata set in a transaction is what is
    stored once that transaction has committed. *)
Record TransactionScope {W P : Type} (s : Backend W)
    (persisted : W -> P) (stored : P -> string -> bytes) : Prop := {
  ts_Metadata : forall ctx key w,
    persisted (be_Metadata s ctx key w).2 = persisted w;
  ts_SetMetadata : forall ctx key data w,
    is_Some (tx ctx) -> persisted (be_SetMetadata s ctx key data w).2 = persisted w;
  ts_BeginTx : forall ctx w,
    persisted (be_BeginTx s ctx w).2 = persisted w;
  ts_cancel : forall t w,
    persisted (be_cancel s t w) = persisted w;
  ts_CommitTx_failed : forall ctx w err,
    (be_CommitTx s ctx w).1 = Some err ->
    persisted (be_CommitTx s ctx w).2 = persisted w;
  ts_Exec : forall t ctx sql w,
    persisted (be_Exec s t ctx sql w).2 = persisted w;
  ts_Query : forall t ctx sql w,
    persisted (be_Query s t ctx sql w).2 = persisted w;
  ts_RowsNext : forall rows w,
    persisted (be_RowsNext s rows w).2 = persisted w;
  ts_RowsScan : forall rows w,
    persisted (be_RowsScan s rows w).2 = persisted w;
  ts_RowsClose : forall rows w,
    persisted (be_RowsClose s rows w) = persisted w;
  ts_ProposerSlashingsForSlotRange : forall ctx lo hi w,
    persisted (be_ProposerSlashingsForSlotRange s ctx lo hi w).2 = persisted w;
  ts_SetProposerSlashing : forall ctx p w,
    is_Some (tx ctx) -> persisted (be_SetProposerSlashing s ctx p w).2 = persisted w;
  ts_read : forall ctx key w data,
    tx ctx = None ->
    (be_Metadata s ctx key w).1 = Ok data ->
    data = stored (persisted w) key;
  ts_commit_SetMetadata : forall ctx key data w,
    (be_SetMetadata s ctx key data w).1 = None ->
    (be_CommitTx s ctx (be_SetMetadata s ctx key data w).2).1 = None ->
    stored (persisted (be_CommitTx s ctx (be_SetMetadata s ctx key data w).2).2) key = data
}.

(** A computation that leaves the persisted state as it found it. *)
Definition Keeps {W P A : Type} (persisted : W -> P) (m : M W A) : Prop :=
  forall w, persisted (world (m w)) = persisted w.

(** An upgrade function keeps to the transaction it is given. *)
Definition keepsPersisted {W P : Type} (persisted : W -> P)
    (f : Ctx -> M W (option error)) : Prop :=
  forall ctx, is_Some (tx ctx) -> Keeps persisted (f ctx).

(** ** A reference backend *)

(** Modelled from the spec: a database that meets the contract above.
    What the statements of an SQL text do to the tables is left to an
    [Engine]; the transactions are worked out here.  [BeginTx] hands out
    a working copy of the committed state, every call made in a
    transaction reads and writes its working copy, [CommitTx] installs
    the working copy as the committed state, and [cancel] drops it.  Any
    call that can fail does so, without effect, when the schedule
    [faults] says so at the current [clock]. *)
Section Reference.
Variable D : Type.

Record Engine : Type := {
  execSem : string -> D -> result D;
  querySem : string -> D -> result (list bool);
  slashingsSem : uint64 -> uint64 -> D -> result (list ProposerSlashing);
  setSlashingSem : ProposerSlashing -> D -> result D
}.

Record Store : Type := { meta : gmap string bytes; tables : D }.

Record DB : Type := {
  committed : Store;
  working : gmap N Store;
  nextTx : Tx;
  cursors : gmap N (option bool * list bool);
  nextRows : Rows;
  faults : nat -> option error;
  clock : nat
}.

Definition setCommitted (st : Store) (db : DB) : DB :=
  {| committed := st; working := working db; nextTx := nextTx db;
     cursors := cursors db; nextRows := nextRows db;
     faults := faults db; clock := clock db |}.

Definition setWorking (o : gmap N Store) (db : DB) : DB :=
  {| committed := committed db; working := o; nextTx := nextTx db;
     cursors := cursors db; nextRows := nextRows db;
     faults := faults db; clock := clock db |}.

Definition setNextTx (t : Tx) (db : DB) : DB :=
  {| committed := committed db; working := working db; nextTx := t;
     cursors := cursors db; nextRows := nextRows db;
     faults := faults db; clock := clock db |}.

Definition setCursors (c : gmap N (option bool * list bool)) (db : DB) : DB :=
  {| committed := committed db; working := working db; nextTx := nextTx db;
     cursors := c; nextRows := nextRows db;
     faults := faults db; clock := clock db |}.

Definition setNextRows (r : Rows) (db : DB) : DB :=
  {| committed := committed db; working := working db; nextTx := nextTx db;
     cursors := cursors db; nextRows := r;
     faults := faults db; clock := clock db |}.

(** The fault scheduled for the call being made, and the clock moved on. *)
Definition tick (db : DB) : option error * DB :=
  (faults db (clock db),
   {| committed := committed db; working := working db; nextTx := nextTx db;
      cursors := cursors db; nextRows := nextRows db;
      faults := faults db; clock := S (clock db) |}).

(** The state a call with context [ctx] reads: the working copy of its
    transaction, or the committed state outside every transaction. *)
Definition view (ctx : Ctx) (db : DB) : option Store :=
  match tx ctx with
  | Some t => working db !! t
  | None => Some (committed db)
  end.

Definition closed : error := ErrExternal "tx is closed".

Variable engine : Engine.

Definition ref_Metadata (ctx : Ctx) (key : string) (db : DB) : result bytes * DB :=
  let (f, db) := tick db in
  match f with
  | Some err => (Err err, db)
  | None =>
    match view ctx db with
    | Some st => (Ok (default [] (meta st !! key)), db)
    | None => (Err closed, db)
    end
  end.

Definition ref_SetMetadata (ctx : Ctx) (key : string) (data : bytes) (db : DB)
  : option error * DB :=
  let (f, db) := tick db in
  match f with
  | Some err => (Some err, db)
  | None =>
    match tx ctx with
    | None => (Some ErrNoTransaction, db)
    | Some t =>
      match working db !! t with
      | Some st =>
        let st' := {| meta := <[key := data]> (meta st); tables := tables st |} in
        (None, setWorking (<[t := st']> (working db)) db)
      | None => (Some closed, db)
      end
    end
  end.

Definition ref_BeginTx (ctx : Ctx) (db : DB) : result Tx * DB :=
  let (f, db) := tick db in
  match f with
  | Some err => (Err err, db)
  | None =>
    let t := nextTx db in
    (Ok t, setNextTx (t + 1) (setWorking (<[t := committed db]> (working db)) db))
  end.

Definition ref_cancel (t : Tx) (db : DB) : DB :=
  setWorking (delete t (working db)) db.

Definition ref_CommitTx (ctx : Ctx) (db : DB) : option error * DB :=
  let (f, db) := tick db in
  match f with
  | Some err => (Some err, db)
  | None =>
    match tx ctx with
    | None => (Some ErrNoTransaction, db)
    | Some t =>
      match working db !! t with
      | Some st => (None, setCommitted st (setWorking (delete t (working db)) db))
      | None => (Some closed, db)
      end
    end
  end.

Definition ref_Exec (t : Tx) (ctx : Ctx) (sql : string) (db : DB) : option error * DB :=
  let (f, db) := tick db in
  match f with
  | Some err => (Some err, db)
  | None =>
    match working db !! t with
    | Some st =>
      match execSem engine sql (tables st) with
      | Ok d =>
        (None, setWorking (<[t := {| meta := meta st; tables := d |}]> (working db)) db)
      | Err err => (Some err, db)
      end
    | None => (Some closed, db)
    end
  end.

Definition ref_Query (t : Tx) (ctx : Ctx) (sql : string) (db : DB) : result Rows * DB :=
  let (f, db) := tick db in
  match f with
  | Some err => (Err err, db)
  | None =>
    match working db !! t with
    | Some st =>
      match querySem engine sql (tables st) with
      | Ok rs =>
        let r := nextRows db in
        (Ok r, setNextRows (r + 1) (setCursors (<[r := (None, rs)]> (cursors db)) db))
      | Err err => (Err err, db)
      end
    | None => (Err closed, db)
    end
  end.

(** [rows.Next()] moves to the next row and tells whether there is one. *)
Definition ref_RowsNext (rows : Rows) (db : DB) : bool * DB :=
  match cursors db !! rows with
  | Some (_, b :: rest) => (true, setCursors (<[rows := (Some b, rest)]> (cursors db)) db)
  | Some (_, []) => (false, setCursors (<[rows := (None, [])]> (cursors db)) db)
  | None => (false, db)
  end.

(** [rows.Scan(&found)] reads the current row and fails when there is none. *)
Definition ref_RowsScan (rows : Rows) (db : DB) : result bool * DB :=
  let (f, db) := tick db in
  match f with
  | Some err => (Err err, db)
  | None =>
    match cursors db !! rows with
    | Some (Some b, _) => (Ok b, db)
    | _ => (Err (ErrExternal "no row to scan"), db)
    end
  end.

Definition ref_RowsClose (rows : Rows) (db : DB) : DB :=
  setCursors (delete rows (cursors db)) db.

Definition ref_ProposerSlashingsForSlotRange (ctx : Ctx) (lo hi : uint64) (db : DB)
  : result (list ProposerSlashing) * DB :=
  let (f, db) := tick db in
  match f with
  | Some err => (Err err, db)
  | None =>
    match view ctx db with
    | Some st => (slashingsSem engine lo hi (tables st), db)
    | None => (Err closed, db)
    end
  end.

Definition ref_SetProposerSlashing (ctx : Ctx) (p : ProposerSlashing) (db : DB)
  : option error * DB :=
  let (f, db) := tick db in
  match f with
  | Some err => (Some err, db)
  | None =>
    match tx ctx with
    | None => (Some ErrNoTransaction, db)
    | Some t =>
      match working db !! t with
      | Some st =>
        match setSlashingSem engine p (tables st) with
        | Ok d =>
          (None, setWorking (<[t := {| meta := meta st; tables := d |}]> (working db)) db)
        | Err err => (Some err, db)
        end
      | None => (Some closed, db)
      end
    end
  end.

Definition reference : Backend DB := {|
  be_Metadata := ref_Metadata;
  be_SetMetadata := ref_SetMetadata;
  be_BeginTx := ref_BeginTx;
  be_cancel := ref_cancel;
  be_CommitTx := ref_CommitTx;
  be_Exec := ref_Exec;
  be_Query := ref_Query;
  be_RowsNext := ref_RowsNext;
  be_RowsScan := ref_RowsScan;
  be_RowsClose := ref_RowsClose;
  be_ProposerSlashingsForSlotRange := ref_ProposerSlashingsForSlotRange;
  be_SetProposerSlashing := ref_SetProposerSlashing
|}.

(** What the reference database holds for an outside reader. *)
Definition ref_stored (st : Store) (key : string) : bytes := default [] (meta st !! key).
End Reference.

(** ** Concrete instances *)

(** *** [encoding/json] at [schemaMetadata] *)

(** [json.Marshal] and [json.Unmarshal] of the standard library, which
    the file calls and does not define, at the type [schemaMetadata]: a
    struct of one [uint64] field tagged "version".  Marshalling writes
    the digits in decimal.  Unmarshalling is the scanner of the library,
    its state functions under their names, followed by its decoder at
    this type.  The double quote is character 34. *)
Definition dquote : string := String (Ascii.ascii_of_nat 34) EmptyString.

Definition versionPrefix : string := "{" +:+ dquote +:+ "version" +:+ dquote +:+ ":".

Definition textMarshal (m : schemaMetadata) : result bytes :=
  Ok (list_byte_of_string
        (versionPrefix +:+ DecimalString.NilEmpty.string_of_uint (N.to_uint (Version m))
         +:+ "}")).

Definition isSpace (c : byte) : bool :=
  match c with
  | " "%byte | x09 | x0d | x0a => true
  | _ => false
  end.

Definition isDigit (c : byte) : bool :=
  ((48 <=? Byte.to_N c) && (Byte.to_N c <=? 57))%bool.

Definition isHex (c : byte) : bool :=
  let n := Byte.to_N c in
  (isDigit c || ((97 <=? n) && (n <=? 102)) || ((65 <=? n) && (n <=? 70)))%bool.

Definition charString (n : N) : string := String (Ascii.ascii_of_N n) EmptyString.

Definition hexDigit (n : N) : string := substring (N.to_nat n) 1 "0123456789abcdef".

Definition hex2 (n : N) : string := hexDigit (n / 16) +:+ hexDigit (n mod 16).

(** [quoteChar] formats a byte as a quoted character literal, as
    [strconv.Quote] does for the rune of that value: printable Latin-1
    as it is (in UTF-8 from 161 on), the others escaped. *)
Definition quoteChar (c : byte) : string :=
  let n := Byte.to_N c in
  if n =? 39 then "'\''"
  else if n =? 34 then "'" +:+ dquote +:+ "'"
  else
    "'" +:+
    (if n =? 92 then "\\"
     else if ((32 <=? n) && (n <=? 126))%bool then charString n
     else if ((161 <=? n) && negb (n =? 173))%bool
          then charString (192 + n / 64) +:+ charString (128 + n mod 64)
     else if n =? 7 then "\a"
     else if n =? 8 then "\b"
     else if n =? 12 then "\f"
     else if n =? 10 then "\n"
     else if n =? 13 then "\r"
     else if n =? 9 then "\t"
     else if n =? 11 then "\v"
     else if ((n <? 32) || (n =? 127))%bool then "\x" +:+ hex2 n
     else "\u00" +:+ hex2 n)
    +:+ "'".

(** What the scanner is inside of: an object before a key or before a
    value, or an array. *)
Inductive ParseState : Type :=
| parseObjectKey
| parseObjectValue
| parseArrayValue.

(** The state functions of the scanner, as values.  The functions of the
    literals [true], [false] and [null] are one state holding the name of
    the literal and the bytes still expected; the state after an error
    holds that error. *)
Inductive ScanState : Type :=
| BeginValue
| BeginValueOrEmpty
| BeginStringOrEmpty
| BeginString
| EndValue
| EndTop
| InString
| InStringEsc
| InStringEscU (seen : nat)
| Neg
| Digit1
| Digit0
| Dot
| Dot0
| Exp
| ExpSign
| Exp0
| InLiteral (name : string) (rest : list byte)
| Failed (e : error).

Inductive Op : Type :=
| scanContinue
| scanBeginLiteral
| scanBeginObject
| scanObjectKey
| scanObjectValue
| scanEndObject
| scanBeginArray
| scanArrayValue
| scanEndArray
| scanSkipSpace
| scanEnd
| scanError.

Record scanner : Type := {
  scanState : ScanState;
  endTop : bool;
  parseStack : list ParseState
}.

Definition withState (st : ScanState) (s : scanner) : scanner :=
  {| scanState := st; endTop := endTop s; parseStack := parseStack s |}.

Definition withStack (stack : list ParseState) (s : scanner) : scanner :=
  {| scanState := scanState s; endTop := endTop s; parseStack := stack |}.

(** [s.error(c, context)]. *)
Definition syntaxError (s : scanner) (c : byte) (context : string) : Op * scanner :=
  (scanError,
   withState (Failed (ErrExternal ("invalid character " +:+ quoteChar c +:+ " " +:+ context)))
     s).

Definition maxNestingDepth : N := 10000.

Definition pushParseState (s : scanner) (c : byte) (newParseState : ParseState)
    (successState : Op) : Op * scanner :=
  let s := withStack (newParseState :: parseStack s) s in
  if N.of_nat (length (parseStack s)) <=? maxNestingDepth then (successState, s)
  else syntaxError s c "exceeded max depth".

Definition popParseState (s : scanner) : scanner :=
  match parseStack s with
  | [] => s
  | _ :: [] => {| scanState := EndTop; endTop := true; parseStack := [] |}
  | _ :: rest => {| scanState := EndValue; endTop := endTop s; parseStack := rest |}
  end.

(** After the top-level value: a byte that is not white space is
    complained about at the next call. *)
Definition stateEndTop (s : scanner) (c : byte) : Op * scanner :=
  if isSpace c then (scanEnd, s)
  else (scanEnd, (syntaxError s c "after top-level value").2).

Definition stateEndValue (s : scanner) (c : byte) : Op * scanner :=
  match parseStack s with
  | [] => stateEndTop {| scanState := EndTop; endTop := true; parseStack := [] |} c
  | ps :: rest =>
    if isSpace c then (scanSkipSpace, withState EndValue s)
    else
      match ps with
      | parseObjectKey =>
        if Byte.eqb c ":" then
          (scanObjectKey, withState BeginValue (withStack (parseObjectValue :: rest) s))
        else syntaxError s c "after object key"
      | parseObjectValue =>
        if Byte.eqb c "," then
          (scanObjectValue, withState BeginString (withStack (parseObjectKey :: rest) s))
        else if Byte.eqb c "}" then (scanEndObject, popParseState s)
        else syntaxError s c "after object key:value pair"
      | parseArrayValue =>
        if Byte.eqb c "," then (scanArrayValue, withState BeginValue s)
        else if Byte.eqb c "]" then (scanEndArray, popParseState s)
        else syntaxError s c "after array element"
      end
  end.

Definition stateBeginValue (s : scanner) (c : byte) : Op * scanner :=
  if isSpace c then (scanSkipSpace, s)
  else if Byte.eqb c "{" then
    pushParseState (withState BeginStringOrEmpty s) c parseObjectKey scanBeginObject
  else if Byte.eqb c "[" then
    pushParseState (withState BeginValueOrEmpty s) c parseArrayValue scanBeginArray
  else if Byte.eqb c x22 then (scanBeginLiteral, withState InString s)
  else if Byte.eqb c "-" then (scanBeginLiteral, withState Neg s)
  else if Byte.eqb c "0" then (scanBeginLiteral, withState Digit0 s)
  else if Byte.eqb c "t" then
    (scanBeginLiteral, withState (InLiteral "true" (list_byte_of_string "rue")) s)
  else if Byte.eqb c "f" then
    (scanBeginLiteral, withState (InLiteral "false" (list_byte_of_string "alse")) s)
  else if Byte.eqb c "n" then
    (scanBeginLiteral, withState (InLiteral "null" (list_byte_of_string "ull")) s)
  else if isDigit c then (scanBeginLiteral, withState Digit1 s)
  else syntaxError s c "looking for beginning of value".

Definition stateBeginValueOrEmpty (s : scanner) (c : byte) : Op * scanner :=
  if isSpace c then (scanSkipSpace, s)
  else if Byte.eqb c "]" then stateEndValue s c
  else stateBeginValue s c.

Definition stateBeginString (s : scanner) (c : byte) : Op * scanner :=
  if isSpace c then (scanSkipSpace, s)
  else if Byte.eqb c x22 then (scanBeginLiteral, withState InString s)
  else syntaxError s c "looking for beginning of object key string".

Definition stateBeginStringOrEmpty (s : scanner) (c : byte) : Op * scanner :=
  if isSpace c then (scanSkipSpace, s)
  else if Byte.eqb c "}" then
    stateEndValue (withStack (parseObjectValue :: tl (parseStack s)) s) c
  else stateBeginString s c.

Definition stateInString (s : scanner) (c : byte) : Op * scanner :=
  if Byte.eqb c x22 then (scanContinue, withState EndValue s)
  else if Byte.eqb c x5c then (scanContinue, withState InStringEsc s)
  else if Byte.to_N c <? 32 then syntaxError s c "in string literal"
  else (scanContinue, s).

Definition stateInStringEsc (s : scanner) (c : byte) : Op * scanner :=
  if existsb (Byte.eqb c) ["b"; "f"; "n"; "r"; "t"; x5c; "/"; x22]%byte then
    (scanContinue, withState InString s)
  else if Byte.eqb c "u" then (scanContinue, withState (InStringEscU 0) s)
  else syntaxError s c "in string escape code".

(** The four states after [\u], [seen] hexadecimal digits having been read. *)
Definition stateInStringEscU (seen : nat) (s : scanner) (c : byte) : Op * scanner :=
  if isHex c then
    (scanContinue, withState (if Nat.eqb seen 3 then InString else InStringEscU (S seen)) s)
  else syntaxError s c "in \u hexadecimal character escape".

Definition stateNeg (s : scanner) (c : byte) : Op * scanner :=
  if Byte.eqb c "0" then (scanContinue, withState Digit0 s)
  else if isDigit c then (scanContinue, withState Digit1 s)
  else syntaxError s c "in numeric literal".

Definition state0 (s : scanner) (c : byte) : Op * scanner :=
  if Byte.eqb c "." then (scanContinue, withState Dot s)
  else if (Byte.eqb c "e" || Byte.eqb c "E")%bool then (scanContinue, withState Exp s)
  else stateEndValue s c.

Definition state1 (s : scanner) (c : byte) : Op * scanner :=
  if isDigit c then (scanContinue, withState Digit1 s)
  else state0 s c.

Definition stateDot (s : scanner) (c : byte) : Op * scanner :=
  if isDigit c then (scanContinue, withState Dot0 s)
  else syntaxError s c "after decimal point in numeric literal".

Definition stateDot0 (s : scanner) (c : byte) : Op * scanner :=
  if isDigit c then (scanContinue, s)
  else if (Byte.eqb c "e" || Byte.eqb c "E")%bool then (scanContinue, withState Exp s)
  else stateEndValue s c.

Definition stateESign (s : scanner) (c : byte) : Op * scanner :=
  if isDigit c then (scanContinue, withState Exp0 s)
  else syntaxError s c "in exponent of numeric literal".

Definition stateE (s : scanner) (c : byte) : Op * scanner :=
  if (Byte.eqb c "+" || Byte.eqb c "-")%bool then (scanContinue, withState ExpSign s)
  else stateESign s c.

Definition stateE0 (s : scanner) (c : byte) : Op * scanner :=
  if isDigit c then (scanContinue, s)
  else stateEndValue s c.

(** [stateT], [stateTr], ..., [stateNul]. *)
Definition stateLiteral (name : string) (rest : list byte) (s : scanner) (c : byte)
  : Op * scanner :=
  match rest with
  | [] => stateEndValue s c
  | e :: rest' =>
    if Byte.eqb c e then
      (scanContinue,
       withState (match rest' with [] => EndValue | _ => InLiteral name rest' end) s)
    else
      syntaxError s c
        ("in literal " +:+ name +:+ " (expecting '" +:+ charString (Byte.to_N e) +:+ "')")
  end.

(** [s.step(s, c)]. *)
Definition scanStep (s : scanner) (c : byte) : Op * scanner :=
  match scanState s with
  | BeginValue => stateBeginValue s c
  | BeginValueOrEmpty => stateBeginValueOrEmpty s c
  | BeginStringOrEmpty => stateBeginStringOrEmpty s c
  | BeginString => stateBeginString s c
  | EndValue => stateEndValue s c
  | EndTop => stateEndTop s c
  | InString => stateInString s c
  | InStringEsc => stateInStringEsc s c
  | InStringEscU seen => stateInStringEscU seen s c
  | Neg => stateNeg s c
  | Digit1 => state1 s c
  | Digit0 => state0 s c
  | Dot => stateDot s c
  | Dot0 => stateDot0 s c
  | Exp => stateE s c
  | ExpSign => stateESign s c
  | Exp0 => stateE0 s c
  | InLiteral name rest => stateLiteral name rest s c
  | Failed _ => (scanError, s)
  end.

(** A byte of the input with the code the scanner gave for it and the
    number of objects and arrays open before it. *)
Definition Token : Type := byte * Op * nat.

(** The loop of [checkValid].  An error recorded by the scanner ends it:
    either the step returned [scanError], or the next step would, or
    there is no next step and [eof] returns it. *)
Fixpoint scanBytes (s : scanner) (data : list byte) : result (list Token * scanner) :=
  match data with
  | [] => Ok ([], s)
  | c :: rest =>
    let '(op, s') := scanStep s c in
    match scanState s' with
    | Failed e => Err e
    | _ =>
      match scanBytes s' rest with
      | Ok (toks, final) => Ok ((c, op, length (parseStack s)) :: toks, final)
      | Err e => Err e
      end
    end
  end.

(** [s.eof()]: the error of an input that ends too early, if it does. *)
Definition eof (s : scanner) : option error :=
  match scanState s with
  | Failed e => Some e
  | _ =>
    if endTop s then None
    else
      let s' := (scanStep s " ").2 in
      if endTop s' then None
      else
        match scanState s' with
        | Failed e => Some e
        | _ => Some (ErrExternal "unexpected end of JSON input")
        end
  end.

Definition checkValid (data : bytes) : result (list Token) :=
  match scanBytes {| scanState := BeginValue; endTop := false; parseStack := [] |} data with
  | Err e => Err e
  | Ok (toks, s) =>
    match eof s with
    | Some e => Err e
    | None => Ok toks
    end
  end.

(** The message of an [UnmarshalTypeError], for a value of the field and
    for the top-level value. *)
Definition typeError (inField : bool) (value : string) : error :=
  ErrExternal
    ("json: cannot unmarshal " +:+ value +:+
     (if inField then " into Go struct field schemaMetadata.version of type uint64"
      else " into Go value of type postgresql.schemaMetadata")).

Definition hexValue (c : byte) : N :=
  let n := Byte.to_N c in
  if isDigit c then n - 48 else if 97 <=? n then n - 87 else n - 55.

(** The next character of the text of a key, its escapes undone.  Of the
    characters outside ASCII only the long s (U+017F, in UTF-8 the bytes
    C5 BF) is told apart: the others are all given as U+FFFD, none of
    them being equal to a letter of the field name under case folding. *)
Definition nextRune (key : list byte) : option (N * list byte) :=
  match key with
  | [] => None
  | c :: rest =>
    if Byte.eqb c x5c then
      match rest with
      | [] => None
      | e :: rest' =>
        if Byte.eqb e "u" then
          match rest' with
          | h1 :: h2 :: h3 :: h4 :: rest'' =>
            Some (((hexValue h1 * 16 + hexValue h2) * 16 + hexValue h3) * 16 + hexValue h4,
                  rest'')
          | _ => None
          end
        else
          Some (if Byte.eqb e "b" then 8 else if Byte.eqb e "f" then 12
                else if Byte.eqb e "n" then 10 else if Byte.eqb e "r" then 13
                else if Byte.eqb e "t" then 9 else Byte.to_N e, rest')
      end
    else if Byte.eqb c xc5 then
      match rest with
      | b :: rest' => if Byte.eqb b xbf then Some (383, rest') else Some (65533, rest)
      | [] => Some (65533, [])
      end
    else Some (if Byte.to_N c <? 128 then Byte.to_N c else 65533, rest)
  end.

(** The characters equal to a letter of the field name under case
    folding: the letter in lower and upper case, and the long s for s. *)
Definition foldSet (c : byte) : list N :=
  let n := Byte.to_N c in
  if Byte.eqb c "s" then [n; n - 32; 383] else [n; n - 32].

Fixpoint matchFold (pattern : list (list N)) (key : list byte) : bool :=
  match pattern with
  | [] => match key with [] => true | _ => false end
  | set :: pattern' =>
    match nextRune key with
    | Some (r, rest) => (existsb (N.eqb r) set && matchFold pattern' rest)%bool
    | None => false
    end
  end.

(** Whether the key of an object member, given without its quotes,
    selects the field [Version]: its tag "version" matches exactly or
    under case folding. *)
Definition isVersionKey (key : list byte) : bool :=
  matchFold (map foldSet (list_byte_of_string "version")) key.

(** [strconv.ParseUint(s, 10, 64)]: digits only, below 2^64. *)
Definition parseUint (item : list byte) : option uint64 :=
  match item with
  | [] => None
  | _ =>
    if forallb isDigit item then
      let n := fold_left (fun acc c => 10 * acc + (Byte.to_N c - 48)) item 0 in
      if n <? uint64_modulus then Some n else None
    else None
  end.

Inductive Role : Type :=
| ExpectKey
| ExpectValue.

(** The decoder inside the top-level object: the literal being read (its
    bytes, last first), the key of the member being read, the field as
    decoded so far and the first error saved. *)
Record decodeState : Type := {
  ds_role : Role;
  ds_literal : option (list byte);
  ds_key : list byte;
  ds_version : uint64;
  savedError : option error
}.

(** [d.saveError]: the first error is the one kept, and decoding goes on. *)
Definition saveError (e : error) (d : decodeState) : decodeState :=
  {| ds_role := ds_role d; ds_literal := ds_literal d; ds_key := ds_key d;
     ds_version := ds_version d;
     savedError := match savedError d with Some e0 => Some e0 | None => Some e end |}.

Definition setLiteral (l : option (list byte)) (d : decodeState) : decodeState :=
  {| ds_role := ds_role d; ds_literal := l; ds_key := ds_key d;
     ds_version := ds_version d; savedError := savedError d |}.

Definition setRole (r : Role) (d : decodeState) : decodeState :=
  {| ds_role := r; ds_literal := ds_literal d; ds_key := ds_key d;
     ds_version := ds_version d; savedError := savedError d |}.

(** [d.literalStore] at a [uint64] field: [null] changes nothing, a
    number is stored when [ParseUint] accepts it, anything else is a type
    error.  The value of a key that selects no field is skipped. *)
Definition literalStore (item : list byte) (d : decodeState) : decodeState :=
  if isVersionKey (ds_key d) then
    match item with
    | [] => d
    | c :: _ =>
      if Byte.eqb c "n" then d
      else if (Byte.eqb c "t" || Byte.eqb c "f")%bool then saveError (typeError true "bool") d
      else if Byte.eqb c x22 then saveError (typeError true "string") d
      else
        match parseUint item with
        | Some n =>
          {| ds_role := ds_role d; ds_literal := ds_literal d; ds_key := ds_key d;
             ds_version := n; savedError := savedError d |}
        | None =>
          saveError (typeError true ("number " +:+ string_of_list_byte item)) d
        end
    end
  else d.

(** An object or an array as the value of a member. *)
Definition storeContainer (value : string) (d : decodeState) : decodeState :=
  if isVersionKey (ds_key d) then saveError (typeError true value) d else d.

(** The literal being read has ended: it was a key or a value. *)
Definition finishLiteral (d : decodeState) : decodeState :=
  match ds_literal d with
  | None => d
  | Some l =>
    let item := rev l in
    match ds_role d with
    | ExpectKey =>
      {| ds_role := ds_role d; ds_literal := None; ds_key := removelast (tl item);
         ds_version := ds_version d; savedError := savedError d |}
    | ExpectValue => literalStore item (setLiteral None d)
    end
  end.

(** [d.object] at the struct, one byte at a time: only the bytes directly
    inside the top-level object count, what is nested deeper being part
    of a value that is a type error or is skipped. *)
Definition decodeToken (d : decodeState) (tok : Token) : decodeState :=
  let '(c, op, depth) := tok in
  if Nat.eqb depth 1 then
    match op with
    | scanContinue =>
      match ds_literal d with
      | Some l => setLiteral (Some (c :: l)) d
      | None => d
      end
    | scanBeginLiteral => setLiteral (Some [c]) (finishLiteral d)
    | scanObjectKey => setRole ExpectValue (finishLiteral d)
    | scanObjectValue => setRole ExpectKey (finishLiteral d)
    | scanBeginObject => storeContainer "object" (finishLiteral d)
    | scanBeginArray => storeContainer "array" (finishLiteral d)
    | _ => finishLiteral d
    end
  else d.

Definition decodeObject (toks : list Token) : result schemaMetadata :=
  let d := fold_left decodeToken toks
             {| ds_role := ExpectKey; ds_literal := None; ds_key := [];
                ds_version := 0; savedError := None |} in
  match savedError d with
  | Some e => Err e
  | None => Ok {| Version := ds_version d |}
  end.

(** [d.scanWhile(scanSkipSpace)]. *)
Fixpoint skipSpace (toks : list Token) : list Token :=
  match toks with
  | (_, scanSkipSpace, _) :: rest => skipSpace rest
  | _ => toks
  end.

(** [json.Unmarshal(data, &metadata)], [metadata] being the zero value:
    the syntax of the whole input is checked first; then an object is
    decoded into the struct, [null] leaves it as it is, and any other
    value is a type error. *)
Definition textUnmarshal (data : bytes) : result schemaMetadata :=
  match checkValid data with
  | Err e => Err e
  | Ok toks =>
    match skipSpace toks with
    | (_, scanBeginObject, _) :: _ => decodeObject toks
    | (_, scanBeginArray, _) :: _ => Err (typeError false "array")
    | (c, _, _) :: _ =>
      if Byte.eqb c x22 then Err (typeError false "string")
      else if (Byte.eqb c "t" || Byte.eqb c "f")%bool then Err (typeError false "bool")
      else if Byte.eqb c "n" then Ok {| Version := 0 |}
      else Err (typeError false "number")
    | [] => Err (ErrExternal "unexpected end of JSON input")
    end
  end.

(** A text between double quotes. *)
Definition quoted (s : string) : string := dquote +:+ s +:+ dquote.

Definition textCodec : Codec := {|
  jsonMarshal := textMarshal;
  jsonUnmarshal := textUnmarshal;
  HashTreeRoot := fun h => Ok (ParentRoot h ++ StateRoot h ++ BodyRoot h)
|}.

(** An engine whose tables are the list of the statements executed so
    far.  The catalog query of [columnExists] for the aggregation
    indices answers one row holding [true] once the statement adding that
    column is in the list, and no row otherwise. *)
Definition addAggregationIndices : string :=
  "
ALTER TABLE t_attestations
ADD COLUMN f_aggregation_indices BIGINT[]
".

Definition scriptEngine : Engine (list string) := {|
  execSem := fun sql d => Ok (d ++ [sql]);
  querySem := fun sql d =>
    if (String.eqb sql (columnExistsQuery "t_attestations" "f_aggregation_indices")
        && existsb (String.eqb addAggregationIndices) d)%bool
    then Ok [true] else Ok [];
  slashingsSem := fun _ _ _ => Ok [];
  setSlashingSem := fun _ d => Ok d
|}.

Definition script : Backend (DB (list string)) := reference (list string) scriptEngine.

(** A database holding [data] under the schema key and having executed
    the statements [done]; calls fail as [faults] says. *)
Definition database (data : bytes) (done : list string) (faults : nat -> option error)
  : DB (list string) :=
  {| committed := {| meta := {[ "schema" := data ]}; tables := done |};
     working := ∅; nextTx := 1; cursors := ∅; nextRows := 1;
     faults := faults; clock := 0 |}.

Definition noFaults : nat -> option error := fun _ => None.

(** The call number [n] fails, the others do not. *)
Definition faultAt (n : nat) (err : error) : nat -> option error :=
  fun k => if Nat.eqb k n then Some err else None.

(** The version document of version [v]. *)
Definition document (v : uint64) : bytes :=
  match textMarshal {| Version := v |} with Ok data => data | Err _ => [] end.

(** An upgrade function made of one statement. *)
Definition statement {W} (s : Backend W) (sql : string) (ctx : Ctx) : M W (option error) :=
  match tx ctx with
  | None => ret (Some ErrNoTransaction)
  | Some tx => execOrWrap s tx ctx sql "failed to execute statement" (ret None)
  end.

(** A registry with upgrades for the versions 1 and 2. *)
Definition twoVersions : gmap N (upgrade (W:=DB (list string))) :=
  {[ 1 := {| requiresRefetch := false;
             funcs := [statement script "CREATE TABLE t_one (f_a BIGINT)"] |};
     2 := {| requiresRefetch := true;
             funcs := [statement script "CREATE TABLE t_two (f_b BIGINT)"] |} ]}.

(** A registry with upgrades for the versions 1, 2 and 3, of flags
    [false], [true] and [false]. *)
Definition threeVersions : gmap N (upgrade (W:=DB (list string))) :=
  {[ 1 := {| requiresRefetch := false;
             funcs := [statement script "CREATE TABLE t_one (f_a BIGINT)"] |};
     2 := {| requiresRefetch := true;
             funcs := [statement script "CREATE TABLE t_two (f_b BIGINT)"] |};
     3 := {| requiresRefetch := false;
             funcs := [statement script "CREATE TABLE t_three (f_c BIGINT)"] |} ]}.

(** The registry of the package over the script backend. *)
Definition shipped : gmap N (upgrade (W:=DB (list string))) := upgrades script textCodec.

(** A database that was never upgraded (nothing under the schema key)
    and whose attestations table got its aggregation indices by hand. *)
Definition neverUpgraded (faults : nat -> option error) : DB (list string) :=
  database [] [addAggregationIndices] faults.

(** The runs looked at below. *)
Definition Run : Type := option (bool * option error) * DB (list string) * Trace.

Definition firstRun : Run :=
  Upgrade script textCodec currentVersion shipped 2 background (neverUpgraded noFaults).

Definition rerunOfVersion1 : Run :=
  Upgrade script textCodec 2 twoVersions 3 background (database (document 1) [] noFaults).

Definition threeUpgradesRun : Run :=
  Upgrade script textCodec 3 threeVersions 4 background (database [] [] noFaults).

Definition diskFull : error := ErrExternal "disk full".
Definition connectionReset : error := ErrExternal "connection reset".

(** Call 12 of the run is the statement of [createChainSpec]; call 28 is
    the commit; call 0 is the read of the version. *)
Definition chainSpecFails : Run :=
  Upgrade script textCodec currentVersion shipped 2 background
    (database [] [] (faultAt 12 diskFull)).

Definition commitFails : Run :=
  Upgrade script textCodec currentVersion shipped 2 background
    (neverUpgraded (faultAt 28 connectionReset)).

Definition readFails : Run :=
  Upgrade script textCodec currentVersion shipped 2 background
    (neverUpgraded (faultAt 0 connectionReset)).

(** A version document cut short after its first byte. *)
Definition malformed : bytes := list_byte_of_string "{".

Definition documentMalformed : Run :=
  Upgrade script textCodec currentVersion shipped 2 background
    (database malformed [] noFaults).

Definition fromVersion2 : Run :=
  Upgrade script textCodec currentVersion shipped 2 background
    (database (document 2) [] noFaults).

(** The database [neverUpgraded] with transaction 1 begun on it. *)
Definition inTransaction : DB (list string) :=
  (be_BeginTx script background (neverUpgraded noFaults)).2.

(** ** The statements of the upgrade functions *)

(** The statements of the upgrade functions that only execute
    statements, in the order of the source, each with the message its
    error is wrapped with. *)
Definition validatorsEpochNullStatements : list (string * string) :=
  [
    ("ALTER TABLE t_validators ALTER COLUMN f_activation_eligibility_epoch DROP NOT NULL",
     "failed to drop NOT NULL constraint on f_activation_eligibility_epoch");
    ("ALTER TABLE t_validators ALTER COLUMN f_activation_epoch DROP NOT NULL",
     "failed to drop NOT NULL constraint on f_activation_epoch");
    ("ALTER TABLE t_validators ALTER COLUMN f_exit_epoch DROP NOT NULL",
     "failed to drop NOT NULL constraint on f_exit_epoch");
    ("ALTER TABLE t_validators ALTER COLUMN f_withdrawable_epoch DROP NOT NULL",
     "failed to drop NOT NULL constraint on f_withdrawable_epoch");
    ("UPDATE t_validators SET f_activation_eligibility_epoch = NULL WHERE f_activation_eligibility_epoch = -1",
     "failed to change -1 to NULL on f_activation_eligibility_epoch");
    ("UPDATE t_validators SET f_activation_epoch = NULL WHERE f_activation_epoch = -1",
     "failed to change -1 to NULL on f_activation_epoch");
    ("UPDATE t_validators SET f_exit_epoch = NULL WHERE f_exit_epoch = -1",
     "failed to change -1 to NULL on f_exit_epoch");
    ("UPDATE t_validators SET f_withdrawable_epoch = NULL WHERE f_withdrawable_epoch = -1",
     "failed to change -1 to NULL on f_withdrawable_epoch")
  ].

Definition createDepositsStatements : list (string * string) :=
  [
    ("CREATE TABLE t_deposits (
  f_inclusion_slot         BIGINT NOT NULL
 ,f_inclusion_block_root   BYTEA NOT NULL REFERENCES t_blocks(f_root) ON DELETE CASCADE
 ,f_inclusion_index        BIGINT NOT NULL
 ,f_validator_pubkey       BYTEA NOT NULL
 ,f_withdrawal_credentials BYTEA NOT NULL
 ,f_amount                 BIGINT NOT NULL
)",
     "failed to create deposits table");
    ("CREATE UNIQUE INDEX i_deposits_1 ON t_deposits(f_inclusion_slot,f_inclusion_block_root,f_inclusion_index)",
     "failed to create deposits index")
  ].

Definition createChainSpecStatements : list (string * string) :=
  [
    ("CREATE TABLE t_chain_spec (
  f_key TEXT NOT NULL PRIMARY KEY
 ,f_value TEXT NOT NULL
)",
     "failed to create chain spec table")
  ].

Definition createGenesisStatements : list (string * string) :=
  [
    ("CREATE TABLE t_genesis (
  f_validators_root BYTEA NOT NULL PRIMARY KEY
 ,f_time TIMESTAMPTZ NOT NULL
 ,f_fork_version BYTEA NOT NULL
)",
     "failed to create genesis table")
  ].

Definition createETH1DepositsStatements : list (string * string) :=
  [
    ("
CREATE TABLE IF NOT EXISTS t_eth1_deposits (
  f_eth1_block_number      BIGINT NOT NULL
 ,f_eth1_block_hash        BYTEA NOT NULL
 ,f_eth1_block_timestamp   TIMESTAMPTZ NOT NULL
 ,f_eth1_tx_hash           BYTEA NOT NULL
 ,f_eth1_log_index         BIGINT NOT NULL
 ,f_eth1_sender            BYTEA NOT NULL
 ,f_eth1_recipient         BYTEA NOT NULL
 ,f_eth1_gas_used          BIGINT NOT NULL
 ,f_eth1_gas_price         BIGINT NOT NULL
 ,f_deposit_index          BIGINT UNIQUE NOT NULL
 ,f_validator_pubkey       BYTEA NOT NULL
 ,f_withdrawal_credentials BYTEA NOT NULL
 ,f_signature              BYTEA NOT NULL
 ,f_amount                 BIGINT NOT NULL
)",
     "failed to create Ethereum 1 deposits table");
    ("CREATE UNIQUE INDEX IF NOT EXISTS i_eth1_deposits_1 ON t_eth1_deposits(f_eth1_block_hash, f_eth1_tx_hash, f_eth1_log_index)",
     "failed to create Ethereum 1 deposits index 1");
    ("CREATE INDEX IF NOT EXISTS i_eth1_deposits_2 ON t_eth1_deposits(f_validator_pubkey)",
     "failed to create Ethereum 1 deposits index 2");
    ("CREATE INDEX IF NOT EXISTS i_eth1_deposits_3 ON t_eth1_deposits(f_withdrawal_credentials)",
     "failed to create Ethereum 1 deposits index 3");
    ("CREATE INDEX IF NOT EXISTS i_eth1_deposits_4 ON t_eth1_deposits(f_eth1_sender)",
     "failed to create Ethereum 1 deposits index 4");
    ("CREATE INDEX IF NOT EXISTS i_eth1_deposits_5 ON t_eth1_deposits(f_eth1_recipient)",
     "failed to create Ethereum 1 deposits index 5")
  ].

(** The four statements of [addProposerSlashingBlockRoots]: the two that
    add the columns, run before the slashings are read, and the two that
    set them NOT NULL, run after the slashings are written. *)
Definition addBlockRootsStatements : list (string * string) :=
  [
    ("
ALTER TABLE t_proposer_slashings
ADD COLUMN f_block_1_root BYTEA
",
     "failed to add f_block_1_root to proposer slashings table");
    ("
ALTER TABLE t_proposer_slashings
ADD COLUMN f_block_2_root BYTEA
",
     "failed to add f_block_2_root to proposer slashings table")
  ].

Definition setBlockRootsNotNullStatements : list (string * string) :=
  [
    ("
ALTER TABLE t_proposer_slashings
ALTER COLUMN f_block_1_root SET NOT NULL
",
     "failed to add NOT NULL constraint for f_block_1_root to proposer slashings table");
    ("
ALTER TABLE t_proposer_slashings
ALTER COLUMN f_block_2_root SET NOT NULL
",
     "failed to add NOT NULL constraint for f_block_2_root to proposer slashings table")
  ].

(** The event of a statement that succeeded. *)
Definition okExec (t : Tx) (ctx : Ctx) (st : string * string) : Event :=
  EvExec t ctx st.1 None.

(** Running statements one after the other up to the first that fails,
    whose error is wrapped with its message. *)
Fixpoint execEach {W} (s : Backend W) (t : Tx) (ctx : Ctx) (stmts : list (string * string))
  : M W (option error) :=
  match stmts with
  | [] => ret None
  | (sql, msg) :: rest => execOrWrap s t ctx sql msg (execEach s t ctx rest)
  end.

(** What a run of [stmts] in transaction [t] looks like: all of them
    succeeded and the answer is [nil], or the statement of some index [n]
    failed after those before it succeeded, nothing ran after it and the
    answer is its error wrapped with its message. *)
Definition StatementsRun {W} (t : Tx) (ctx : Ctx) (stmts : list (string * string))
    (run : option error * W * Trace) : Prop :=
  (answer run = None /\ trace run = map (okExec t ctx) stmts) \/
  (exists n sql msg err,
      stmts !! n = Some (sql, msg) /\
      answer run = Some (Wrap err msg) /\
      trace run = map (okExec t ctx) (take n stmts) ++ [EvExec t ctx sql (Some err)]).

(** The block headers [addProposerSlashingBlockRoots] builds from a
    proposer slashing. *)
Definition header1Of (p : ProposerSlashing) : BeaconBlockHeader :=
  {| Slot := Header1Slot p;
     ProposerIndex := Header1ProposerIndex p;
     ParentRoot := Header1ParentRoot p;
     StateRoot := Header1StateRoot p;
     BodyRoot := Header1BodyRoot p |}.

Definition header2Of (p : ProposerSlashing) : BeaconBlockHeader :=
  {| Slot := Header2Slot p;
     ProposerIndex := Header2ProposerIndex p;
     ParentRoot := Header2ParentRoot p;
     StateRoot := Header2StateRoot p;
     BodyRoot := Header2BodyRoot p |}.

(** [p'] is [p] with its two block roots set to the hash tree roots of
    its two headers. *)
Definition Backfilled (codec : Codec) (p p' : ProposerSlashing) : Prop :=
  exists root1 root2,
    HashTreeRoot codec (header1Of p) = Ok root1 /\
    HashTreeRoot codec (header2Of p) = Ok root2 /\
    p' = setBlock2Root (setBlock1Root p root1) root2.

(** The proposer slashings a run wrote, each with the answer it got. *)
Definition written (tr : Trace) : list (ProposerSlashing * option error) :=
  omap (fun ev => match ev with
                  | EvSetProposerSlashing _ p r => Some (p, r)
                  | _ => None
                  end) tr.

(** Go's largest [uint64]. *)
Definition uint64_max : uint64 := uint64_modulus - 1.

(** The versions a run of [Upgrade] goes through when it read the version
    [v]: none when [v] is the current version, otherwise [v] and those
    above it up to the current one. *)
Definition versionsFrom (v currentVersion : uint64) : list uint64 :=
  if v =? currentVersion then [] else versionRange v currentVersion.

(** The seven upgrade functions of version 1, as (version, index). *)
Definition callsOfVersion1 : list (uint64 * nat) :=
  map (fun j => (1, j)) (seq 0 7).

(** ** More concrete instances *)

(** Two proposer slashings as they are before the backfill, their block
    roots empty. *)
Definition slashingA : ProposerSlashing :=
  {| Block1Root := [];
     Header1Slot := 5; Header1ProposerIndex := 11;
     Header1ParentRoot := [x01]; Header1StateRoot := [x02]; Header1BodyRoot := [x03];
     Block2Root := [];
     Header2Slot := 5; Header2ProposerIndex := 11;
     Header2ParentRoot := [x01]; Header2StateRoot := [x04]; Header2BodyRoot := [x05] |}.

Definition slashingB : ProposerSlashing :=
  {| Block1Root := [];
     Header1Slot := 9; Header1ProposerIndex := 2;
     Header1ParentRoot := [x0a]; Header1StateRoot := [x0b]; Header1BodyRoot := [x0c];
     Block2Root := [];
     Header2Slot := 9; Header2ProposerIndex := 2;
     Header2ParentRoot := [x0a]; Header2StateRoot := [x0d]; Header2BodyRoot := [x0e] |}.

(** The script engine holding these two slashings; a slashing written is
    noted in the list of the statements. *)
Definition slashingEngine : Engine (list string) := {|
  execSem := execSem _ scriptEngine;
  querySem := querySem _ scriptEngine;
  slashingsSem := fun lo hi _ =>
    Ok (filter (fun p => (lo <=? Header1Slot p) && (Header1Slot p <=? hi))%bool
               [slashingA; slashingB]);
  setSlashingSem := fun _ d => Ok (d ++ ["proposer slashing written"])
|}.

Definition ledger : Backend (DB (list string)) := reference (list string) slashingEngine.

(** A database of [ledger] with transaction 1 begun on it. *)
Definition ledgerInTransaction (faults : nat -> option error) : DB (list string) :=
  (be_BeginTx ledger background (database [] [] faults)).2.

(** Call 1 of a run is the begin of the transaction; call 27 of the run
    on [neverUpgraded] is the write of the version. *)
Definition beginFails : Run :=
  Upgrade script textCodec currentVersion shipped 2 background
    (neverUpgraded (faultAt 1 connectionReset)).

Definition versionWriteFails : Run :=
  Upgrade script textCodec currentVersion shipped 2 background
    (neverUpgraded (faultAt 27 diskFull)).

(** The current version being the largest [uint64]: a database at that
    version, and one never upgraded run with three units of fuel. *)
Definition atLargestVersion : Run :=
  Upgrade script textCodec uint64_max shipped 3 background
    (database (document uint64_max) [] noFaults).

Definition towardsLargestVersion : Run :=
  Upgrade script textCodec uint64_max shipped 3 background (neverUpgraded noFaults).

(** ** Properties *)

(** *** Traces of the two loops *)

Section Loops.
Context {W : Type} (s : Backend W) (codec : Codec).
Variable currentVersion : uint64.
Variable upgrades : gmap N (upgrade (W:=W)).

Lemma forallb_app_true {A} (p : A -> bool) (l1 l2 : list A) :
  forallb p l1 = true -> forallb p l2 = true -> forallb p (l1 ++ l2) = true.
Proof. intros H1 H2. rewrite forallb_app, H1, H2. reflexivity. Qed.

Lemma visited_app (t1 t2 : Trace) : visited (t1 ++ t2) = visited t1 ++ visited t2.
Proof. unfold visited. apply omap_app. Qed.

(** The inner loop either runs through, leaving log lines and calls
    that returned [nil], or stops at the first call that returned an
    error, cancels and makes [Upgrade] return that error wrapped. *)
Lemma runFuncs_end cancelTx ctx v total rest :
  forall i w r w' tr,
    runFuncs s cancelTx ctx v total i rest w = (r, w', tr) ->
    match r with
    | None => forallb quiet tr = true /\ visited tr = []
    | Some ret =>
      exists pre j body e,
        ret = (false, Some (Wrap e "failed to upgrade")) /\
        tr = pre ++ [EvCall v j body (Some e); EvCancel cancelTx] /\
        forallb quiet pre = true /\ visited pre = []
    end.
Proof.
  induction rest as [|f rest IH]; intros i w r w' tr H.
  - inversion H; subst. split; reflexivity.
  - cbn [runFuncs] in H. unfold bind, logInfo, call in H.
    destruct (f ctx w) as [[e w1] body] eqn:Ef.
    destruct e as [err|].
    + cbn in H. inversion H; subst. cbn.
      exists [EvLog "Running upgrade function"
                [Int "current" (Z.of_nat i + 1); Int "total" (Z.of_nat total)]],
             i, body, err.
      repeat split; reflexivity.
    + destruct (runFuncs s cancelTx ctx v total (S i) rest w1) as [[r1 w2] t2] eqn:Er.
      inversion H; subst. specialize (IH _ _ _ _ _ Er).
      destruct r as [ret|].
      * destruct IH as (pre & j & body' & e & -> & -> & Hq & Hv).
        exists (EvLog "Running upgrade function"
                  [Int "current" (Z.of_nat i + 1); Int "total" (Z.of_nat total)]
                :: EvCall v i body None :: pre), j, body', e.
        repeat split; try reflexivity; cbn; assumption.
      * destruct IH as [Hq Hv]. split; cbn; assumption.
Qed.

Lemma called_app (t1 t2 : Trace) : called (t1 ++ t2) = called t1 ++ called t2.
Proof. unfold called. apply omap_app. Qed.

(** When the inner loop runs through, it called every function left, in
    order. *)
Lemma runFuncs_called cancelTx ctx v total rest :
  forall i w w' tr,
    runFuncs s cancelTx ctx v total i rest w = (None, w', tr) ->
    called tr = map (fun j => (v, j)) (seq i (length rest)).
Proof.
  induction rest as [|f rest IH]; intros i w w' tr H.
  - inversion H; subst. reflexivity.
  - cbn [runFuncs] in H. unfold bind, logInfo, call in H.
    destruct (f ctx w) as [[e w1] body] eqn:Ef.
    destruct e as [err|]; [cbn in H; inversion H|].
    destruct (runFuncs s cancelTx ctx v total (S i) rest w1) as [[r1 w2] t2] eqn:Er.
    inversion H; subst. cbn. f_equal. exact (IH _ _ _ _ Er).
Qed.

Lemma visited_version_line (i : uint64) (tr : Trace) :
  visited (EvLog "Upgrading database" [Uint64 "version" i] :: tr) = i :: visited tr.
Proof. reflexivity. Qed.

(** The loop over the versions: when its guard ends it, the flag is the
    incoming one or-ed with the flags registered for the versions it
    went through; when a call ends it, the trace ends with that call
    and the cancel. *)
Lemma upgradeVersions_end cancelTx ctx fuel :
  forall i rr w l w' tr,
    upgradeVersions s currentVersion upgrades fuel cancelTx ctx i rr w = (l, w', tr) ->
    match l with
    | Completed b =>
      forallb quiet tr = true /\
      b = (rr || existsb (refetchAt upgrades) (visited tr))%bool
    | Returned ret =>
      exists pre i' j body e,
        ret = (false, Some (Wrap e "failed to upgrade")) /\
        tr = pre ++ [EvCall i' j body (Some e); EvCancel cancelTx] /\
        forallb quiet pre = true
    | OutOfFuel => forallb quiet tr = true
    end.
Proof.
  induction fuel as [|fuel IH]; intros i rr w l w' tr H.
  - cbn [upgradeVersions] in H. destruct (i <=? currentVersion).
    + inversion H; subst. reflexivity.
    + inversion H; subst. split; [reflexivity|]. cbn. now rewrite orb_false_r.
  - cbn [upgradeVersions] in H. destruct (i <=? currentVersion).
    2:{ inversion H; subst. split; [reflexivity|]. cbn. now rewrite orb_false_r. }
    unfold bind at 1 in H. unfold logInfo at 1 in H.
    destruct (upgrades !! i) as [u|] eqn:Eu.
    + unfold bind in H.
      destruct (runFuncs s cancelTx ctx i (length (funcs u)) 0 (funcs u) w)
        as [[r w1] t1] eqn:Er.
      pose proof (runFuncs_end _ _ _ _ _ _ _ _ _ _ Er) as Hr.
      destruct r as [ret|].
      * inversion H; subst.
        destruct Hr as (pre & j & body & e & -> & -> & Hq & _).
        exists (EvLog "Upgrading database" [Uint64 "version" i] :: pre), i, j, body, e.
        rewrite app_nil_r. repeat split; try reflexivity. cbn. exact Hq.
      * destruct Hr as [Hq Hv].
        destruct (upgradeVersions s currentVersion upgrades fuel cancelTx ctx
                    (uint64_incr i) (rr || requiresRefetch u) w1)
          as [[l2 w2] t2] eqn:El.
        inversion H; subst. specialize (IH _ _ _ _ _ _ El).
        destruct l.
        -- destruct IH as (pre & i' & j & body & e & -> & -> & Hq2).
           exists (EvLog "Upgrading database" [Uint64 "version" i] :: t1 ++ pre),
                  i', j, body, e.
           repeat split.
           ++ cbn. now rewrite <- app_assoc.
           ++ cbn. now apply forallb_app_true.
        -- destruct IH as [Hq2 ->]. split.
           ++ cbn. now apply forallb_app_true.
           ++ cbn [app]. rewrite visited_version_line, visited_app, Hv.
              cbn [app existsb]. unfold refetchAt at 2. rewrite Eu.
              now rewrite orb_assoc.
        -- cbn. now apply forallb_app_true.
    + destruct (upgradeVersions s currentVersion upgrades fuel cancelTx ctx
                  (uint64_incr i) rr w) as [[l2 w2] t2] eqn:El.
      cbv beta iota zeta in H. inversion H; subst.
      specialize (IH _ _ _ _ _ _ El).
      destruct l.
      * destruct IH as (pre & i' & j & body & e & -> & -> & Hq2).
        exists (EvLog "Upgrading database" [Uint64 "version" i] :: pre), i', j, body, e.
        repeat split; try reflexivity. cbn. exact Hq2.
      * destruct IH as [Hq2 ->]. split; [exact Hq2|].
        rewrite visited_version_line. cbn [existsb]. unfold refetchAt at 2.
        rewrite Eu. reflexivity.
      * exact IH.
Qed.

(** [version] makes one call, the metadata read. *)
Lemma version_trace ctx w :
  trace (version s codec ctx w) =
  [EvMetadata ctx "schema" (be_Metadata s ctx "schema" w).1] /\
  world (version s codec ctx w) = (be_Metadata s ctx "schema" w).2.
Proof.
  unfold version, bind, Metadata, trace, world.
  destruct (be_Metadata s ctx "schema" w) as [[data|err] w1]; cbn.
  - destruct (Nat.eqb (length data) 0); cbn; [auto|].
    destruct (jsonUnmarshal codec data); cbn; auto.
  - auto.
Qed.

(** When its guard ends it, the loop over the versions made the calls of
    the upgrades registered for the versions it went through. *)
Lemma upgradeVersions_called cancelTx ctx fuel :
  forall i rr w b w' tr,
    upgradeVersions s currentVersion upgrades fuel cancelTx ctx i rr w
    = (Completed b, w', tr) ->
    called tr = callsOf upgrades (visited tr).
Proof.
  induction fuel as [|fuel IH]; intros i rr w b w' tr E; cbn [upgradeVersions] in E.
  - destruct (i <=? currentVersion); inversion E. reflexivity.
  - destruct (i <=? currentVersion); [|inversion E; reflexivity].
    unfold bind at 1 in E. unfold logInfo at 1 in E.
    destruct (upgrades !! i) as [u|] eqn:Eu.
    + unfold bind in E.
      destruct (runFuncs s cancelTx ctx i (length (funcs u)) 0 (funcs u) w)
        as [[r w1] t1] eqn:Er.
      destruct r as [ret|]; [inversion E|].
      pose proof (runFuncs_end _ _ _ _ _ _ _ _ _ _ Er) as [_ Hv1].
      pose proof (runFuncs_called _ _ _ _ _ _ _ _ _ Er) as Hc1.
      destruct (upgradeVersions s currentVersion upgrades fuel cancelTx ctx
                  (uint64_incr i) (rr || requiresRefetch u) w1) as [[l w2] t2] eqn:E2.
      inversion E; subst.
      change (EvLog "Upgrading database" [Uint64 "version" i] :: t1 ++ t2)
        with ([EvLog "Upgrading database" [Uint64 "version" i]] ++ t1 ++ t2).
      rewrite !called_app, !visited_app, Hv1, Hc1, (IH _ _ _ _ _ _ E2).
      cbn. rewrite Eu. reflexivity.
    + destruct (upgradeVersions s currentVersion upgrades fuel cancelTx ctx
                  (uint64_incr i) rr w) as [[l w2] t2] eqn:E2.
      cbv beta iota zeta in E. inversion E; subst.
      change ([EvLog "Upgrading database" [Uint64 "version" i]] ++ t2)
        with (EvLog "Upgrading database" [Uint64 "version" i] :: t2).
      rewrite visited_version_line. cbn. rewrite Eu. cbn.
      exact (IH _ _ _ _ _ _ E2).
Qed.

(** Every run of [Upgrade] has one of the shapes. *)
Lemma Upgrade_shape fuel ctx w r w' tr :
  Upgrade s codec currentVersion upgrades fuel ctx w = (r, w', tr) ->
  Shape upgrades ctx r tr.
Proof.
  intros H. unfold Upgrade in H. unfold bind at 1 in H.
  destruct (version s codec ctx w) as [[[v ev] w0] tv] eqn:Ev.
  pose proof (version_trace ctx w) as [Htv _]. rewrite Ev in Htv. cbn in Htv. subst tv.
  destruct ev as [err|].
  { inversion H; subst. constructor. }
  destruct (v =? currentVersion).
  { inversion H; subst. constructor. }
  unfold bind at 1 in H. unfold BeginTx at 1 in H.
  destruct (be_BeginTx s ctx w0) as [[t|err] w1].
  2:{ inversion H; subst. constructor. }
  unfold bind at 1 in H.
  destruct (upgradeVersions s currentVersion upgrades fuel t (withTx ctx t) v false w1)
    as [[l w2] tl] eqn:El.
  pose proof (upgradeVersions_end _ _ _ _ _ _ _ _ _ El) as Hl.
  destruct l as [ret|b|].
  - destruct Hl as (pre & i' & j & body & e & -> & -> & Hq).
    inversion H; subst. rewrite app_nil_r.
    apply (StepFailed _ _ _ t pre i' j body e Hq).
  - destruct Hl as [Hq ->]. cbn [orb] in H.
    pose proof (upgradeVersions_called _ _ _ _ _ _ _ _ _ El) as Hcalls.
    unfold setVersion in H. change (tx (withTx ctx t)) with (Some t) in H.
    cbv iota in H.
    destruct (jsonMarshal codec {| Version := currentVersion |}) as [data|err].
    + unfold bind, SetMetadata, CommitTx, cancel, logInfo, ret in H.
      destruct (be_SetMetadata s (withTx ctx t) "schema" data w2) as [[e|] w3].
      { inversion H; subst. apply (SetVersionFailed _ _ _ t tl data _ Hq). }
      destruct (be_CommitTx s (withTx ctx t) w3) as [[e|] w4].
      { inversion H; subst. apply (CommitFailed _ _ _ t tl data _ Hq). }
      inversion H; subst. apply (Succeeded _ _ _ t tl data Hq Hcalls).
    + unfold bind, cancel, ret in H. inversion H; subst. cbn [app].
      apply (MarshalFailed _ _ _ t tl err Hq).
  - inversion H; subst. rewrite app_nil_r. apply (Starved _ _ _ t tl Hl).
Qed.
End Loops.

(** *** Failures inside the transaction *)

Section Failures.
Context {W : Type} (s : Backend W) (codec : Codec).
Variable currentVersion : uint64.
Variable upgrades : gmap N (upgrade (W:=W)).

Lemma quiet_elem (tr : Trace) (ev : Event) :
  forallb quiet tr = true -> ev ∈ tr -> quiet ev = true.
Proof.
  intros Hq Hin. apply list_elem_of_In in Hin.
  rewrite forallb_forall in Hq. auto.
Qed.

(** Where an event of a trace built with [++] and [::] sits. *)
Ltac locate H :=
  repeat first
    [ apply elem_of_app in H; destruct H as [H|H]
    | apply elem_of_cons in H; destruct H as [H|H]
    | apply elem_of_nil in H; destruct H ].

Ltac not_quiet Hq H :=
  let Q := fresh in
  pose proof (quiet_elem _ _ Hq H) as Q; cbn in Q; discriminate Q.

(** C5.  In every run of [Upgrade] in which the commit of the
    transaction fails, the failed commit is followed by the cancel of
    the transaction the run began and by nothing else, the run returns
    the commit's error wrapped, hence never [nil], and every upgrade
    function called before had returned [nil]. *)
Theorem Upgrade_commit_failure fuel ctx w r w' tr c e :
  Upgrade s codec currentVersion upgrades fuel ctx w = (r, w', tr) ->
  EvCommitTx c (Some e) ∈ tr ->
  r = Some (false, Some (Wrap e "failed to commit upgrade transaction")) /\
  (exists pre t,
      tr = pre ++ [EvCommitTx c (Some e); EvCancel t] /\
      c = withTx ctx t /\
      EvBeginTx ctx (Ok t) ∈ pre) /\
  (forall i j body res, EvCall i j body res ∈ tr -> res = None).
Proof.
  intros H Hin. apply Upgrade_shape in H.
  destruct H as [rm err|rm|rm err|rm t loop Hq|rm t loop i j body err Hq
                |rm t loop err Hq|rm t loop data err Hq|rm t loop data err Hq
                |rm t loop data Hq Hcalls];
    locate Hin; try discriminate Hin; try (not_quiet Hq Hin).
  inversion Hin; subst. split; [reflexivity|]. split.
  - exists ([EvMetadata ctx "schema" rm; EvBeginTx ctx (Ok t)] ++ loop ++
            [EvSetMetadata (withTx ctx t) "schema" data None]), t.
    split; [|split; [reflexivity|]].
    + cbn. rewrite <- app_assoc. reflexivity.
    + cbn. apply elem_of_cons. right. apply elem_of_cons. left. reflexivity.
  - intros i j body res Hc. locate Hc; try discriminate Hc.
    pose proof (quiet_elem _ _ Hq Hc) as Q. destruct res; [discriminate Q|reflexivity].
Qed.
End Failures.

(** *** What stays out of the persisted state *)

Section Persisted.
Context {W P : Type} (s : Backend W) (codec : Codec).
Context (persisted : W -> P) (stored : P -> string -> bytes).
Hypothesis scope : TransactionScope s persisted stored.

Local Abbreviation Keeps := (Keeps persisted).

Lemma Keeps_ret {A} (a : A) : Keeps (ret a).
Proof. intros w. reflexivity. Qed.

Lemma Keeps_bind {A B} (m : M W A) (k : A -> M W B) :
  Keeps m -> (forall a, Keeps (k a)) -> Keeps (bind m k).
Proof.
  intros Hm Hk w. unfold bind, world.
  destruct (m w) as [[a w1] t1] eqn:Em.
  destruct (k a w1) as [[b w2] t2] eqn:Ek. cbn.
  specialize (Hm w). specialize (Hk a w1). unfold world in Hm, Hk.
  rewrite Em in Hm. rewrite Ek in Hk. cbn in Hm, Hk. congruence.
Qed.

Lemma Keeps_call v i (m : M W (option error)) : Keeps m -> Keeps (call v i m).
Proof.
  intros Hm w. specialize (Hm w). unfold call, world in *.
  destruct (m w) as [[r w1] t1]. exact Hm.
Qed.

Lemma Keeps_logInfo msg fields : Keeps (logInfo (W:=W) msg fields).
Proof. intros w. reflexivity. Qed.

Lemma Keeps_Metadata ctx key : Keeps (Metadata s ctx key).
Proof.
  intros w. unfold Metadata, world. pose proof (ts_Metadata _ _ _ scope ctx key w) as H.
  destruct (be_Metadata s ctx key w). exact H.
Qed.

Lemma Keeps_SetMetadata ctx key data : is_Some (tx ctx) -> Keeps (SetMetadata s ctx key data).
Proof.
  intros Htx w. unfold SetMetadata, world.
  pose proof (ts_SetMetadata _ _ _ scope ctx key data w Htx) as H.
  destruct (be_SetMetadata s ctx key data w). exact H.
Qed.

Lemma Keeps_BeginTx ctx : Keeps (BeginTx s ctx).
Proof.
  intros w. unfold BeginTx, world. pose proof (ts_BeginTx _ _ _ scope ctx w) as H.
  destruct (be_BeginTx s ctx w). exact H.
Qed.

Lemma Keeps_cancel t : Keeps (cancel s t).
Proof. intros w. apply (ts_cancel _ _ _ scope). Qed.

Lemma Keeps_Exec t ctx sql : Keeps (Exec s t ctx sql).
Proof.
  intros w. unfold Exec, world. pose proof (ts_Exec _ _ _ scope t ctx sql w) as H.
  destruct (be_Exec s t ctx sql w). exact H.
Qed.

Lemma Keeps_Query t ctx sql : Keeps (Query s t ctx sql).
Proof.
  intros w. unfold Query, world. pose proof (ts_Query _ _ _ scope t ctx sql w) as H.
  destruct (be_Query s t ctx sql w). exact H.
Qed.

Lemma Keeps_RowsNext rows : Keeps (RowsNext s rows).
Proof.
  intros w. unfold RowsNext, world. pose proof (ts_RowsNext _ _ _ scope rows w) as H.
  destruct (be_RowsNext s rows w). exact H.
Qed.

Lemma Keeps_RowsScan rows : Keeps (RowsScan s rows).
Proof.
  intros w. unfold RowsScan, world. pose proof (ts_RowsScan _ _ _ scope rows w) as H.
  destruct (be_RowsScan s rows w). exact H.
Qed.

Lemma Keeps_RowsClose rows : Keeps (RowsClose s rows).
Proof. intros w. apply (ts_RowsClose _ _ _ scope). Qed.

Lemma Keeps_ProposerSlashingsForSlotRange ctx lo hi :
  Keeps (ProposerSlashingsForSlotRange s ctx lo hi).
Proof.
  intros w. unfold ProposerSlashingsForSlotRange, world.
  pose proof (ts_ProposerSlashingsForSlotRange _ _ _ scope ctx lo hi w) as H.
  destruct (be_ProposerSlashingsForSlotRange s ctx lo hi w). exact H.
Qed.

Lemma Keeps_SetProposerSlashing ctx p :
  is_Some (tx ctx) -> Keeps (SetProposerSlashing s ctx p).
Proof.
  intros Htx w. unfold SetProposerSlashing, world.
  pose proof (ts_SetProposerSlashing _ _ _ scope ctx p w Htx) as H.
  destruct (be_SetProposerSlashing s ctx p w). exact H.
Qed.

Lemma Keeps_execOrWrap t ctx sql msg k :
  Keeps k -> Keeps (execOrWrap s t ctx sql msg k).
Proof.
  intros Hk. unfold execOrWrap. apply Keeps_bind; [apply Keeps_Exec|].
  intros [err|]; [apply Keeps_ret|exact Hk].
Qed.

Create HintDb keeps.
#[local] Hint Resolve Keeps_ret Keeps_logInfo Keeps_Metadata Keeps_BeginTx Keeps_cancel
  Keeps_Exec Keeps_Query Keeps_RowsNext Keeps_RowsScan Keeps_RowsClose
  Keeps_ProposerSlashingsForSlotRange Keeps_execOrWrap : keeps.

Lemma Keeps_updateProposerSlashings ctx ps :
  is_Some (tx ctx) -> Keeps (updateProposerSlashings s codec ctx ps).
Proof.
  intros Htx. induction ps as [|p ps IH]; cbn [updateProposerSlashings].
  - apply Keeps_ret.
  - destruct (HashTreeRoot codec _); [|apply Keeps_ret].
    destruct (HashTreeRoot codec _); [|apply Keeps_ret].
    apply Keeps_bind; [apply Keeps_SetProposerSlashing, Htx|].
    intros [err|]; [apply Keeps_ret|exact IH].
Qed.

Lemma Keeps_columnExists ctx table column : Keeps (columnExists s ctx table column).
Proof.
  assert (Hprobe : forall t, Keeps (
    do r <- Query s t ctx (columnExistsQuery table column);
    match r with
    | Err err => ret (false, Some err)
    | Ok rows =>
      do _ <- RowsNext s rows;
      do scanned <- RowsScan s rows;
      do _ <- RowsClose s rows;
      match scanned with
      | Err err => ret (false, Some (Wrap err "failed to scan row"))
      | Ok found => ret (found, None)
      end
    end)).
  { intros t. apply Keeps_bind; [auto with keeps|]. intros [rows|err]; [|auto with keeps].
    repeat (apply Keeps_bind; [auto with keeps|]; intros ?).
    destruct a0; auto with keeps. }
  unfold columnExists. destruct (tx ctx) as [t|]; [apply Hprobe|].
  apply Keeps_bind; [auto with keeps|]. intros [own|err]; [|auto with keeps].
  apply Keeps_bind; [apply Hprobe|]. intros r.
  apply Keeps_bind; auto with keeps.
Qed.

(** The seven upgrade functions of version 1 keep to their transaction. *)
Lemma shipped_keepsPersisted (f : Ctx -> M W (option error)) :
  f ∈ [ validatorsEpochNull s; createDeposits s; createChainSpec s; createGenesis s;
        addProposerSlashingBlockRoots s codec; createETH1Deposits s;
        addAttestationAggregationIndices s ] ->
  keepsPersisted persisted f.
Proof.
  intros Hf ctx Htx.
  repeat (apply elem_of_cons in Hf; destruct Hf as [->|Hf]);
    [..|apply elem_of_nil in Hf; destruct Hf].
  - unfold validatorsEpochNull. destruct (tx ctx); auto 20 with keeps.
  - unfold createDeposits. destruct (tx ctx); auto 20 with keeps.
  - unfold createChainSpec. destruct (tx ctx); auto 20 with keeps.
  - unfold createGenesis. destruct (tx ctx); auto 20 with keeps.
  - unfold addProposerSlashingBlockRoots. destruct (tx ctx) as [t|] eqn:Et; [|auto with keeps].
    do 2 apply Keeps_execOrWrap.
    apply Keeps_bind; [auto with keeps|]. intros [ps|err]; [|auto with keeps].
    apply Keeps_bind; [apply Keeps_updateProposerSlashings; rewrite Et; exact Htx|].
    intros [err|]; auto 20 with keeps.
  - unfold createETH1Deposits. destruct (tx ctx); auto 20 with keeps.
  - unfold addAttestationAggregationIndices. destruct (tx ctx) as [t|]; [|auto with keeps].
    apply Keeps_bind; [apply Keeps_columnExists|].
    intros [present [err|]]; [auto with keeps|].
    destruct present; auto with keeps.
Qed.
Variable currentVersion : uint64.
Variable upgrades : gmap N (upgrade (W:=W)).

Lemma Keeps_version ctx : Keeps (version s codec ctx).
Proof.
  unfold version. apply Keeps_bind; [auto with keeps|].
  intros [data|err]; [|auto with keeps].
  destruct (Nat.eqb (length data) 0); [auto with keeps|].
  destruct (jsonUnmarshal codec data); auto with keeps.
Qed.

Lemma Keeps_runFuncs cancelTx ctx v total rest :
  (forall f, f ∈ rest -> keepsPersisted persisted f) ->
  is_Some (tx ctx) ->
  forall i, Keeps (runFuncs s cancelTx ctx v total i rest).
Proof.
  intros Hrest Htx. induction rest as [|f rest IH]; intros i; cbn [runFuncs].
  - apply Keeps_ret.
  - apply Keeps_bind; [auto with keeps|]. intros _.
    apply Keeps_bind.
    + apply Keeps_call, Hrest; [apply elem_of_cons; now left|exact Htx].
    + intros [err|].
      * apply Keeps_bind; auto with keeps.
      * apply IH. intros g Hg. apply Hrest. apply elem_of_cons. now right.
Qed.

Lemma Keeps_upgradeVersions cancelTx ctx fuel :
  (forall k u f, upgrades !! k = Some u -> f ∈ funcs u -> keepsPersisted persisted f) ->
  is_Some (tx ctx) ->
  forall i rr, Keeps (upgradeVersions s currentVersion upgrades fuel cancelTx ctx i rr).
Proof.
  intros Hreg Htx. induction fuel as [|fuel IH]; intros i rr; cbn [upgradeVersions].
  - destruct (i <=? currentVersion); apply Keeps_ret.
  - destruct (i <=? currentVersion); [|apply Keeps_ret].
    apply Keeps_bind; [auto with keeps|]. intros _.
    destruct (upgrades !! i) as [u|] eqn:Eu; [|apply IH].
    apply Keeps_bind.
    + apply Keeps_runFuncs; [|exact Htx]. intros f Hf. exact (Hreg _ _ _ Eu Hf).
    + intros [early|]; [apply Keeps_ret|apply IH].
Qed.

(** Whatever [Upgrade] does, the persisted state changes only if its
    commit succeeds. *)
Lemma Upgrade_keeps_unless_committed fuel ctx w r w' tr :
  (forall k u f, upgrades !! k = Some u -> f ∈ funcs u -> keepsPersisted persisted f) ->
  Upgrade s codec currentVersion upgrades fuel ctx w = (r, w', tr) ->
  (forall c, EvCommitTx c None ∉ tr) ->
  persisted w' = persisted w.
Proof.
  intros Hreg H Hnc. unfold Upgrade in H. unfold bind at 1 in H.
  pose proof (Keeps_version ctx w) as Kv. unfold world in Kv.
  destruct (version s codec ctx w) as [[[v ev] w0] tv]. cbn in Kv.
  destruct ev as [err|]; [inversion H; subst; exact Kv|].
  destruct (v =? currentVersion); [inversion H; subst; exact Kv|].
  unfold bind at 1 in H.
  pose proof (Keeps_BeginTx ctx w0) as Kb. unfold world in Kb.
  destruct (BeginTx s ctx w0) as [[[t|err] w1] tb]; cbn in Kb;
    [|inversion H; subst; congruence].
  unfold bind at 1 in H.
  assert (Htx : is_Some (tx (withTx ctx t))) by (eexists; reflexivity).
  pose proof (Keeps_upgradeVersions t (withTx ctx t) fuel Hreg Htx v false w1) as Kl.
  unfold world in Kl.
  destruct (upgradeVersions s currentVersion upgrades fuel t (withTx ctx t) v false w1)
    as [[l w2] tl]. cbn in Kl.
  destruct l as [ret|b|]; [inversion H; subst; congruence| |inversion H; subst; congruence].
  unfold setVersion in H. change (tx (withTx ctx t)) with (Some t) in H. cbv iota in H.
  destruct (jsonMarshal codec {| Version := currentVersion |}) as [data|err].
  2:{ unfold bind, cancel, ret in H. inversion H; subst.
      rewrite (ts_cancel _ _ _ scope). congruence. }
  unfold bind, SetMetadata, CommitTx, cancel, logInfo, ret in H.
  pose proof (ts_SetMetadata _ _ _ scope (withTx ctx t) "schema" data w2 Htx) as Ks.
  destruct (be_SetMetadata s (withTx ctx t) "schema" data w2) as [[e|] w3]; cbn in Ks.
  { inversion H; subst. rewrite (ts_cancel _ _ _ scope). congruence. }
  pose proof (ts_CommitTx_failed _ _ _ scope (withTx ctx t) w3) as Kc.
  destruct (be_CommitTx s (withTx ctx t) w3) as [[e|] w4]; cbn in Kc.
  { inversion H; subst. rewrite (ts_cancel _ _ _ scope), (Kc e eq_refl). congruence. }
  inversion H; subst. exfalso. apply (Hnc (withTx ctx t)).
  rewrite !elem_of_app, !elem_of_cons. tauto.
Qed.
End Persisted.

(** *** The reference backend meets the contract *)

Lemma reference_scope D (engine : Engine D) :
  TransactionScope (reference D engine) (committed D) (ref_stored D).
Proof.
  split; cbn [reference be_Metadata be_SetMetadata be_BeginTx be_cancel be_CommitTx
                be_Exec be_Query be_RowsNext be_RowsScan be_RowsClose
                be_ProposerSlashingsForSlotRange be_SetProposerSlashing].
  - intros ctx key w. unfold ref_Metadata, tick, view.
    destruct (faults D w (clock D w)); [reflexivity|].
    destruct (tx ctx); cbn; [destruct (working D w !! _)|]; reflexivity.
  - intros ctx key data w _. unfold ref_SetMetadata, tick.
    destruct (faults D w (clock D w)); [reflexivity|].
    destruct (tx ctx); cbn; [destruct (working D w !! _)|]; reflexivity.
  - intros ctx w. unfold ref_BeginTx, tick.
    destruct (faults D w (clock D w)); reflexivity.
  - reflexivity.
  - intros ctx w err. unfold ref_CommitTx, tick.
    destruct (faults D w (clock D w)); [reflexivity|].
    destruct (tx ctx); cbn; [destruct (working D w !! _)|]; cbn;
      try reflexivity; discriminate.
  - intros t ctx sql w. unfold ref_Exec, tick.
    destruct (faults D w (clock D w)); [reflexivity|]. cbn.
    destruct (working D w !! t); [destruct (execSem D engine sql _)|]; reflexivity.
  - intros t ctx sql w. unfold ref_Query, tick.
    destruct (faults D w (clock D w)); [reflexivity|]. cbn.
    destruct (working D w !! t); [destruct (querySem D engine sql _)|]; reflexivity.
  - intros rows w. unfold ref_RowsNext.
    destruct (cursors D w !! rows) as [[? [|? ?]]|]; reflexivity.
  - intros rows w. unfold ref_RowsScan, tick.
    destruct (faults D w (clock D w)); [reflexivity|]. cbn.
    destruct (cursors D w !! rows) as [[[?|] ?]|]; reflexivity.
  - reflexivity.
  - intros ctx lo hi w. unfold ref_ProposerSlashingsForSlotRange, tick, view.
    destruct (faults D w (clock D w)); [reflexivity|].
    destruct (tx ctx); cbn; [destruct (working D w !! _)|]; reflexivity.
  - intros ctx p w _. unfold ref_SetProposerSlashing, tick.
    destruct (faults D w (clock D w)); [reflexivity|].
    destruct (tx ctx); cbn; [destruct (working D w !! _)|]; try reflexivity.
    destruct (setSlashingSem D engine p _); reflexivity.
  - intros ctx key w data Htx. unfold ref_Metadata, tick, view. rewrite Htx.
    destruct (faults D w (clock D w)); cbn; [discriminate|].
    intros H. inversion H. reflexivity.
  - intros ctx key data w. unfold ref_SetMetadata, ref_CommitTx, tick.
    destruct (faults D w (clock D w)); cbn; [discriminate|].
    destruct (tx ctx) as [t|]; [|discriminate].
    destruct (working D w !! t) as [st|]; [|discriminate]. cbn.
    destruct (faults D w (S (clock D w))); cbn; [discriminate|].
    rewrite lookup_insert_eq. cbn. intros _ _.
    unfold ref_stored. cbn. rewrite lookup_insert_eq. reflexivity.
Qed.

(** *** The version read and the fast path *)

Section Version.
Context {W : Type} (s : Backend W) (codec : Codec).
Variable currentVersion : uint64.
Variable upgrades : gmap N (upgrade (W:=W)).

Lemma version_absent ctx w :
  (be_Metadata s ctx "schema" w).1 = Ok [] ->
  version s codec ctx w =
  ((0, None), (be_Metadata s ctx "schema" w).2, [EvMetadata ctx "schema" (Ok [])]).
Proof.
  intros H. unfold version, bind, Metadata.
  destruct (be_Metadata s ctx "schema" w) as [r w1]. cbn in H. subst r. reflexivity.
Qed.

Lemma version_read_failed ctx w err :
  (be_Metadata s ctx "schema" w).1 = Err err ->
  version s codec ctx w =
  ((0, Some (Wrap err "failed to obtain schema metadata")),
   (be_Metadata s ctx "schema" w).2, [EvMetadata ctx "schema" (Err err)]).
Proof.
  intros H. unfold version, bind, Metadata.
  destruct (be_Metadata s ctx "schema" w) as [r w1]. cbn in H. subst r. reflexivity.
Qed.

Lemma version_malformed ctx w data err :
  (be_Metadata s ctx "schema" w).1 = Ok data ->
  data <> [] ->
  jsonUnmarshal codec data = Err err ->
  version s codec ctx w =
  ((0, Some (Wrap err "failed to unmarshal metadata JSON")),
   (be_Metadata s ctx "schema" w).2, [EvMetadata ctx "schema" (Ok data)]).
Proof.
  intros H Hne Hu. unfold version, bind, Metadata.
  destruct (be_Metadata s ctx "schema" w) as [r w1]. cbn in H. subst r.
  destruct data as [|b data]; [congruence|]. cbn. rewrite Hu. reflexivity.
Qed.

Lemma version_decoded ctx w data m :
  (be_Metadata s ctx "schema" w).1 = Ok data ->
  data <> [] ->
  jsonUnmarshal codec data = Ok m ->
  version s codec ctx w =
  ((Version m, None),
   (be_Metadata s ctx "schema" w).2, [EvMetadata ctx "schema" (Ok data)]).
Proof.
  intros H Hne Hu. unfold version, bind, Metadata.
  destruct (be_Metadata s ctx "schema" w) as [r w1]. cbn in H. subst r.
  destruct data as [|b data]; [congruence|]. cbn. rewrite Hu. reflexivity.
Qed.

(** The answer of [version] depends on the answer of the metadata read only. *)
Lemma version_same_read ctx w1 w2 :
  (be_Metadata s ctx "schema" w1).1 = (be_Metadata s ctx "schema" w2).1 ->
  answer (version s codec ctx w1) = answer (version s codec ctx w2).
Proof.
  intros H. unfold version, bind, Metadata, answer.
  destruct (be_Metadata s ctx "schema" w1) as [r1 w1'].
  destruct (be_Metadata s ctx "schema" w2) as [r2 w2']. cbn in H. subst r2.
  destruct r1 as [data|err]; [|reflexivity].
  destruct (Nat.eqb (length data) 0); [reflexivity|].
  destruct (jsonUnmarshal codec data); reflexivity.
Qed.

(** When [version] fails, [Upgrade] stops there. *)
Lemma Upgrade_version_failed fuel ctx w v err :
  answer (version s codec ctx w) = (v, Some err) ->
  Upgrade s codec currentVersion upgrades fuel ctx w =
  (Some (false, Some (Wrap err "failed to obtain version")),
   (be_Metadata s ctx "schema" w).2,
   [EvMetadata ctx "schema" (be_Metadata s ctx "schema" w).1]).
Proof.
  intros H. pose proof (version_trace s codec ctx w) as [Ht Hw].
  unfold Upgrade. unfold bind at 1. unfold answer, trace, world in *.
  destruct (version s codec ctx w) as [[a w0] tv]. cbn in *. subst. reflexivity.
Qed.

(** When the version read is the current one, [Upgrade] stops there. *)
Lemma Upgrade_up_to_date fuel ctx w :
  answer (version s codec ctx w) = (currentVersion, None) ->
  Upgrade s codec currentVersion upgrades fuel ctx w =
  (Some (false, None),
   (be_Metadata s ctx "schema" w).2,
   [EvMetadata ctx "schema" (be_Metadata s ctx "schema" w).1]).
Proof.
  intros H. pose proof (version_trace s codec ctx w) as [Ht Hw].
  unfold Upgrade. unfold bind at 1. unfold answer, trace, world in *.
  destruct (version s codec ctx w) as [[a w0] tv]. cbn in *. subst.
  rewrite N.eqb_refl. reflexivity.
Qed.

(** C7.  [version] answers 0 when the metadata read finds nothing under
    the schema key; when the read fails, or when what it finds cannot be
    unmarshalled, [Upgrade] returns the error, wrapped, having made no
    other call than the read: no transaction begun, no statement run. *)
Theorem Upgrade_version_read ctx w fuel :
  ((be_Metadata s ctx "schema" w).1 = Ok [] ->
   version s codec ctx w =
   ((0, None), (be_Metadata s ctx "schema" w).2, [EvMetadata ctx "schema" (Ok [])])) /\
  (forall err,
     (be_Metadata s ctx "schema" w).1 = Err err ->
     Upgrade s codec currentVersion upgrades fuel ctx w =
     (Some (false, Some (Wrap (Wrap err "failed to obtain schema metadata")
                           "failed to obtain version")),
      (be_Metadata s ctx "schema" w).2, [EvMetadata ctx "schema" (Err err)])) /\
  (forall data err,
     (be_Metadata s ctx "schema" w).1 = Ok data ->
     data <> [] ->
     jsonUnmarshal codec data = Err err ->
     Upgrade s codec currentVersion upgrades fuel ctx w =
     (Some (false, Some (Wrap (Wrap err "failed to unmarshal metadata JSON")
                           "failed to obtain version")),
      (be_Metadata s ctx "schema" w).2, [EvMetadata ctx "schema" (Ok data)])).
Proof.
  split; [apply version_absent|]. split.
  - intros err H. pose proof (version_read_failed ctx w err H) as Hv.
    rewrite (Upgrade_version_failed fuel ctx w 0
               (Wrap err "failed to obtain schema metadata")).
    + rewrite H. reflexivity.
    + rewrite Hv. reflexivity.
  - intros data err H Hne Hu. pose proof (version_malformed ctx w data err H Hne Hu) as Hv.
    rewrite (Upgrade_version_failed fuel ctx w 0
               (Wrap err "failed to unmarshal metadata JSON")).
    + rewrite H. reflexivity.
    + rewrite Hv. reflexivity.
Qed.
End Version.

(** *** Runs that commit *)

Section Committing.
Context {W P : Type} (s : Backend W) (codec : Codec).
Context (persisted : W -> P) (stored : P -> string -> bytes).
Hypothesis scope : TransactionScope s persisted stored.
Variable currentVersion : uint64.
Variable upgrades : gmap N (upgrade (W:=W)).

(** A run that returns a [nil] error either took the fast path or ended
    with a successful [setVersion] and a successful commit. *)
Lemma Upgrade_success_world fuel ctx w b w' tr :
  Upgrade s codec currentVersion upgrades fuel ctx w = (Some (b, None), w', tr) ->
  (answer (version s codec ctx w) = (currentVersion, None) /\
   w' = (be_Metadata s ctx "schema" w).2) \/
  (exists t data wa,
      jsonMarshal codec {| Version := currentVersion |} = Ok data /\
      (be_SetMetadata s (withTx ctx t) "schema" data wa).1 = None /\
      (be_CommitTx s (withTx ctx t)
         (be_SetMetadata s (withTx ctx t) "schema" data wa).2).1 = None /\
      w' = (be_CommitTx s (withTx ctx t)
              (be_SetMetadata s (withTx ctx t) "schema" data wa).2).2).
Proof.
  intros H. unfold Upgrade in H. unfold bind at 1 in H.
  pose proof (version_trace s codec ctx w) as [_ Hw]. unfold world in Hw.
  unfold answer.
  destruct (version s codec ctx w) as [[[v ev] w0] tv]. cbn in Hw. cbn [fst].
  destruct ev as [err|]; [inversion H|].
  destruct (v =? currentVersion) eqn:Ev.
  { apply N.eqb_eq in Ev. inversion H; subst. left. split; reflexivity. }
  right. unfold bind at 1 in H. unfold BeginTx at 1 in H.
  destruct (be_BeginTx s ctx w0) as [[t|err] w1]; [|inversion H].
  unfold bind at 1 in H.
  destruct (upgradeVersions s currentVersion upgrades fuel t (withTx ctx t) v false w1)
    as [[l w2] tl] eqn:El.
  pose proof (upgradeVersions_end _ _ _ _ _ _ _ _ _ _ _ _ El) as Hl.
  destruct l as [ret|b'|]; [|..|inversion H].
  { destruct Hl as (pre & i' & j & body & e & -> & _). inversion H. }
  unfold setVersion in H. change (tx (withTx ctx t)) with (Some t) in H. cbv iota in H.
  destruct (jsonMarshal codec {| Version := currentVersion |}) as [data|err].
  2:{ unfold bind, cancel, ret in H. inversion H. }
  unfold bind, SetMetadata, CommitTx, cancel, logInfo, ret in H.
  exists t, data, w2.
  destruct (be_SetMetadata s (withTx ctx t) "schema" data w2) as [[e|] w3];
    [inversion H|]. cbn [fst snd].
  destruct (be_CommitTx s (withTx ctx t) w3) as [[e|] w4]; [inversion H|].
  inversion H; subst. repeat split; reflexivity.
Qed.

(** C3.  When the version read at the start is the current one,
    [Upgrade] returns [(false, nil)] after that one read: it begins no
    transaction, makes no other call and leaves the persisted state as it
    was.  Hence a second [Upgrade] right after one that returned a [nil]
    error, called outside every transaction, whose read of the version
    succeeds, returns [(false, nil)] after that one read and leaves the
    persisted state, the version with it, as the first run left it. *)
Theorem Upgrade_idempotent fuel ctx w :
  tx ctx = None ->
  (forall data,
      jsonMarshal codec {| Version := currentVersion |} = Ok data ->
      data <> [] /\ jsonUnmarshal codec data = Ok {| Version := currentVersion |}) ->
  (answer (version s codec ctx w) = (currentVersion, None) ->
   Upgrade s codec currentVersion upgrades fuel ctx w =
   (Some (false, None),
    (be_Metadata s ctx "schema" w).2,
    [EvMetadata ctx "schema" (be_Metadata s ctx "schema" w).1]) /\
   persisted (be_Metadata s ctx "schema" w).2 = persisted w) /\
  (forall b w1 tr1,
      Upgrade s codec currentVersion upgrades fuel ctx w = (Some (b, None), w1, tr1) ->
      isOk (be_Metadata s ctx "schema" w1).1 = true ->
      Upgrade s codec currentVersion upgrades fuel ctx w1 =
      (Some (false, None),
       (be_Metadata s ctx "schema" w1).2,
       [EvMetadata ctx "schema" (be_Metadata s ctx "schema" w1).1]) /\
      persisted (be_Metadata s ctx "schema" w1).2 = persisted w1).
Proof.
  intros Htx Hrt. split.
  { intros Hv. split; [now apply Upgrade_up_to_date|apply (ts_Metadata _ _ _ scope)]. }
  intros b w1 tr1 H Hok.
  split; [|apply (ts_Metadata _ _ _ scope)].
  apply Upgrade_up_to_date.
  destruct (be_Metadata s ctx "schema" w1) as [r2 w2] eqn:E2.
  destruct r2 as [data2|]; [|discriminate Hok]. clear Hok.
  pose proof (ts_read _ _ _ scope ctx "schema" w1 data2 Htx) as Hread.
  rewrite E2 in Hread. specialize (Hread eq_refl).
  destruct (Upgrade_success_world _ _ _ _ _ _ H) as [[Hv Hw1]|(t & data & wa & Hm & Hs & Hc & Hw1)].
  - (* the first run took the fast path: both reads see the same document *)
    rewrite <- Hv. apply version_same_read. rewrite E2. cbn [fst].
    destruct (be_Metadata s ctx "schema" w) as [r1 w1'] eqn:E1. cbn [fst snd] in *. subst w1'.
    destruct r1 as [data1|err1].
    + pose proof (ts_read _ _ _ scope ctx "schema" w data1 Htx) as Hread1.
      rewrite E1 in Hread1. specialize (Hread1 eq_refl).
      pose proof (ts_Metadata _ _ _ scope ctx "schema" w) as Hk. rewrite E1 in Hk.
      cbn [snd] in Hk. congruence.
    + exfalso. pose proof (version_read_failed s codec ctx w err1) as Hf.
      rewrite E1 in Hf. specialize (Hf eq_refl). rewrite Hf in Hv. discriminate Hv.
  - (* the first run committed the document of the current version *)
    pose proof (ts_commit_SetMetadata _ _ _ scope _ _ _ _ Hs Hc) as Hst.
    rewrite <- Hw1 in Hst. destruct (Hrt data Hm) as [Hne Hu].
    assert (Hd : data2 = data) by congruence. rewrite Hd in E2.
    rewrite (version_decoded s codec ctx w1 data {| Version := currentVersion |});
      [reflexivity|rewrite E2; reflexivity|exact Hne|exact Hu].
Qed.

(** C6.  When the version read at the start is above the current one
    and the transaction can be begun, the version document marshalled,
    set and committed, [Upgrade] does exactly that: it begins a
    transaction, goes through no version and calls no upgrade function,
    sets the version, commits and returns [(false, nil)]; the document
    stored afterwards is that of the current, lower, version. *)
Theorem Upgrade_downgrades_version fuel ctx w v t data w1 w2 w3 :
  answer (version s codec ctx w) = (v, None) ->
  currentVersion < v ->
  be_BeginTx s ctx (be_Metadata s ctx "schema" w).2 = (Ok t, w1) ->
  jsonMarshal codec {| Version := currentVersion |} = Ok data ->
  be_SetMetadata s (withTx ctx t) "schema" data w1 = (None, w2) ->
  be_CommitTx s (withTx ctx t) w2 = (None, w3) ->
  Upgrade s codec currentVersion upgrades fuel ctx w =
  (Some (false, None), w3,
   [EvMetadata ctx "schema" (be_Metadata s ctx "schema" w).1;
    EvBeginTx ctx (Ok t);
    EvSetMetadata (withTx ctx t) "schema" data None;
    EvCommitTx (withTx ctx t) None;
    EvLog "Upgrade complete" []]) /\
  stored (persisted w3) "schema" = data.
Proof.
  intros Hv Hlt Hb Hm Hs Hc. split.
  - pose proof (version_trace s codec ctx w) as [Ht Hw].
    unfold Upgrade. unfold bind at 1. unfold answer, trace, world in *.
    destruct (version s codec ctx w) as [[a w0] tv]. cbn in Hv, Ht, Hw. subst a tv w0.
    assert (Hne : (v =? currentVersion) = false) by (apply N.eqb_neq; lia).
    rewrite Hne. unfold bind at 1. unfold BeginTx at 1. rewrite Hb.
    assert (Hgt : (v <=? currentVersion) = false) by (apply N.leb_gt; exact Hlt).
    assert (Hloop : upgradeVersions s currentVersion upgrades fuel t (withTx ctx t) v false w1
                    = (Completed false, w1, [])).
    { destruct fuel; cbn [upgradeVersions]; rewrite Hgt; reflexivity. }
    unfold bind at 1. rewrite Hloop.
    unfold setVersion. change (tx (withTx ctx t)) with (Some t). cbv iota.
    rewrite Hm. unfold bind, SetMetadata, CommitTx, logInfo, ret.
    rewrite Hs, Hc. reflexivity.
  - pose proof (ts_commit_SetMetadata _ _ _ scope (withTx ctx t) "schema" data w1) as H.
    rewrite Hs in H. cbn [fst snd] in H. rewrite Hc in H. cbn [fst snd] in H.
    apply H; reflexivity.
Qed.
End Committing.

(** *** A failing upgrade function, and the flag of a successful run *)

Section Outcomes.
Context {W P : Type} (s : Backend W) (codec : Codec).
Context (persisted : W -> P) (stored : P -> string -> bytes).
Hypothesis scope : TransactionScope s persisted stored.
Variable currentVersion : uint64.
Variable upgrades : gmap N (upgrade (W:=W)).

Ltac locate H :=
  repeat first
    [ apply elem_of_app in H; destruct H as [H|H]
    | apply elem_of_cons in H; destruct H as [H|H]
    | apply elem_of_nil in H; destruct H ].

Ltac not_quiet Hq H :=
  let Q := fresh in
  pose proof (quiet_elem _ _ Hq H) as Q; cbn in Q; discriminate Q.

(** C2.  In every run of [Upgrade] in which a call of an upgrade
    function returns an error, that call is followed by the cancel of the
    transaction the run began and by nothing else, the run returns the
    error of the call wrapped, and, the upgrade functions keeping to
    their transaction, the persisted state after the run is the one
    before it: the stored version is unchanged and nothing of the
    upgrades is there. *)
Theorem Upgrade_step_failure fuel ctx w r w' tr i j body e :
  (forall k u f, upgrades !! k = Some u -> f ∈ funcs u -> keepsPersisted persisted f) ->
  Upgrade s codec currentVersion upgrades fuel ctx w = (r, w', tr) ->
  EvCall i j body (Some e) ∈ tr ->
  r = Some (false, Some (Wrap e "failed to upgrade")) /\
  (exists pre t,
      tr = pre ++ [EvCall i j body (Some e); EvCancel t] /\
      EvBeginTx ctx (Ok t) ∈ pre) /\
  persisted w' = persisted w /\
  stored (persisted w') "schema" = stored (persisted w) "schema".
Proof.
  intros Hreg H Hin.
  assert (Hshape := Upgrade_shape _ _ _ _ _ _ _ _ _ _ H).
  assert (Hfail : r = Some (false, Some (Wrap e "failed to upgrade")) /\
                  exists pre t, tr = pre ++ [EvCall i j body (Some e); EvCancel t] /\
                                EvBeginTx ctx (Ok t) ∈ pre).
  { destruct Hshape as [rm err|rm|rm err|rm t loop Hq|rm t loop i' j' body' err Hq
                       |rm t loop err Hq|rm t loop data err Hq|rm t loop data err Hq
                       |rm t loop data Hq Hcalls];
      locate Hin; try discriminate Hin; try (not_quiet Hq Hin).
    inversion Hin; subst. split; [reflexivity|].
    exists ([EvMetadata ctx "schema" rm; EvBeginTx ctx (Ok t)] ++ loop), t. split.
    - rewrite <- app_assoc. reflexivity.
    - cbn. apply elem_of_cons. right. apply elem_of_cons. left. reflexivity. }
  destruct Hfail as [Hr (pre & t & Htr & Hb)].
  assert (Hk : persisted w' = persisted w).
  { apply (Upgrade_keeps_unless_committed s codec persisted stored scope
             currentVersion upgrades fuel ctx w r w' tr Hreg H).
    intros c Hc. rewrite Hr in Hshape. clear Htr Hb Hin.
    inversion Hshape; subst; locate Hc; try discriminate Hc;
      match goal with
      | Hq : forallb quiet ?l = true, Hm : _ ∈ ?l |- _ => not_quiet Hq Hm
      end. }
  split; [exact Hr|]. split; [exists pre, t; split; assumption|].
  split; [exact Hk|]. rewrite Hk. reflexivity.
Qed.

Lemma existsb_applied (l : list uint64) :
  existsb requiresRefetch (omap (fun i => upgrades !! i) l) =
  existsb (refetchAt upgrades) l.
Proof.
  induction l as [|i l IH]; [reflexivity|].
  cbn. unfold refetchAt at 1. destruct (upgrades !! i); cbn; rewrite IH; reflexivity.
Qed.

Lemma existsb_flags {A} (f : A -> bool) (l : list A) :
  existsb f l = existsb (fun x => x) (map f l).
Proof. induction l as [|a l IH]; [reflexivity|]. cbn. rewrite IH. reflexivity. Qed.

(** C4.  The boolean of a run of [Upgrade] that returns a [nil] error is
    the disjunction of the [requiresRefetch] flags of the upgrades
    applied in the run, that is, of those registered for the versions the
    run went through: every function of each of them was called, in
    order, no other was, and every call returned [nil].  So flags
    [false], [true], [false] give [true], and a run that applied no
    registered upgrade gives [false]. *)
Theorem Upgrade_refetch_flag fuel ctx w b w' tr :
  Upgrade s codec currentVersion upgrades fuel ctx w = (Some (b, None), w', tr) ->
  b = existsb requiresRefetch (applied upgrades tr) /\
  called tr = callsOf upgrades (visited tr) /\
  (forall i j body res, EvCall i j body res ∈ tr -> res = None) /\
  (map requiresRefetch (applied upgrades tr) = [false; true; false] -> b = true) /\
  (applied upgrades tr = [] -> b = false).
Proof.
  intros H.
  assert (Hb : b = existsb requiresRefetch (applied upgrades tr) /\
               called tr = callsOf upgrades (visited tr) /\
               forall i j body res, EvCall i j body res ∈ tr -> res = None).
  { apply Upgrade_shape in H.
    inversion H as [| rm Er Et | | | | | | | rm t loop data Hq Hcalls Er Et]; subst.
    - split; [reflexivity|]. split; [reflexivity|].
      intros i j body res Hc. locate Hc; discriminate Hc.
    - assert (Hvis : visited ([EvMetadata ctx "schema" rm; EvBeginTx ctx (Ok t)] ++ loop ++
                              [EvSetMetadata (withTx ctx t) "schema" data None;
                               EvCommitTx (withTx ctx t) None; EvLog "Upgrade complete" []])
                     = visited loop).
      { rewrite !visited_app. cbn. now rewrite app_nil_r. }
      split; [|split].
      + unfold applied. rewrite existsb_applied, Hvis. reflexivity.
      + rewrite Hvis, !called_app. cbn. now rewrite app_nil_r.
      + intros i j body res Hc. locate Hc; try discriminate Hc.
        pose proof (quiet_elem _ _ Hq Hc) as Q.
        destruct res; [discriminate Q|reflexivity]. }
  destruct Hb as (Hb & Hcalled & Hnil).
  split; [exact Hb|]. split; [exact Hcalled|]. split; [exact Hnil|]. split.
  - intros Hflags. rewrite Hb, existsb_flags, Hflags. reflexivity.
  - intros Hnone. rewrite Hb, Hnone. reflexivity.
Qed.
End Outcomes.

(** *** The upgrade functions and the probe *)

Section Functions.
Context {W : Type} (s : Backend W) (codec : Codec).

(** C8.  Called with a context that carries no transaction, each of the
    seven upgrade functions, which are all the registry holds, and
    [setVersion] return [ErrNoTransaction] itself, not wrapped, and make
    no call at all: the trace is empty and the world is the one they were
    given. *)
Theorem no_transaction_sentinel ctx w v :
  tx ctx = None ->
  (forall i u f,
      upgrades s codec !! i = Some u -> f ∈ funcs u ->
      f ctx w = (Some ErrNoTransaction, w, [])) /\
  validatorsEpochNull s ctx w = (Some ErrNoTransaction, w, []) /\
  createDeposits s ctx w = (Some ErrNoTransaction, w, []) /\
  createChainSpec s ctx w = (Some ErrNoTransaction, w, []) /\
  createGenesis s ctx w = (Some ErrNoTransaction, w, []) /\
  addProposerSlashingBlockRoots s codec ctx w = (Some ErrNoTransaction, w, []) /\
  createETH1Deposits s ctx w = (Some ErrNoTransaction, w, []) /\
  addAttestationAggregationIndices s ctx w = (Some ErrNoTransaction, w, []) /\
  setVersion s codec ctx v w = (Some ErrNoTransaction, w, []) /\
  is_sentinel ErrNoTransaction = true.
Proof.
  intros Htx.
  assert (H1 : validatorsEpochNull s ctx w = (Some ErrNoTransaction, w, []))
    by (unfold validatorsEpochNull; rewrite Htx; reflexivity).
  assert (H2 : createDeposits s ctx w = (Some ErrNoTransaction, w, []))
    by (unfold createDeposits; rewrite Htx; reflexivity).
  assert (H3 : createChainSpec s ctx w = (Some ErrNoTransaction, w, []))
    by (unfold createChainSpec; rewrite Htx; reflexivity).
  assert (H4 : createGenesis s ctx w = (Some ErrNoTransaction, w, []))
    by (unfold createGenesis; rewrite Htx; reflexivity).
  assert (H5 : addProposerSlashingBlockRoots s codec ctx w = (Some ErrNoTransaction, w, []))
    by (unfold addProposerSlashingBlockRoots; rewrite Htx; reflexivity).
  assert (H6 : createETH1Deposits s ctx w = (Some ErrNoTransaction, w, []))
    by (unfold createETH1Deposits; rewrite Htx; reflexivity).
  assert (H7 : addAttestationAggregationIndices s ctx w = (Some ErrNoTransaction, w, []))
    by (unfold addAttestationAggregationIndices; rewrite Htx; reflexivity).
  repeat split; try assumption.
  - intros i u f Hu Hf. unfold upgrades in Hu.
    apply lookup_singleton_Some in Hu. destruct Hu as [_ <-]. cbn [funcs] in Hf.
    repeat (apply elem_of_cons in Hf; destruct Hf as [->|Hf]); try assumption.
    apply elem_of_nil in Hf. destruct Hf.
  - unfold setVersion. rewrite Htx. reflexivity.
Qed.

(** C9.  In a transaction, [addAttestationAggregationIndices] begins
    with the catalog query for column f_aggregation_indices of table
    t_attestations; when the scan of its answer says the column is there,
    the function returns [nil] having run no statement at all: it did the
    query, read the row, closed the rows, and nothing else. *)
Theorem addAttestationAggregationIndices_probe ctx t w r w' tr :
  tx ctx = Some t ->
  addAttestationAggregationIndices s ctx w = (r, w', tr) ->
  (exists q rest,
      tr = EvQuery t ctx (columnExistsQuery "t_attestations" "f_aggregation_indices") q
           :: rest) /\
  (forall rows,
      EvRowsScan rows (Ok true) ∈ tr ->
      r = None /\
      forallb (fun ev => negb (isExec ev)) tr = true /\
      exists next,
        tr = [EvQuery t ctx (columnExistsQuery "t_attestations" "f_aggregation_indices")
                (Ok rows);
              EvRowsNext rows next; EvRowsScan rows (Ok true); EvRowsClose rows]).
Proof.
  intros Htx H. unfold addAttestationAggregationIndices, columnExists, execOrWrap in H.
  rewrite Htx in H.
  unfold bind, Query, RowsNext, RowsScan, RowsClose, Exec, ret in H.
  destruct (be_Query s t ctx _ w) as [[rows|qerr] w1].
  2:{ inversion H; subst. split; [eauto|]. intros rows Hin.
      apply elem_of_cons in Hin. destruct Hin as [Hin|Hin]; [discriminate Hin|].
      apply elem_of_nil in Hin. destruct Hin. }
  destruct (be_RowsNext s rows w1) as [next w2].
  destruct (be_RowsScan s rows w2) as [[found|serr] w3].
  2:{ inversion H; subst. split; [eauto|]. intros rows' Hin.
      repeat (apply elem_of_cons in Hin; destruct Hin as [Hin|Hin]; [discriminate Hin|]).
      apply elem_of_nil in Hin. destruct Hin. }
  destruct found.
  - inversion H; subst. split; [eauto|]. intros rows' Hin.
    repeat (apply elem_of_cons in Hin;
            destruct Hin as [Hin|Hin]; [try discriminate Hin|]).
    + inversion Hin; subst. split; [reflexivity|]. split; [reflexivity|].
      exists next. reflexivity.
    + apply elem_of_nil in Hin. destruct Hin.
  - match type of H with
    | context [be_Exec s t ctx ?q ?w0] => destruct (be_Exec s t ctx q w0) as [[xerr|] w4]
    end;
      inversion H; subst; (split; [eauto|]); intros rows' Hin;
      repeat (apply elem_of_cons in Hin;
              destruct Hin as [Hin|Hin]; [discriminate Hin|]);
      apply elem_of_nil in Hin; destruct Hin.
Qed.

End Functions.

(** *** The loop over the versions ends, and where it starts *)

Section Range.
Context {W : Type} (s : Backend W) (codec : Codec).
Variable currentVersion : uint64.
Variable upgrades : gmap N (upgrade (W:=W)).
Hypothesis no_wrap : currentVersion + 1 < uint64_modulus.

Lemma uint64_incr_below (i : uint64) : i <= currentVersion -> uint64_incr i = i + 1.
Proof. intros Hi. unfold uint64_incr. apply N.mod_small. lia. Qed.

Lemma versionRange_cons (i : uint64) :
  i <= currentVersion ->
  versionRange i currentVersion = i :: versionRange (i + 1) currentVersion.
Proof.
  intros Hi. unfold versionRange.
  replace (N.to_nat (currentVersion + 1 - i))
    with (S (N.to_nat (currentVersion + 1 - (i + 1)))) by lia.
  cbn [seq map]. f_equal; [lia|].
  rewrite <- seq_shift, map_map. apply map_ext. intros k. lia.
Qed.

Lemma versionRange_nil (i : uint64) :
  currentVersion < i -> versionRange i currentVersion = [].
Proof.
  intros Hi. unfold versionRange.
  replace (N.to_nat (currentVersion + 1 - i)) with 0%nat by lia. reflexivity.
Qed.

(** When its guard ends it, the loop went through the versions from its
    first counter value up to the current version. *)
Lemma upgradeVersions_visited cancelTx ctx fuel :
  forall i rr w b w' tr,
    upgradeVersions s currentVersion upgrades fuel cancelTx ctx i rr w
    = (Completed b, w', tr) ->
    visited tr = versionRange i currentVersion.
Proof.
  induction fuel as [|fuel IH]; intros i rr w b w' tr E; cbn [upgradeVersions] in E.
  - destruct (i <=? currentVersion) eqn:Hi; [inversion E|].
    apply N.leb_gt in Hi. inversion E. now rewrite versionRange_nil.
  - destruct (i <=? currentVersion) eqn:Hi.
    2:{ apply N.leb_gt in Hi. inversion E. now rewrite versionRange_nil. }
    apply N.leb_le in Hi. rewrite (uint64_incr_below i Hi) in E.
    unfold bind at 1 in E. unfold logInfo at 1 in E.
    destruct (upgrades !! i) as [u|].
    + unfold bind in E.
      destruct (runFuncs s cancelTx ctx i (length (funcs u)) 0 (funcs u) w)
        as [[r w1] t1] eqn:Er.
      pose proof (runFuncs_end _ _ _ _ _ _ _ _ _ _ _ Er) as Hr.
      destruct r as [ret|]; [inversion E|]. destruct Hr as [_ Hv1].
      destruct (upgradeVersions s currentVersion upgrades fuel cancelTx ctx
                  (i + 1) (rr || requiresRefetch u) w1) as [[l w2] t2] eqn:E2.
      inversion E; subst.
      rewrite (versionRange_cons i Hi).
      change (EvLog "Upgrading database" [Uint64 "version" i] :: t1 ++ t2)
        with ([EvLog "Upgrading database" [Uint64 "version" i]] ++ t1 ++ t2).
      rewrite !visited_app, Hv1, (IH _ _ _ _ _ _ E2). reflexivity.
    + destruct (upgradeVersions s currentVersion upgrades fuel cancelTx ctx
                  (i + 1) rr w) as [[l w2] t2] eqn:E2.
      cbv beta iota zeta in E. inversion E; subst.
      rewrite (versionRange_cons i Hi), visited_version_line, (IH _ _ _ _ _ _ E2).
      reflexivity.
Qed.

(** With one unit of fuel per version left, the loop does not run out. *)
Lemma upgradeVersions_fuel cancelTx ctx fuel :
  forall (i : uint64) rr w,
    (N.to_nat (currentVersion + 1 - i) <= fuel)%nat ->
    answer (upgradeVersions s currentVersion upgrades fuel cancelTx ctx i rr w)
    <> OutOfFuel.
Proof.
  induction fuel as [|fuel IH]; intros i rr w Hfuel; cbn [upgradeVersions].
  - destruct (i <=? currentVersion) eqn:Hi.
    + apply N.leb_le in Hi. lia.
    + discriminate.
  - destruct (i <=? currentVersion) eqn:Hi; [|discriminate].
    apply N.leb_le in Hi. rewrite (uint64_incr_below i Hi).
    assert (Hf : (N.to_nat (currentVersion + 1 - (i + 1)) <= fuel)%nat) by lia.
    unfold bind at 1. unfold logInfo at 1.
    destruct (upgrades !! i) as [u|].
    + unfold bind.
      destruct (runFuncs s cancelTx ctx i (length (funcs u)) 0 (funcs u) w)
        as [[r w1] t1].
      destruct r as [ret|]; [cbn; discriminate|].
      specialize (IH (i + 1) (rr || requiresRefetch u)%bool w1 Hf).
      destruct (upgradeVersions s currentVersion upgrades fuel cancelTx ctx (i + 1)
                  (rr || requiresRefetch u) w1) as [[l w2] t2]. exact IH.
    + specialize (IH (i + 1) rr w Hf). cbv beta iota zeta.
      destruct (upgradeVersions s currentVersion upgrades fuel cancelTx ctx (i + 1) rr w)
        as [[l w2] t2]. exact IH.
Qed.

(** X11.  The current version being below the largest [uint64], the
    loop over the versions ends: with one unit of fuel per version up to
    the current one, [Upgrade] returns, whatever the version read, the
    registry and the answers of the backend. *)
Lemma Upgrade_returns fuel ctx w :
  (N.to_nat (currentVersion + 1) <= fuel)%nat ->
  answer (Upgrade s codec currentVersion upgrades fuel ctx w) <> None.
Proof.
  intros Hfuel. unfold Upgrade. unfold bind at 1.
  destruct (version s codec ctx w) as [[[v ev] w0] tv].
  destruct ev as [err|]; [discriminate|].
  destruct (v =? currentVersion); [discriminate|].
  unfold bind at 1. unfold BeginTx at 1.
  destruct (be_BeginTx s ctx w0) as [[t|err] w1]; [|discriminate].
  unfold bind at 1.
  assert (Hf : (N.to_nat (currentVersion + 1 - v) <= fuel)%nat) by lia.
  pose proof (upgradeVersions_fuel t (withTx ctx t) fuel v false w1 Hf) as Hne.
  destruct (upgradeVersions s currentVersion upgrades fuel t (withTx ctx t) v false w1)
    as [[l w2] tl]. cbn in Hne.
  destruct l as [ret|b|]; [discriminate| |congruence].
  unfold setVersion. change (tx (withTx ctx t)) with (Some t). cbv iota.
  destruct (jsonMarshal codec {| Version := currentVersion |}) as [data|err];
    [|discriminate].
  unfold bind, SetMetadata, CommitTx, cancel, logInfo, ret.
  destruct (be_SetMetadata s (withTx ctx t) "schema" data w2) as [[e|] w3]; [discriminate|].
  destruct (be_CommitTx s (withTx ctx t) w3) as [[e|] w4]; discriminate.
Qed.

(** A run of [Upgrade] that returns a [nil] error went through no
    version when the version it read is the current one, and otherwise
    through the version it read and those above it up to the current
    one. *)
Lemma Upgrade_visits fuel ctx w v b w' tr :
  answer (version s codec ctx w) = (v, None) ->
  Upgrade s codec currentVersion upgrades fuel ctx w = (Some (b, None), w', tr) ->
  visited tr = if v =? currentVersion then [] else versionRange v currentVersion.
Proof.
  intros Hv H. unfold Upgrade in H. unfold bind at 1 in H.
  pose proof (version_trace s codec ctx w) as [Ht _]. unfold answer, trace in *.
  destruct (version s codec ctx w) as [[a w0] tv]. cbn in Hv, Ht. subst a tv.
  destruct (v =? currentVersion); [inversion H; reflexivity|].
  unfold bind at 1 in H. unfold BeginTx at 1 in H.
  destruct (be_BeginTx s ctx w0) as [[t|err] w1]; [|inversion H].
  unfold bind at 1 in H.
  destruct (upgradeVersions s currentVersion upgrades fuel t (withTx ctx t) v false w1)
    as [[l w2] tl] eqn:El.
  pose proof (upgradeVersions_end _ _ _ _ _ _ _ _ _ _ _ _ El) as Hl.
  destruct l as [ret|b'|]; [|..|inversion H].
  { destruct Hl as (pre & i' & j & body & e & -> & _). inversion H. }
  pose proof (upgradeVersions_visited _ _ _ _ _ _ _ _ _ El) as Hvis.
  unfold setVersion in H. change (tx (withTx ctx t)) with (Some t) in H. cbv iota in H.
  destruct (jsonMarshal codec {| Version := currentVersion |}) as [data|err].
  2:{ unfold bind, cancel, ret in H. inversion H. }
  unfold bind, SetMetadata, CommitTx, cancel, logInfo, ret in H.
  destruct (be_SetMetadata s (withTx ctx t) "schema" data w2) as [[e|] w3]; [inversion H|].
  destruct (be_CommitTx s (withTx ctx t) w3) as [[e|] w4]; [inversion H|].
  inversion H; subst.
  change (visited (tl ++
            [EvSetMetadata (withTx ctx t) "schema" data None;
             EvCommitTx (withTx ctx t) None; EvLog "Upgrade complete" []])
          = versionRange v currentVersion).
  rewrite !visited_app, Hvis. cbn. now rewrite app_nil_r.
Qed.
End Range.

(** *** The runs at concrete inputs *)

Lemma run_eta {W A} (r : A * W * Trace) : r = (answer r, world r, trace r).
Proof. destruct r as [[a w] t]. reflexivity. Qed.

Lemma run_eta_answer {W A} (r : A * W * Trace) (a : A) :
  answer r = a -> r = (a, world r, trace r).
Proof. intros <-. apply run_eta. Qed.

(** C1.  The loop of [Upgrade] starts at the version it read, not at
    the one after it.  On a database that was never upgraded (version 0)
    the registry of the package makes [Upgrade] go through the versions 0
    and 1.  With upgrades registered for the versions 1 and 2, the
    current version being 2, a database at version 1 gets the upgrade of
    version 1 once more: its function is called, its statement executed
    and committed, before those of version 2. *)
Theorem Upgrade_starts_at_version_read :
  (answer firstRun = Some (true, None) /\
   visited (trace firstRun) = [0; 1]) /\
  (answer rerunOfVersion1 = Some (true, None) /\
   visited (trace rerunOfVersion1) = [1; 2] /\
   called (trace rerunOfVersion1) = [(1, 0%nat); (2, 0%nat)] /\
   tables _ (committed _ (world rerunOfVersion1)) =
   ["CREATE TABLE t_one (f_a BIGINT)"; "CREATE TABLE t_two (f_b BIGINT)"]).
Proof. vm_compute. repeat split. Qed.

Lemma shipped_keeps k u f :
  shipped !! k = Some u -> f ∈ funcs u ->
  keepsPersisted (committed (list string)) f.
Proof.
  intros Hu Hf. unfold shipped, upgrades in Hu.
  apply lookup_singleton_Some in Hu. destruct Hu as [_ <-]. cbn [funcs] in Hf.
  exact (shipped_keepsPersisted script textCodec (committed _) (ref_stored _)
           (reference_scope _ _) f Hf).
Qed.

(** The statement of [createChainSpec] fails on a full disk: the run returns
    that error wrapped twice and the committed state is the one it found. *)
Lemma Upgrade_step_failure_witness :
  answer chainSpecFails =
  Some (false, Some (Wrap (Wrap diskFull "failed to create chain spec table")
                       "failed to upgrade")) /\
  committed _ (world chainSpecFails) = committed _ (database [] [] (faultAt 12 diskFull)).
Proof.
  assert (Hin : exists body,
             EvCall 1 2 body (Some (Wrap diskFull "failed to create chain spec table"))
             ∈ trace chainSpecFails).
  { vm_compute. eexists.
    repeat first [apply list_elem_of_here | apply list_elem_of_further]. }
  destruct Hin as [body Hin].
  destruct (Upgrade_step_failure script textCodec (committed _) (ref_stored _)
              (reference_scope _ _) currentVersion shipped 2 background
              (database [] [] (faultAt 12 diskFull))
              (answer chainSpecFails) (world chainSpecFails) (trace chainSpecFails)
              1 2%nat body _ shipped_keeps (run_eta chainSpecFails) Hin)
    as (Hr & _ & Hk & _).
  split; assumption.
Defined.

(** The decoder on some documents: an empty object and [null] leave the
    version at 0; white space is skipped; the key is matched whatever its
    case and the other members are skipped; a leading zero, an input that
    ends early and a version that is not an unsigned 64-bit number are
    errors. *)
Lemma textUnmarshal_examples :
  let decode := fun s => textUnmarshal (list_byte_of_string s) in
  decode "{}" = Ok {| Version := 0 |} /\
  decode "null" = Ok {| Version := 0 |} /\
  decode (" { " +:+ quoted "version" +:+ " : 7 } ") = Ok {| Version := 7 |} /\
  decode ("{" +:+ quoted "a" +:+ ":[{" +:+ quoted "version" +:+ ":9}],"
          +:+ quoted "Version" +:+ ":3}") = Ok {| Version := 3 |} /\
  decode ("{" +:+ quoted "version" +:+ ":01}")
  = Err (ErrExternal "invalid character '1' after object key:value pair") /\
  decode "{" = Err (ErrExternal "unexpected end of JSON input") /\
  isOk (decode ("{" +:+ quoted "version" +:+ ":18446744073709551616}")) = false /\
  isOk (decode ("{" +:+ quoted "version" +:+ ":-1}")) = false /\
  isOk (decode ("{" +:+ quoted "version" +:+ ":" +:+ quoted "1" +:+ "}")) = false /\
  isOk (decode "[1]") = false.
Proof. vm_compute. repeat split. Qed.

(** The document of the current version is not empty and is read back. *)
Lemma textCodec_round_trip data :
  jsonMarshal textCodec {| Version := currentVersion |} = Ok data ->
  data <> [] /\ jsonUnmarshal textCodec data = Ok {| Version := currentVersion |}.
Proof.
  intros H. vm_compute in H. inversion H; subst.
  split; [discriminate|]. vm_compute. reflexivity.
Qed.

(** A database that was never upgraded is upgraded; the second run reads
    the document of version 1 and does nothing else. *)
Lemma Upgrade_idempotent_witness :
  answer firstRun = Some (true, None) /\
  Upgrade script textCodec currentVersion shipped 2 background (world firstRun) =
  (Some (false, None),
   (be_Metadata script background "schema" (world firstRun)).2,
   [EvMetadata background "schema" (Ok (document 1))]).
Proof.
  assert (Hfirst : Upgrade script textCodec currentVersion shipped 2 background
                     (neverUpgraded noFaults)
                   = (Some (true, None), world firstRun, trace firstRun)).
  { apply (run_eta_answer firstRun). vm_compute. reflexivity. }
  assert (Hok : isOk (be_Metadata script background "schema" (world firstRun)).1 = true)
    by (vm_compute; reflexivity).
  destruct (Upgrade_idempotent script textCodec (committed _) (ref_stored _)
              (reference_scope _ _) currentVersion shipped 2 background
              (neverUpgraded noFaults) eq_refl textCodec_round_trip) as [_ Hsecond].
  destruct (Hsecond true (world firstRun) (trace firstRun) Hfirst Hok) as [Hrun _].
  split; [vm_compute; reflexivity|].
  rewrite Hrun. f_equal; vm_compute; reflexivity.
Defined.

(** Upgrades of flags [false], [true], [false] applied from version 0
    give [true]; from version 2, the current version being 1, no upgrade
    is applied and the run gives [false]. *)
Lemma Upgrade_refetch_flag_witness :
  (answer threeUpgradesRun = Some (true, None) /\
   map requiresRefetch (applied threeVersions (trace threeUpgradesRun)) =
   [false; true; false] /\
   true = existsb requiresRefetch (applied threeVersions (trace threeUpgradesRun)) /\
   called (trace threeUpgradesRun) = [(1, 0%nat); (2, 0%nat); (3, 0%nat)]) /\
  (answer fromVersion2 = Some (false, None) /\
   applied shipped (trace fromVersion2) = [] /\
   false = existsb requiresRefetch (applied shipped (trace fromVersion2))).
Proof.
  assert (Hrun : Upgrade script textCodec 3 threeVersions 4 background
                   (database [] [] noFaults)
                 = (Some (true, None), world threeUpgradesRun, trace threeUpgradesRun)).
  { apply (run_eta_answer threeUpgradesRun). vm_compute. reflexivity. }
  assert (Hrun2 : Upgrade script textCodec currentVersion shipped 2 background
                    (database (document 2) [] noFaults)
                  = (Some (false, None), world fromVersion2, trace fromVersion2)).
  { apply (run_eta_answer fromVersion2). vm_compute. reflexivity. }
  destruct (Upgrade_refetch_flag script textCodec 3 threeVersions 4 background
              (database [] [] noFaults) true (world threeUpgradesRun)
              (trace threeUpgradesRun) Hrun) as (Hb & Hcalled & _ & _ & _).
  destruct (Upgrade_refetch_flag script textCodec currentVersion shipped 2 background
              (database (document 2) [] noFaults) false (world fromVersion2)
              (trace fromVersion2) Hrun2) as (Hb2 & _ & _ & _ & _).
  split.
  - split; [vm_compute; reflexivity|]. split; [vm_compute; reflexivity|].
    split; [exact Hb|]. rewrite Hcalled. vm_compute. reflexivity.
  - split; [vm_compute; reflexivity|]. split; [vm_compute; reflexivity|exact Hb2].
Defined.

(** Every upgrade function succeeds and the commit fails on a connection
    reset. *)
Lemma Upgrade_commit_failure_witness :
  EvCommitTx (withTx background 1) (Some connectionReset) ∈ trace commitFails /\
  answer commitFails =
  Some (false, Some (Wrap connectionReset "failed to commit upgrade transaction")).
Proof.
  assert (Hin : EvCommitTx (withTx background 1) (Some connectionReset) ∈ trace commitFails).
  { vm_compute. repeat first [apply list_elem_of_here | apply list_elem_of_further]. }
  destruct (Upgrade_commit_failure script textCodec currentVersion shipped 2 background
              (neverUpgraded (faultAt 28 connectionReset))
              (answer commitFails) (world commitFails) (trace commitFails)
              _ _ (run_eta commitFails) Hin) as (Hr & _ & _).
  split; assumption.
Defined.

(** A database at version 2, the current version being 1: no upgrade
    function is called and the stored document becomes that of version 1. *)
Lemma Upgrade_downgrades_version_witness :
  answer fromVersion2 = Some (false, None) /\
  called (trace fromVersion2) = [] /\
  ref_stored _ (committed _ (world fromVersion2)) "schema" = document 1.
Proof.
  pose (db := database (document 2) [] noFaults).
  pose (w0 := (be_Metadata script background "schema" db).2).
  pose (w1 := (be_BeginTx script background w0).2).
  pose (w2 := (be_SetMetadata script (withTx background 1) "schema" (document 1) w1).2).
  pose (w3 := (be_CommitTx script (withTx background 1) w2).2).
  destruct (Upgrade_downgrades_version script textCodec (committed _) (ref_stored _)
              (reference_scope _ _) currentVersion shipped 2 background db
              2 1 (document 1) w1 w2 w3) as [Hrun Hstored].
  - vm_compute. reflexivity.
  - reflexivity.
  - vm_compute. reflexivity.
  - vm_compute. reflexivity.
  - vm_compute. reflexivity.
  - vm_compute. reflexivity.
  - unfold fromVersion2. fold db. rewrite Hrun. cbn [answer world trace fst snd].
    split; [reflexivity|]. split; [reflexivity|exact Hstored].
Defined.

(** Nothing under the schema key; a read that fails; a document that
    ends after its opening brace. *)
Lemma Upgrade_version_read_witness :
  version script textCodec background (neverUpgraded noFaults) =
  ((0, None), (be_Metadata script background "schema" (neverUpgraded noFaults)).2,
   [EvMetadata background "schema" (Ok [])]) /\
  answer readFails =
  Some (false, Some (Wrap (Wrap connectionReset "failed to obtain schema metadata")
                       "failed to obtain version")) /\
  trace readFails = [EvMetadata background "schema" (Err connectionReset)] /\
  answer documentMalformed =
  Some (false, Some (Wrap (Wrap (ErrExternal "unexpected end of JSON input")
                             "failed to unmarshal metadata JSON")
                       "failed to obtain version")) /\
  trace documentMalformed = [EvMetadata background "schema" (Ok malformed)].
Proof.
  destruct (Upgrade_version_read script textCodec currentVersion shipped background
              (neverUpgraded noFaults) 2%nat) as (Habsent & _ & _).
  destruct (Upgrade_version_read script textCodec currentVersion shipped background
              (neverUpgraded (faultAt 0 connectionReset)) 2%nat) as (_ & Hfail & _).
  destruct (Upgrade_version_read script textCodec currentVersion shipped background
              (database malformed [] noFaults) 2%nat) as (_ & _ & Hbad).
  split; [apply Habsent; vm_compute; reflexivity|].
  specialize (Hfail connectionReset ltac:(vm_compute; reflexivity)).
  specialize (Hbad malformed (ErrExternal "unexpected end of JSON input")
                ltac:(vm_compute; reflexivity) ltac:(discriminate)
                ltac:(vm_compute; reflexivity)).
  unfold readFails, documentMalformed. rewrite Hfail, Hbad.
  repeat split; reflexivity.
Defined.

(** The background context carries no transaction. *)
Lemma no_transaction_sentinel_witness :
  tx background = None /\
  validatorsEpochNull script background (neverUpgraded noFaults) =
  (Some ErrNoTransaction, neverUpgraded noFaults, []) /\
  setVersion script textCodec background 1 (neverUpgraded noFaults) =
  (Some ErrNoTransaction, neverUpgraded noFaults, []).
Proof.
  destruct (no_transaction_sentinel script textCodec background (neverUpgraded noFaults) 1
              eq_refl) as (_ & H1 & _ & _ & _ & _ & _ & _ & H8 & _).
  split; [reflexivity|]. split; assumption.
Defined.

(** In a transaction on a database that has the column already. *)
Lemma addAttestationAggregationIndices_probe_witness :
  let run := addAttestationAggregationIndices script (withTx background 1) inTransaction in
  EvRowsScan 1 (Ok true) ∈ trace run /\
  answer run = None /\
  trace run =
  [EvQuery 1 (withTx background 1)
     (columnExistsQuery "t_attestations" "f_aggregation_indices") (Ok 1);
   EvRowsNext 1 true; EvRowsScan 1 (Ok true); EvRowsClose 1].
Proof.
  intros run.
  assert (Hin : EvRowsScan 1 (Ok true) ∈ trace run).
  { vm_compute. repeat first [apply list_elem_of_here | apply list_elem_of_further]. }
  destruct (addAttestationAggregationIndices_probe script (withTx background 1) 1
              inTransaction (answer run) (world run) (trace run)
              eq_refl (run_eta run)) as [_ Hpresent].
  destruct (Hpresent 1 Hin) as (Hr & _ & next & Htr).
  split; [exact Hin|]. split; [exact Hr|].
  vm_compute. reflexivity.
Defined.


(** *** More on the upgrade functions *)

Section Statements.
Context {W : Type} (s : Backend W) (codec : Codec).

(** Statements run in order and stop at the first failure. *)
Lemma execEach_run t ctx stmts :
  forall w, StatementsRun t ctx stmts (execEach s t ctx stmts w).
Proof.
  induction stmts as [|[sql msg] rest IH]; intros w.
  - left. split; reflexivity.
  - cbn [execEach]. unfold execOrWrap, bind, Exec.
    destruct (be_Exec s t ctx sql w) as [[err|] w1].
    + right. exists 0%nat, sql, msg, err. repeat split; reflexivity.
    + specialize (IH w1). unfold StatementsRun, answer, trace in IH |- *.
      destruct (execEach s t ctx rest w1) as [[r w2] t2]. cbn in IH |- *.
      destruct IH as [[-> ->]|(n & sql' & msg' & err & Hn & -> & ->)].
      * left. split; reflexivity.
      * right. exists (S n), sql', msg', err. repeat split; try reflexivity. exact Hn.
Qed.

(** X1.  In a transaction, each of the five upgrade functions that only
    execute statements runs its statements in the order of the source,
    stops at the first one that fails and returns that error wrapped with
    the message of that statement; it returns [nil] exactly when all of
    them ran and succeeded. *)
Theorem statements_in_order ctx t w :
  tx ctx = Some t ->
  StatementsRun t ctx validatorsEpochNullStatements (validatorsEpochNull s ctx w) /\
  StatementsRun t ctx createDepositsStatements (createDeposits s ctx w) /\
  StatementsRun t ctx createChainSpecStatements (createChainSpec s ctx w) /\
  StatementsRun t ctx createGenesisStatements (createGenesis s ctx w) /\
  StatementsRun t ctx createETH1DepositsStatements (createETH1Deposits s ctx w).
Proof.
  intros Htx.
  unfold validatorsEpochNull, createDeposits, createChainSpec, createGenesis,
    createETH1Deposits.
  rewrite Htx. repeat split.
  - exact (execEach_run t ctx validatorsEpochNullStatements w).
  - exact (execEach_run t ctx createDepositsStatements w).
  - exact (execEach_run t ctx createChainSpecStatements w).
  - exact (execEach_run t ctx createGenesisStatements w).
  - exact (execEach_run t ctx createETH1DepositsStatements w).
Qed.
End Statements.

(** *** The backfill of the proposer slashings *)

Section Backfill.
Context {W : Type} (s : Backend W) (codec : Codec).

(** A slashing written with the answer [nil]. *)
Local Abbreviation wrote ctx := (fun p' : ProposerSlashing => EvSetProposerSlashing ctx p' None).

(** The loop over the slashings writes them in order, each with its two
    roots, and stops at the first root that cannot be computed or the
    first write that fails. *)
Lemma updateProposerSlashings_run ctx ps :
  forall w,
    let run := updateProposerSlashings s codec ctx ps w in
    (exists ps',
        answer run = None /\
        Forall2 (Backfilled codec) ps ps' /\
        trace run = map (wrote ctx) ps') \/
    (exists ps' e0 msg last,
        answer run = Some (Wrap e0 msg) /\
        Forall2 (Backfilled codec) (take (length ps') ps) ps' /\
        (length ps' < length ps)%nat /\
        trace run = map (wrote ctx) ps' ++ last /\
        (last = [] \/ exists p', last = [EvSetProposerSlashing ctx p' (Some e0)])).
Proof.
  induction ps as [|p ps IH]; intros w; cbn zeta.
  - left. exists []. split; [reflexivity|]. split; [constructor|reflexivity].
  - cbn [updateProposerSlashings]. cbv zeta.
    change {| Slot := Header1Slot p; ProposerIndex := Header1ProposerIndex p;
              ParentRoot := Header1ParentRoot p; StateRoot := Header1StateRoot p;
              BodyRoot := Header1BodyRoot p |} with (header1Of p).
    destruct (HashTreeRoot codec (header1Of p)) as [root1|err1] eqn:E1.
    2:{ right. exists [], err1, "failed to calculate proposer slashing block 1 root", [].
        split; [reflexivity|]. split; [constructor|]. split; [cbn; lia|].
        split; [reflexivity|]. left. reflexivity. }
    change {| Slot := Header2Slot (setBlock1Root p root1);
              ProposerIndex := Header2ProposerIndex (setBlock1Root p root1);
              ParentRoot := Header2ParentRoot (setBlock1Root p root1);
              StateRoot := Header2StateRoot (setBlock1Root p root1);
              BodyRoot := Header2BodyRoot (setBlock1Root p root1) |} with (header2Of p).
    destruct (HashTreeRoot codec (header2Of p)) as [root2|err2] eqn:E2.
    2:{ right. exists [], err2, "failed to calculate proposer slashing block 2 root", [].
        split; [reflexivity|]. split; [constructor|]. split; [cbn; lia|].
        split; [reflexivity|]. left. reflexivity. }
    unfold bind, SetProposerSlashing.
    set (p' := setBlock2Root (setBlock1Root p root1) root2).
    assert (Hp : Backfilled codec p p') by (exists root1, root2; auto).
    destruct (be_SetProposerSlashing s ctx p' w) as [[err|] w1].
    + right. exists [], err, "failed to update proposer slashing",
        [EvSetProposerSlashing ctx p' (Some err)].
      split; [reflexivity|]. split; [constructor|]. split; [cbn; lia|].
      split; [reflexivity|]. right. exists p'. reflexivity.
    + specialize (IH w1). cbn zeta in IH. unfold answer, trace in IH |- *.
      destruct (updateProposerSlashings s codec ctx ps w1) as [[r w2] t2]. cbn in IH |- *.
      destruct IH as [(ps' & -> & Hall & ->)|(ps' & e0 & msg & last & -> & Hall & Hlen & -> & Hlast)].
      * left. exists (p' :: ps'). split; [reflexivity|]. split; [|reflexivity].
        constructor; assumption.
      * right. exists (p' :: ps'), e0, msg, last.
        split; [reflexivity|]. split; [cbn; constructor; assumption|].
        split; [cbn; lia|]. split; [reflexivity|exact Hlast].
Qed.

Lemma written_app (t1 t2 : Trace) : written (t1 ++ t2) = written t1 ++ written t2.
Proof. unfold written. apply omap_app. Qed.

Lemma written_okExec t ctx (stmts : list (string * string)) :
  written (map (okExec t ctx) stmts) = [].
Proof. induction stmts as [|st stmts IH]; [reflexivity|exact IH]. Qed.

Lemma written_wrote ctx (ps' : list ProposerSlashing) :
  written (map (wrote ctx) ps') = map (fun p' => (p', None)) ps'.
Proof. induction ps' as [|p' ps' IH]; [reflexivity|]. cbn. f_equal. exact IH. Qed.

(** The runs of [addProposerSlashingBlockRoots] in a transaction: a
    statement adding a column fails; or the read of the slashings fails;
    or the loop over the slashings stops early; or every slashing is
    written and the statements setting NOT NULL run. *)
Lemma addProposerSlashingBlockRoots_run ctx t w :
  tx ctx = Some t ->
  let run := addProposerSlashingBlockRoots s codec ctx w in
  let added := map (okExec t ctx) addBlockRootsStatements in
  let read := EvProposerSlashingsForSlotRange ctx 0 0x7fffffffffffffff in
  (exists n sql msg err,
      addBlockRootsStatements !! n = Some (sql, msg) /\
      answer run = Some (Wrap err msg) /\
      trace run = map (okExec t ctx) (take n addBlockRootsStatements)
                  ++ [EvExec t ctx sql (Some err)]) \/
  (exists err,
      answer run = Some (Wrap err "failed to obtain current proposer slashings") /\
      trace run = added ++ [read (Err err)]) \/
  (exists ps ps' e0 msg last,
      answer run = Some (Wrap e0 msg) /\
      Forall2 (Backfilled codec) (take (length ps') ps) ps' /\
      (length ps' < length ps)%nat /\
      trace run = added ++ [read (Ok ps)] ++ map (wrote ctx) ps' ++ last /\
      (last = [] \/ exists p', last = [EvSetProposerSlashing ctx p' (Some e0)])) \/
  (exists ps ps' tail,
      Forall2 (Backfilled codec) ps ps' /\
      trace run = added ++ [read (Ok ps)] ++ map (wrote ctx) ps' ++ tail /\
      StatementsRun t ctx setBlockRootsNotNullStatements (answer run, w, tail)).
Proof.
  intros Htx. cbn zeta. unfold answer, trace.
  destruct (addProposerSlashingBlockRoots s codec ctx w) as [[r w'] tr] eqn:E.
  cbn [fst snd].
  unfold addProposerSlashingBlockRoots in E. rewrite Htx in E.
  unfold execOrWrap at 1 in E. unfold bind at 1 in E. unfold Exec at 1 in E.
  match type of E with
  | context [be_Exec s t ctx ?q w] => destruct (be_Exec s t ctx q w) as [[err|] w1]
  end.
  { inversion E; subst. left. exists 0%nat. do 3 eexists.
    split; [reflexivity|]. split; reflexivity. }
  unfold execOrWrap at 1 in E. unfold bind at 1 in E. unfold Exec at 1 in E.
  match type of E with
  | context [be_Exec s t ctx ?q w1] => destruct (be_Exec s t ctx q w1) as [[err|] w2]
  end.
  { inversion E; subst. left. exists 1%nat. do 3 eexists.
    split; [reflexivity|]. split; reflexivity. }
  right. unfold bind at 1 in E. unfold ProposerSlashingsForSlotRange at 1 in E.
  destruct (be_ProposerSlashingsForSlotRange s ctx 0 0x7fffffffffffffff w2)
    as [[ps|err] w3].
  2:{ inversion E; subst. left. exists err. split; reflexivity. }
  right. unfold bind at 1 in E.
  pose proof (updateProposerSlashings_run ctx ps w3) as Hloop. cbn zeta in Hloop.
  unfold answer, trace in Hloop.
  destruct (updateProposerSlashings s codec ctx ps w3) as [[r0 w4] tl]. cbn in Hloop.
  destruct Hloop as [(ps' & -> & Hall & ->)
                    |(ps' & e0 & msg & last & -> & Hall & Hlen & -> & Hlast)].
  - right.
    pose proof (execEach_run s t ctx setBlockRootsNotNullStatements w4) as Htail.
    cbn [execEach setBlockRootsNotNullStatements] in Htail.
    match type of E with
    | context [execOrWrap s t ctx ?q1 ?m1 ?k w4] =>
      destruct (execOrWrap s t ctx q1 m1 k w4) as [[r1 w5] tail] eqn:Etail
    end.
    inversion E; subst.
    exists ps, ps', tail. split; [exact Hall|]. split.
    + cbn. reflexivity.
    + unfold StatementsRun, answer, trace in Htail |- *. cbn [fst snd] in Htail |- *.
      exact Htail.
  - inversion E; subst. left. exists ps, ps', e0, msg, last.
    split; [reflexivity|]. split; [exact Hall|]. split; [exact Hlen|].
    split; [|exact Hlast]. cbn. rewrite app_nil_r. reflexivity.
Qed.

(** X2.  When [addProposerSlashingBlockRoots] returns [nil], it added
    the two columns, read the slashings of the slots 0 to 2^63-1, wrote
    each of them back, in order, with its two block roots set to the hash
    tree roots of its two headers, and then set the two columns NOT NULL:
    nothing else, and no slashing is left out (none is written when none
    is read). *)
Theorem backfill_writes_roots ctx t w w' tr :
  tx ctx = Some t ->
  addProposerSlashingBlockRoots s codec ctx w = (None, w', tr) ->
  exists ps ps',
    Forall2 (Backfilled codec) ps ps' /\
    tr = map (okExec t ctx) addBlockRootsStatements
         ++ [EvProposerSlashingsForSlotRange ctx 0 0x7fffffffffffffff (Ok ps)]
         ++ map (wrote ctx) ps'
         ++ map (okExec t ctx) setBlockRootsNotNullStatements.
Proof.
  intros Htx H. pose proof (addProposerSlashingBlockRoots_run ctx t w Htx) as Hrun.
  cbn zeta in Hrun. rewrite H in Hrun. unfold answer, trace in Hrun. cbn [fst snd] in Hrun.
  destruct Hrun as [(n & sql & msg & err & _ & Hr & _)
                   |[(err & Hr & _)
                    |[(ps & ps' & e0 & msg & last & Hr & _)
                     |(ps & ps' & tail & Hall & Htr & Htail)]]];
    try discriminate Hr.
  exists ps, ps'. split; [exact Hall|].
  unfold StatementsRun, answer, trace in Htail. cbn [fst snd] in Htail.
  destruct Htail as [[_ ->]|(n & sql & msg & err & _ & Hr & _)]; [exact Htr|discriminate Hr].
Qed.

(** X3.  [addProposerSlashingBlockRoots] executes a statement setting a
    block root column NOT NULL only after every slashing it read has been
    written successfully with both roots: a root that cannot be computed,
    or a write that fails, keeps the constraint from being set. *)
Theorem not_null_after_backfill ctx t w r w' tr st res :
  tx ctx = Some t ->
  addProposerSlashingBlockRoots s codec ctx w = (r, w', tr) ->
  st ∈ setBlockRootsNotNullStatements ->
  EvExec t ctx st.1 res ∈ tr ->
  exists ps ps',
    EvProposerSlashingsForSlotRange ctx 0 0x7fffffffffffffff (Ok ps) ∈ tr /\
    Forall2 (Backfilled codec) ps ps' /\
    written tr = map (fun p' => (p', None)) ps'.
Proof.
  intros Htx H Hst Hin.
  pose proof (addProposerSlashingBlockRoots_run ctx t w Htx) as Hrun.
  cbn zeta in Hrun. rewrite H in Hrun. unfold answer, trace in Hrun. cbn [fst snd] in Hrun.
  assert (Hwrote : forall l, EvExec t ctx st.1 res ∈ map (wrote ctx) l -> False).
  { intros l Hl. apply list_elem_of_fmap in Hl. destruct Hl as (p' & Hp & _). discriminate Hp. }
  assert (Hsql : st.1 = "
ALTER TABLE t_proposer_slashings
ALTER COLUMN f_block_1_root SET NOT NULL
" \/ st.1 = "
ALTER TABLE t_proposer_slashings
ALTER COLUMN f_block_2_root SET NOT NULL
").
  { unfold setBlockRootsNotNullStatements in Hst.
    apply elem_of_cons in Hst. destruct Hst as [->|Hst]; [left; reflexivity|].
    apply elem_of_cons in Hst. destruct Hst as [->|Hst]; [right; reflexivity|].
    apply elem_of_nil in Hst. destruct Hst. }
  destruct Hrun as [(n & sql & msg & err & Hn & _ & Htr)
                   |[(err & _ & Htr)
                    |[(ps & ps' & e0 & msg & last & _ & _ & _ & Htr & Hlast)
                     |(ps & ps' & tail & Hall & Htr & Htail)]]].
  - exfalso. subst tr.
    destruct n as [|[|n]]; cbn in Hn; inversion Hn; subst; cbn in Hin;
      repeat (apply elem_of_cons in Hin; destruct Hin as [Hin|Hin];
              [destruct Hsql as [Hs|Hs]; rewrite Hs in Hin; discriminate Hin|]);
      apply elem_of_nil in Hin; exact Hin.
  - exfalso. subst tr. cbn in Hin.
    repeat (apply elem_of_cons in Hin; destruct Hin as [Hin|Hin];
            [try discriminate Hin;
             destruct Hsql as [Hs|Hs]; rewrite Hs in Hin; discriminate Hin|]).
    apply elem_of_nil in Hin. exact Hin.
  - exfalso. subst tr. cbn in Hin.
    do 3 (apply elem_of_cons in Hin; destruct Hin as [Hin|Hin];
          [try discriminate Hin;
           destruct Hsql as [Hs|Hs]; rewrite Hs in Hin; discriminate Hin|]).
    apply elem_of_app in Hin. destruct Hin as [Hin|Hin]; [exact (Hwrote _ Hin)|].
    destruct Hlast as [->|[p' ->]].
    + apply elem_of_nil in Hin. exact Hin.
    + apply elem_of_cons in Hin. destruct Hin as [Hin|Hin]; [discriminate Hin|].
      apply elem_of_nil in Hin. exact Hin.
  - exists ps, ps'. split; [|split; [exact Hall|]].
    + rewrite Htr. cbn. do 2 apply list_elem_of_further. apply list_elem_of_here.
    + rewrite Htr, !written_app, written_okExec, written_wrote. cbn.
      unfold StatementsRun, answer, trace in Htail. cbn [fst snd] in Htail.
      destruct Htail as [[_ ->]|(n & sql & msg & err & _ & _ & ->)].
      * rewrite written_okExec, app_nil_r. reflexivity.
      * rewrite written_app, written_okExec. cbn. rewrite app_nil_r. reflexivity.
Qed.
End Backfill.

(** *** The errors of the upgrade functions, and the probe *)

Section Errors.
Context {W : Type} (s : Backend W) (codec : Codec).

Lemma statements_error_wrapped t ctx stmts w e :
  answer (execEach s t ctx stmts w) = Some e -> exists e0 msg, e = Wrap e0 msg.
Proof.
  intros H. destruct (execEach_run s t ctx stmts w) as [[Hr _]|(n & sql & msg & err & _ & Hr & _)];
    rewrite Hr in H; inversion H; eauto.
Qed.

(** The runs of [columnExists]: what it answers and what it leaves in
    the trace after the transaction to use is known. *)
Lemma columnExists_run ctx table column w :
  let run := columnExists s ctx table column w in
  let query t := EvQuery t ctx (columnExistsQuery table column) in
  match tx ctx with
  | Some t =>
    (exists e, answer run = (false, Some e) /\ trace run = [query t (Err e)]) \/
    (exists rows next scanned,
        trace run = [query t (Ok rows); EvRowsNext rows next;
                     EvRowsScan rows scanned; EvRowsClose rows] /\
        answer run = match scanned with
                     | Ok found => (found, None)
                     | Err e => (false, Some (Wrap e "failed to scan row"))
                     end)
  | None =>
    (exists e, answer run = (false, Some (Wrap e "failed to begin transaction")) /\
               trace run = [EvBeginTx ctx (Err e)]) \/
    (exists own e, answer run = (false, Some e) /\
                   trace run = [EvBeginTx ctx (Ok own); query own (Err e); EvCancel own]) \/
    (exists own rows next scanned,
        trace run = [EvBeginTx ctx (Ok own); query own (Ok rows); EvRowsNext rows next;
                     EvRowsScan rows scanned; EvRowsClose rows; EvCancel own] /\
        answer run = match scanned with
                     | Ok found => (found, None)
                     | Err e => (false, Some (Wrap e "failed to scan row"))
                     end)
  end.
Proof.
  cbn zeta. unfold answer, trace.
  destruct (columnExists s ctx table column w) as [[r w'] tr] eqn:E. cbn [fst snd].
  unfold columnExists in E.
  unfold bind, BeginTx, cancel, Query, RowsNext, RowsScan, RowsClose, ret in E.
  destruct (tx ctx) as [t|].
  - destruct (be_Query s t ctx _ w) as [[rows|qerr] w1].
    + destruct (be_RowsNext s rows w1) as [next w2].
      destruct (be_RowsScan s rows w2) as [scanned w3].
      right. exists rows, next, scanned.
      destruct scanned; inversion E; subst; split; reflexivity.
    + inversion E; subst. left. exists qerr. split; reflexivity.
  - destruct (be_BeginTx s ctx w) as [[own|berr] w0].
    + destruct (be_Query s own ctx _ w0) as [[rows|qerr] w1].
      * destruct (be_RowsNext s rows w1) as [next w2].
        destruct (be_RowsScan s rows w2) as [scanned w3].
        right. right. exists own, rows, next, scanned.
        destruct scanned; inversion E; subst; split; reflexivity.
      * inversion E; subst. right. left. exists own, qerr. split; reflexivity.
    + inversion E; subst. left. exists berr. split; reflexivity.
Qed.

Ltac locate H :=
  repeat first
    [ apply elem_of_app in H; destruct H as [H|H]
    | apply elem_of_cons in H; destruct H as [H|H]
    | apply elem_of_nil in H; destruct H ].

(** X4.  What [columnExists] answers is what the scan of the first row
    gave, whatever [rows.Next()] said: [(found, nil)] exactly when the
    scan gave [found], the scan's error wrapped when it failed, so that a
    scan failing for want of a row is an error and not [(false, nil)];
    the error of a failed query is returned as it is.  On every path on
    which the query succeeded the rows are closed. *)
Theorem columnExists_answer ctx table column w r w' tr :
  columnExists s ctx table column w = (r, w', tr) ->
  (forall t c q rows,
      EvQuery t c q (Ok rows) ∈ tr ->
      EvRowsClose rows ∈ tr /\ exists scanned, EvRowsScan rows scanned ∈ tr) /\
  (forall rows found, EvRowsScan rows (Ok found) ∈ tr -> r = (found, None)) /\
  (forall rows e,
      EvRowsScan rows (Err e) ∈ tr -> r = (false, Some (Wrap e "failed to scan row"))) /\
  (forall t c q e, EvQuery t c q (Err e) ∈ tr -> r = (false, Some e)) /\
  (r.2 = None -> exists rows, EvRowsScan rows (Ok r.1) ∈ tr).
Proof.
  intros H. pose proof (columnExists_run ctx table column w) as Hrun.
  cbn zeta in Hrun. rewrite H in Hrun. unfold answer, trace in Hrun. cbn [fst snd] in Hrun.
  assert (Hshape :
    (exists scanned, r = match scanned with
                         | Ok found => (found, None)
                         | Err e => (false, Some (Wrap e "failed to scan row"))
                         end /\
                     exists pre post t rows next,
                       tr = pre ++ [EvQuery t ctx (columnExistsQuery table column) (Ok rows);
                                    EvRowsNext rows next; EvRowsScan rows scanned;
                                    EvRowsClose rows] ++ post /\
                       forallb isBeginOrCancel (pre ++ post) = true) \/
    (exists e, r = (false, Some e) /\
               exists pre post t,
                 tr = pre ++ [EvQuery t ctx (columnExistsQuery table column) (Err e)] ++ post /\
                 forallb isBeginOrCancel (pre ++ post) = true) \/
    (r.2 <> None /\ forallb isBeginOrCancel tr = true)).
  { destruct (tx ctx) as [t|].
    - destruct Hrun as [(e & -> & ->)|(rows & next & scanned & -> & ->)].
      + right. left. exists e. split; [reflexivity|]. exists [], [], t. split; reflexivity.
      + left. exists scanned. split; [reflexivity|].
        exists [], [], t, rows, next. split; reflexivity.
    - destruct Hrun as [(e & -> & ->)|[(own & e & -> & ->)
                                      |(own & rows & next & scanned & -> & ->)]].
      + right. right. split; [discriminate|reflexivity].
      + right. left. exists e. split; [reflexivity|].
        exists [EvBeginTx ctx (Ok own)], [EvCancel own], own. split; reflexivity.
      + left. exists scanned. split; [reflexivity|].
        exists [EvBeginTx ctx (Ok own)], [EvCancel own], own, rows, next.
        split; reflexivity. }
  assert (Hside : forall l ev, forallb isBeginOrCancel l = true -> ev ∈ l ->
                               isBeginOrCancel ev = true).
  { intros l ev Hall Hev. apply list_elem_of_In in Hev.
    rewrite forallb_forall in Hall. auto. }
  destruct Hshape as [(scanned & -> & pre & post & t & rows & next & -> & Hall)
                     |[(e & -> & pre & post & t & -> & Hall)
                      |[Hne Hall]]].
  - rewrite forallb_app in Hall. apply andb_prop in Hall. destruct Hall as [Hpre Hpost].
    split; [|split; [|split; [|split]]].
    + intros t0 c q rows0 Hin.
      locate Hin; try discriminate Hin;
        try (pose proof (Hside _ _ Hpre Hin) as Q; discriminate Q);
        try (pose proof (Hside _ _ Hpost Hin) as Q; discriminate Q).
      inversion Hin; subst. split; [|exists scanned];
        rewrite !elem_of_app, !elem_of_cons; tauto.
    + intros rows0 found Hin.
      locate Hin; try discriminate Hin;
        try (pose proof (Hside _ _ Hpre Hin) as Q; discriminate Q);
        try (pose proof (Hside _ _ Hpost Hin) as Q; discriminate Q).
      inversion Hin; subst. reflexivity.
    + intros rows0 e Hin.
      locate Hin; try discriminate Hin;
        try (pose proof (Hside _ _ Hpre Hin) as Q; discriminate Q);
        try (pose proof (Hside _ _ Hpost Hin) as Q; discriminate Q).
      inversion Hin; subst. reflexivity.
    + intros t0 c q e Hin. exfalso.
      locate Hin; try discriminate Hin;
        try (pose proof (Hside _ _ Hpre Hin) as Q; discriminate Q);
        try (pose proof (Hside _ _ Hpost Hin) as Q; discriminate Q).
    + intros Hnil. destruct scanned as [found|e]; [|discriminate Hnil].
      exists rows. cbn [fst]. rewrite !elem_of_app, !elem_of_cons. tauto.
  - rewrite forallb_app in Hall. apply andb_prop in Hall. destruct Hall as [Hpre Hpost].
    split; [|split; [|split; [|split]]].
    + intros t0 c q rows0 Hin. exfalso.
      locate Hin; try discriminate Hin;
        try (pose proof (Hside _ _ Hpre Hin) as Q; discriminate Q);
        try (pose proof (Hside _ _ Hpost Hin) as Q; discriminate Q).
    + intros rows0 found Hin. exfalso.
      locate Hin; try discriminate Hin;
        try (pose proof (Hside _ _ Hpre Hin) as Q; discriminate Q);
        try (pose proof (Hside _ _ Hpost Hin) as Q; discriminate Q).
    + intros rows0 e0 Hin. exfalso.
      locate Hin; try discriminate Hin;
        try (pose proof (Hside _ _ Hpre Hin) as Q; discriminate Q);
        try (pose proof (Hside _ _ Hpost Hin) as Q; discriminate Q).
    + intros t0 c q e0 Hin.
      locate Hin; try discriminate Hin;
        try (pose proof (Hside _ _ Hpre Hin) as Q; discriminate Q);
        try (pose proof (Hside _ _ Hpost Hin) as Q; discriminate Q).
      inversion Hin; subst. reflexivity.
    + discriminate.
  - split; [|split; [|split; [|split]]].
    + intros t0 c q rows0 Hin. pose proof (Hside _ _ Hall Hin) as Q. discriminate Q.
    + intros rows0 found Hin. pose proof (Hside _ _ Hall Hin) as Q. discriminate Q.
    + intros rows0 e0 Hin. pose proof (Hside _ _ Hall Hin) as Q. discriminate Q.
    + intros t0 c q e0 Hin. pose proof (Hside _ _ Hall Hin) as Q. discriminate Q.
    + intros Hnil. contradiction.
Qed.

(** The runs of [addAttestationAggregationIndices] in a transaction. *)
Lemma addAttestationAggregationIndices_run ctx t w :
  tx ctx = Some t ->
  let run := addAttestationAggregationIndices s ctx w in
  let query := EvQuery t ctx (columnExistsQuery "t_attestations" "f_aggregation_indices") in
  let failed e :=
    Some (Wrap e "failed to check if f_aggregation_indices is present in t_attestations") in
  (exists e, answer run = failed e /\ trace run = [query (Err e)]) \/
  (exists rows next e,
      answer run = failed (Wrap e "failed to scan row") /\
      trace run = [query (Ok rows); EvRowsNext rows next; EvRowsScan rows (Err e);
                   EvRowsClose rows]) \/
  (exists rows next,
      answer run = None /\
      trace run = [query (Ok rows); EvRowsNext rows next; EvRowsScan rows (Ok true);
                   EvRowsClose rows]) \/
  (exists rows next res,
      answer run = match res with
                   | Some e =>
                     Some (Wrap e "failed to add f_aggregation_indices to attestations table")
                   | None => None
                   end /\
      trace run = [query (Ok rows); EvRowsNext rows next; EvRowsScan rows (Ok false);
                   EvRowsClose rows; EvExec t ctx addAggregationIndices res]).
Proof.
  intros Htx. cbn zeta. unfold answer, trace.
  destruct (addAttestationAggregationIndices s ctx w) as [[r w'] tr] eqn:E. cbn [fst snd].
  unfold addAttestationAggregationIndices in E. rewrite Htx in E. unfold bind at 1 in E.
  pose proof (columnExists_run ctx "t_attestations" "f_aggregation_indices" w) as Hrun.
  cbn zeta in Hrun. rewrite Htx in Hrun. unfold answer, trace in Hrun.
  destruct (columnExists s ctx "t_attestations" "f_aggregation_indices" w)
    as [[[present err] w1] t1]. cbn [fst snd] in Hrun.
  destruct Hrun as [(e & Hr & ->)|(rows & next & scanned & -> & Hr)].
  - inversion Hr; subst. inversion E; subst. left. exists e. split; reflexivity.
  - destruct scanned as [found|e]; inversion Hr; subst.
    + destruct found.
      * inversion E; subst. right. right. left. exists rows, next. split; reflexivity.
      * unfold execOrWrap, bind, Exec, ret in E.
        match type of E with
        | context [be_Exec s t ctx ?q w1] => destruct (be_Exec s t ctx q w1) as [res w2]
        end.
        right. right. right. exists rows, next, res.
        destruct res; inversion E; subst; split; reflexivity.
    + inversion E; subst. right. left. exists rows, next, e. split; reflexivity.
Qed.


Lemma attestation_error_wrapped ctx t w e :
  tx ctx = Some t ->
  answer (addAttestationAggregationIndices s ctx w) = Some e ->
  exists e0 msg, e = Wrap e0 msg.
Proof.
  intros Htx H. pose proof (addAttestationAggregationIndices_run ctx t w Htx) as Hrun.
  cbn zeta in Hrun.
  destruct Hrun as [(e1 & Hr & _)
                   |[(rows & next & e1 & Hr & _)
                    |[(rows & next & Hr & _)
                     |(rows & next & res & Hr & _)]]];
    rewrite Hr in H; try (inversion H; subst; eauto; fail).
  destruct res; inversion H; subst; eauto.
Qed.

Lemma slashing_error_wrapped ctx t w e :
  tx ctx = Some t ->
  answer (addProposerSlashingBlockRoots s codec ctx w) = Some e ->
  exists e0 msg, e = Wrap e0 msg.
Proof.
  intros Htx H. pose proof (addProposerSlashingBlockRoots_run s codec ctx t w Htx) as Hrun.
  cbn zeta in Hrun.
  destruct Hrun as [(n & sql & msg & err & _ & Hr & _)
                   |[(err & Hr & _)
                    |[(ps & ps' & e0 & msg & last & Hr & _)
                     |(ps & ps' & tail & _ & _ & Htail)]]];
    try (rewrite Hr in H; inversion H; subst; eauto; fail).
  unfold StatementsRun, answer, trace in Htail. cbn [fst snd] in Htail.
  unfold answer in H.
  destruct Htail as [[Hr _]|(n & sql & msg & err & _ & Hr & _)];
    rewrite Hr in H; inversion H; subst; eauto.
Qed.

(** X6.  An upgrade function of the registry returns [ErrNoTransaction]
    itself exactly when its context carries no transaction: in a
    transaction every error it returns is a wrapped one, also when a
    collaborator answered [ErrNoTransaction]. *)
Theorem sentinel_only_without_transaction ctx w i u f :
  upgrades s codec !! i = Some u ->
  f ∈ funcs u ->
  (answer (f ctx w) = Some ErrNoTransaction <-> tx ctx = None) /\
  (forall e, is_Some (tx ctx) -> answer (f ctx w) = Some e ->
             exists e0 msg, e = Wrap e0 msg).
Proof.
  intros Hu Hf. unfold upgrades in Hu.
  apply lookup_singleton_Some in Hu. destruct Hu as [_ <-]. cbn [funcs] in Hf.
  assert (Hwrapped : forall t e, tx ctx = Some t -> answer (f ctx w) = Some e ->
                                 exists e0 msg, e = Wrap e0 msg).
  { intros t e Htx He.
    repeat (apply elem_of_cons in Hf; destruct Hf as [->|Hf]);
      [..|apply elem_of_nil in Hf; destruct Hf].
    - unfold validatorsEpochNull in He. rewrite Htx in He.
      exact (statements_error_wrapped t ctx validatorsEpochNullStatements w e He).
    - unfold createDeposits in He. rewrite Htx in He.
      exact (statements_error_wrapped t ctx createDepositsStatements w e He).
    - unfold createChainSpec in He. rewrite Htx in He.
      exact (statements_error_wrapped t ctx createChainSpecStatements w e He).
    - unfold createGenesis in He. rewrite Htx in He.
      exact (statements_error_wrapped t ctx createGenesisStatements w e He).
    - exact (slashing_error_wrapped ctx t w e Htx He).
    - unfold createETH1Deposits in He. rewrite Htx in He.
      exact (statements_error_wrapped t ctx createETH1DepositsStatements w e He).
    - exact (attestation_error_wrapped ctx t w e Htx He). }
  split.
  - split.
    + intros He. destruct (tx ctx) as [t|] eqn:Htx; [|reflexivity].
      destruct (Hwrapped t _ eq_refl He) as (e0 & msg & Hw). discriminate Hw.
    + intros Htx.
      repeat (apply elem_of_cons in Hf; destruct Hf as [->|Hf]);
        [..|apply elem_of_nil in Hf; destruct Hf].
      * unfold validatorsEpochNull. rewrite Htx. reflexivity.
      * unfold createDeposits. rewrite Htx. reflexivity.
      * unfold createChainSpec. rewrite Htx. reflexivity.
      * unfold createGenesis. rewrite Htx. reflexivity.
      * unfold addProposerSlashingBlockRoots. rewrite Htx. reflexivity.
      * unfold createETH1Deposits. rewrite Htx. reflexivity.
      * unfold addAttestationAggregationIndices. rewrite Htx. reflexivity.
  - intros e [t Htx] He. exact (Hwrapped t e Htx He).
Qed.
End Errors.

(** *** The transaction of a run, from its begin to its end *)

Section Lifecycle.
Context {W P : Type} (s : Backend W) (codec : Codec).
Context (persisted : W -> P) (stored : P -> string -> bytes).
Hypothesis scope : TransactionScope s persisted stored.
Variable currentVersion : uint64.
Variable upgrades : gmap N (upgrade (W:=W)).

Ltac locate H :=
  repeat first
    [ apply elem_of_app in H; destruct H as [H|H]
    | apply elem_of_cons in H; destruct H as [H|H]
    | apply elem_of_nil in H; destruct H ].

(** An event that is not [quiet] is not among those of the loop. *)
Ltac outside_loop H :=
  match goal with
  | Hq : forallb quiet ?l = true |- _ =>
    match type of H with
    | _ ∈ l => let Q := fresh in
               pose proof (quiet_elem _ _ Hq H) as Q; cbn in Q; discriminate Q
    end
  end.

(** X7.  A run of [Upgrade] that returns ends the transaction it began:
    when it returns an error, the cancel of that transaction is the last
    thing it does and it has committed nothing; when it returns [nil], it
    has committed that transaction and cancelled none.  It begins a
    transaction with the context it was given and no other. *)
Theorem Upgrade_closes_transaction fuel ctx w res w' tr c t :
  Upgrade s codec currentVersion upgrades fuel ctx w = (Some res, w', tr) ->
  EvBeginTx c (Ok t) ∈ tr ->
  c = ctx /\
  match res.2 with
  | Some _ => last tr = Some (EvCancel t) /\ forall c', EvCommitTx c' None ∉ tr
  | None => EvCommitTx (withTx ctx t) None ∈ tr /\ forall t', EvCancel t' ∉ tr
  end.
Proof.
  intros H Hin. apply Upgrade_shape in H.
  inversion H; subst; locate Hin; try discriminate Hin; try outside_loop Hin;
    inversion Hin; subst; (split; [reflexivity|]); cbn [snd]; split.
  all: try (intros x Hx; locate Hx; try discriminate Hx; outside_loop Hx).
  all: try (rewrite !last_app; reflexivity).
  rewrite !elem_of_app, !elem_of_cons. tauto.
Qed.

(** X8.  All or nothing: whatever makes a run of [Upgrade] return an
    error, the version read, the begin, an upgrade function, the version
    write or the commit, and also when it runs out of fuel, the persisted
    state after the run is the one before it, the upgrade functions
    keeping to their transaction. *)
Theorem Upgrade_all_or_nothing fuel ctx w r w' tr :
  (forall k u f, upgrades !! k = Some u -> f ∈ funcs u -> keepsPersisted persisted f) ->
  Upgrade s codec currentVersion upgrades fuel ctx w = (r, w', tr) ->
  (forall b, r <> Some (b, None)) ->
  persisted w' = persisted w.
Proof.
  intros Hreg H Hfail.
  apply (Upgrade_keeps_unless_committed s codec persisted stored scope
           currentVersion upgrades fuel ctx w r w' tr Hreg H).
  intros c' Hc. apply Upgrade_shape in H.
  inversion H; subst; locate Hc; try discriminate Hc; try outside_loop Hc.
  eapply Hfail. reflexivity.
Qed.

(** What [Upgrade] sets is the document of the current version. *)
Lemma Upgrade_set_document fuel ctx w r w' tr c key data res :
  Upgrade s codec currentVersion upgrades fuel ctx w = (r, w', tr) ->
  EvSetMetadata c key data res ∈ tr ->
  key = "schema" /\ jsonMarshal codec {| Version := currentVersion |} = Ok data.
Proof.
  intros H Hin. unfold Upgrade in H. unfold bind at 1 in H.
  destruct (version s codec ctx w) as [[[v ev] w0] tv] eqn:Ev.
  pose proof (version_trace s codec ctx w) as [Htv _]. rewrite Ev in Htv. cbn in Htv. subst tv.
  destruct ev as [err|].
  { inversion H; subst. locate Hin; discriminate Hin. }
  destruct (v =? currentVersion).
  { inversion H; subst. locate Hin; discriminate Hin. }
  unfold bind at 1 in H. unfold BeginTx at 1 in H.
  destruct (be_BeginTx s ctx w0) as [[t|err] w1].
  2:{ inversion H; subst. locate Hin; discriminate Hin. }
  unfold bind at 1 in H.
  destruct (upgradeVersions s currentVersion upgrades fuel t (withTx ctx t) v false w1)
    as [[l w2] tl] eqn:El.
  pose proof (upgradeVersions_end _ _ _ _ _ _ _ _ _ _ _ _ El) as Hl.
  destruct l as [ret|b|].
  - destruct Hl as (pre & i' & j & body & e & -> & -> & Hq).
    inversion H; subst. locate Hin; try discriminate Hin; outside_loop Hin.
  - destruct Hl as [Hq _].
    unfold setVersion in H. change (tx (withTx ctx t)) with (Some t) in H. cbv iota in H.
    destruct (jsonMarshal codec {| Version := currentVersion |}) as [data0|err].
    + unfold bind, SetMetadata, CommitTx, cancel, logInfo, ret in H.
      destruct (be_SetMetadata s (withTx ctx t) "schema" data0 w2) as [[e|] w3].
      { inversion H; subst. locate Hin; try discriminate Hin; try outside_loop Hin.
        inversion Hin; subst. split; reflexivity. }
      destruct (be_CommitTx s (withTx ctx t) w3) as [[e|] w4];
        inversion H; subst; locate Hin; try discriminate Hin; try outside_loop Hin;
        inversion Hin; subst; split; reflexivity.
    + unfold bind, cancel, ret in H. inversion H; subst.
      locate Hin; try discriminate Hin; outside_loop Hin.
  - inversion H; subst. locate Hin; try discriminate Hin; outside_loop Hin.
Qed.

(** X9.  [Upgrade] writes the version only under the key "schema", only
    the document of the current version, only in the transaction it
    began, and only after every upgrade function it called returned
    [nil].  When that write fails the run returns its error wrapped,
    cancels, and attempts no commit. *)
Theorem Upgrade_sets_current_version fuel ctx w r w' tr c key data res :
  Upgrade s codec currentVersion upgrades fuel ctx w = (r, w', tr) ->
  EvSetMetadata c key data res ∈ tr ->
  key = "schema" /\
  jsonMarshal codec {| Version := currentVersion |} = Ok data /\
  (exists t, c = withTx ctx t /\ EvBeginTx ctx (Ok t) ∈ tr) /\
  (forall i j body e, EvCall i j body e ∈ tr -> e = None) /\
  (forall err,
      res = Some err ->
      r = Some (false, Some (Wrap err "failed to set latest schema version")) /\
      (exists t, last tr = Some (EvCancel t)) /\
      forall c' x, EvCommitTx c' x ∉ tr).
Proof.
  intros H Hin. destruct (Upgrade_set_document _ _ _ _ _ _ _ _ _ _ H Hin) as [Hkey Hdoc].
  split; [exact Hkey|]. split; [exact Hdoc|].
  apply Upgrade_shape in H.
  inversion H; subst; locate Hin; try discriminate Hin; try outside_loop Hin;
    inversion Hin; subst; (split; [|split]).
  all: try (eexists; split; [reflexivity|]; rewrite !elem_of_app, !elem_of_cons; tauto).
  all: try (intros i0 j0 body0 e0 Hc; locate Hc; try discriminate Hc;
            match goal with
            | Hq : forallb quiet ?l = true |- _ =>
              pose proof (quiet_elem _ _ Hq Hc) as Q;
              destruct e0; [discriminate Q|reflexivity]
            end).
  all: intros err0 Herr; try discriminate Herr.
  inversion Herr; subst. split; [reflexivity|]. split.
  - eexists. rewrite !last_app. reflexivity.
  - intros c' x Hc. locate Hc; try discriminate Hc; outside_loop Hc.
Qed.

(** X10.  When the begin of the transaction fails, [Upgrade] returns that
    error wrapped having done nothing after the read of the version: it
    goes through no version, calls no upgrade function and has nothing to
    cancel. *)
Theorem Upgrade_begin_failure fuel ctx w r w' tr c e :
  Upgrade s codec currentVersion upgrades fuel ctx w = (r, w', tr) ->
  EvBeginTx c (Err e) ∈ tr ->
  r = Some (false, Some (Wrap e "failed to begin upgrade transaction")) /\
  tr = [EvMetadata ctx "schema" (be_Metadata s ctx "schema" w).1; EvBeginTx ctx (Err e)].
Proof.
  intros H Hin.
  assert (Hhead : exists rest, tr = EvMetadata ctx "schema" (be_Metadata s ctx "schema" w).1
                                    :: rest).
  { unfold Upgrade in H. unfold bind at 1 in H.
    pose proof (version_trace s codec ctx w) as [Ht _]. unfold trace in Ht.
    destruct (version s codec ctx w) as [[a w0] tv]. cbn in Ht. subst tv.
    match type of H with
    | (match ?m with _ => _ end) = _ => destruct m as [[b0 w2] t2]
    end.
    inversion H; subst. eexists. reflexivity. }
  apply Upgrade_shape in H.
  inversion H; subst; locate Hin; try discriminate Hin; try outside_loop Hin.
  inversion Hin; subst. split; [reflexivity|].
  destruct Hhead as [rest Hrest]. inversion Hrest; subst. reflexivity.
Qed.
End Lifecycle.

(** *** The upgrades a run applies *)

Section Applied.
Context {W : Type} (s : Backend W) (codec : Codec).
Variable currentVersion : uint64.
Variable upgrades : gmap N (upgrade (W:=W)).

(** In a run that returns a [nil] error the calls are those of the
    upgrades of the versions gone through, and the flag is the
    disjunction of theirs. *)
Lemma Upgrade_success_calls fuel ctx w b w' tr :
  Upgrade s codec currentVersion upgrades fuel ctx w = (Some (b, None), w', tr) ->
  b = existsb (refetchAt upgrades) (visited tr) /\
  called tr = callsOf upgrades (visited tr).
Proof.
  intros H. apply Upgrade_shape in H.
  inversion H as [| rm Er Et | | | | | | | rm t loop data Hq Hcalls Er Et]; subst.
  - split; reflexivity.
  - assert (Hvis : visited ([EvMetadata ctx "schema" rm; EvBeginTx ctx (Ok t)] ++ loop ++
                            [EvSetMetadata (withTx ctx t) "schema" data None;
                             EvCommitTx (withTx ctx t) None; EvLog "Upgrade complete" []])
                   = visited loop).
    { rewrite !visited_app. cbn. now rewrite app_nil_r. }
    rewrite Hvis, !called_app. cbn. rewrite app_nil_r. split; [reflexivity|exact Hcalls].
Qed.

Hypothesis no_wrap : currentVersion + 1 < uint64_modulus.

(** X12.  The current version being below the largest [uint64], a run of
    [Upgrade] that returns a [nil] error and read the version [v] went
    through no version when [v] is the current one, and otherwise through
    [v], [v + 1], ... up to the current version, in that order, [v]
    itself included; it called every function of the upgrades registered
    for these versions, in order, and no other; and its flag is the
    disjunction of the flags of these upgrades.  In particular a version
    read above the current one makes it call nothing. *)
Theorem Upgrade_applies_range fuel ctx w v b w' tr :
  answer (version s codec ctx w) = (v, None) ->
  Upgrade s codec currentVersion upgrades fuel ctx w = (Some (b, None), w', tr) ->
  visited tr = versionsFrom v currentVersion /\
  called tr = callsOf upgrades (versionsFrom v currentVersion) /\
  b = existsb (refetchAt upgrades) (versionsFrom v currentVersion) /\
  (currentVersion < v -> called tr = [] /\ b = false).
Proof.
  intros Hv H.
  pose proof (Upgrade_visits s codec currentVersion upgrades no_wrap
                fuel ctx w v b w' tr Hv H) as Hvis.
  destruct (Upgrade_success_calls _ _ _ _ _ _ H) as [Hb Hc].
  fold (versionsFrom v currentVersion) in Hvis. rewrite Hvis in Hb, Hc.
  split; [exact Hvis|]. split; [exact Hc|]. split; [exact Hb|].
  intros Hgt. rewrite Hb, Hc. unfold versionsFrom.
  destruct (v =? currentVersion); [split; reflexivity|].
  rewrite (versionRange_nil currentVersion no_wrap v Hgt). split; reflexivity.
Qed.
End Applied.

(** X13.  With the registry and the current version of the package, on
    any backend: a run of [Upgrade] that returns a [nil] error and read
    version 0 went through the versions 0 and 1, called the seven
    functions of version 1 once each in the order of the registry, and
    asks for a refetch; one that read any other version called no upgrade
    function and asks for none. *)
Theorem package_upgrade_calls {W} (s : Backend W) codec fuel ctx w (v : uint64) b w' tr :
  answer (version s codec ctx w) = (v, None) ->
  Upgrade s codec currentVersion (upgrades s codec) fuel ctx w = (Some (b, None), w', tr) ->
  (v = 0 -> b = true /\ visited tr = [0; 1] /\ called tr = callsOfVersion1) /\
  (v <> 0 -> b = false /\ visited tr = [] /\ called tr = []).
Proof.
  intros Hv H.
  assert (no_wrap : currentVersion + 1 < uint64_modulus) by (vm_compute; reflexivity).
  pose proof (Upgrade_visits s codec currentVersion (upgrades s codec) no_wrap
                fuel ctx w v b w' tr Hv H) as Hvis.
  destruct (Upgrade_success_calls _ _ _ _ _ _ _ _ _ _ H) as [Hb Hc].
  rewrite Hvis in Hb, Hc. split.
  - intros ->. change (0 =? currentVersion) with false in *. cbv iota in *.
    change (versionRange 0 currentVersion) with [0; 1] in *.
    split; [|split; [exact Hvis|]].
    + rewrite Hb. unfold upgrades, refetchAt. cbn [existsb].
      rewrite lookup_singleton_ne by discriminate. rewrite lookup_singleton_eq. reflexivity.
    + rewrite Hc. unfold upgrades, callsOf. cbn [flat_map].
      rewrite lookup_singleton_ne by discriminate. rewrite lookup_singleton_eq. reflexivity.
  - intros Hne.
    assert (Hnil : (if v =? currentVersion then [] else versionRange v currentVersion) = []).
    { destruct (v =? currentVersion) eqn:E; [reflexivity|].
      apply N.eqb_neq in E. unfold versionRange, currentVersion in *.
      replace (N.to_nat (1 + 1 - v)) with 0%nat by lia. reflexivity. }
    rewrite Hnil in *. split; [exact Hb|]. split; [exact Hvis|exact Hc].
Qed.

(** *** The largest current version *)

Section Largest.
Context {W : Type} (s : Backend W) (codec : Codec).
Variable currentVersion : uint64.
Variable upgrades : gmap N (upgrade (W:=W)).
Hypothesis largest : currentVersion = uint64_max.

(** Closes a goal from the membership [H] of an event in a trace that
    does not hold it. *)
Ltac nowhere H :=
  repeat first
    [ apply elem_of_app in H; destruct H as [H|H]
    | apply elem_of_cons in H; destruct H as [H|H]
    | apply elem_of_nil in H; destruct H ];
  try discriminate H;
  match goal with
  | Hq : forallb quiet ?l = true |- _ =>
    match type of H with
    | _ ∈ l => let Q := fresh in
               pose proof (quiet_elem _ _ Hq H) as Q; cbn in Q; discriminate Q
    end
  end.

Lemma uint64_incr_bound (i : uint64) : uint64_incr i < uint64_modulus.
Proof. unfold uint64_incr. apply N.mod_lt. discriminate. Qed.

(** The guard [i <= currentVersion] never fails: the counter wraps to 0
    after the largest value. *)
Lemma upgradeVersions_never_completes cancelTx ctx fuel :
  forall (i : uint64) rr w b,
    i < uint64_modulus ->
    answer (upgradeVersions s currentVersion upgrades fuel cancelTx ctx i rr w)
    <> Completed b.
Proof.
  induction fuel as [|fuel IH]; intros i rr w b Hi; cbn [upgradeVersions].
  - destruct (i <=? currentVersion) eqn:E; [discriminate|].
    apply N.leb_gt in E. subst currentVersion. unfold uint64_max in E. lia.
  - destruct (i <=? currentVersion) eqn:E.
    2:{ apply N.leb_gt in E. subst currentVersion. unfold uint64_max in E. lia. }
    unfold bind at 1. unfold logInfo at 1.
    destruct (upgrades !! i) as [u|].
    + unfold bind.
      destruct (runFuncs s cancelTx ctx i (length (funcs u)) 0 (funcs u) w)
        as [[r w1] t1].
      destruct r as [ret|]; [cbn; discriminate|].
      specialize (IH (uint64_incr i) (rr || requiresRefetch u)%bool w1 b
                     (uint64_incr_bound i)).
      destruct (upgradeVersions s currentVersion upgrades fuel cancelTx ctx
                  (uint64_incr i) (rr || requiresRefetch u) w1) as [[l w2] t2]. exact IH.
    + specialize (IH (uint64_incr i) rr w b (uint64_incr_bound i)). cbv beta iota zeta.
      destruct (upgradeVersions s currentVersion upgrades fuel cancelTx ctx
                  (uint64_incr i) rr w) as [[l w2] t2]. exact IH.
Qed.

(** X14.  Were the current version the largest [uint64], the guard of
    the loop over the versions could not fail, the counter wrapping to 0:
    whatever the fuel, [Upgrade] then returns a [nil] error only when the
    version it read is the current one, after that one read; it never
    reaches the write of the version or the commit. *)
Theorem Upgrade_largest_version fuel ctx w r w' tr :
  (answer (version s codec ctx w)).1 < uint64_modulus ->
  Upgrade s codec currentVersion upgrades fuel ctx w = (r, w', tr) ->
  (forall b, r = Some (b, None) ->
             b = false /\ answer (version s codec ctx w) = (currentVersion, None)) /\
  (forall c key data res, EvSetMetadata c key data res ∉ tr) /\
  (forall c res, EvCommitTx c res ∉ tr).
Proof.
  intros Hlt H. unfold Upgrade in H. unfold bind at 1 in H.
  pose proof (version_trace s codec ctx w) as [Ht _]. unfold answer, trace in *.
  destruct (version s codec ctx w) as [[[v ev] w0] tv]. cbn in Ht, Hlt |- *. subst tv.
  destruct ev as [err|].
  { inversion H; subst. split; [intros b Hb; discriminate Hb|].
    split; intros; intros Hin; nowhere Hin. }
  destruct (v =? currentVersion) eqn:Ev.
  { apply N.eqb_eq in Ev. inversion H; subst.
    split; [intros b Hb; inversion Hb; split; reflexivity|].
    split; intros; intros Hin; nowhere Hin. }
  unfold bind at 1 in H. unfold BeginTx at 1 in H.
  destruct (be_BeginTx s ctx w0) as [[t|err] w1].
  2:{ inversion H; subst. split; [intros b Hb; discriminate Hb|].
      split; intros; intros Hin; nowhere Hin. }
  unfold bind at 1 in H.
  pose proof (upgradeVersions_never_completes t (withTx ctx t) fuel v false w1) as Hnc.
  destruct (upgradeVersions s currentVersion upgrades fuel t (withTx ctx t) v false w1)
    as [[l w2] tl] eqn:El.
  pose proof (upgradeVersions_end _ _ _ _ _ _ _ _ _ _ _ _ El) as Hl.
  destruct l as [ret|b'|].
  - destruct Hl as (pre & i' & j & body & e & -> & -> & Hq).
    inversion H; subst. split; [intros b Hb; discriminate Hb|].
    split; intros; intros Hin; nowhere Hin.
  - exfalso. apply (Hnc b' Hlt). reflexivity.
  - inversion H; subst. split; [intros b Hb; discriminate Hb|].
    split; intros; intros Hin; nowhere Hin.
Qed.
End Largest.

(** *** The version, written and read back *)

Section RoundTrip.
Context {W P : Type} (s : Backend W) (codec : Codec).
Context (persisted : W -> P) (stored : P -> string -> bytes).
Hypothesis scope : TransactionScope s persisted stored.

(** X15.  On a backend that meets the contract of the transaction
    scope, each of the seven upgrade functions of the package, called in
    a transaction, leaves the persisted state as it found it, whether it
    succeeds or fails; and so does [columnExists], in a transaction and
    outside one, where it begins and cancels its own. *)
Lemma functions_keep ctx w :
  (is_Some (tx ctx) ->
   forall f,
     f ∈ [ validatorsEpochNull s; createDeposits s; createChainSpec s; createGenesis s;
           addProposerSlashingBlockRoots s codec; createETH1Deposits s;
           addAttestationAggregationIndices s ] ->
     persisted (world (f ctx w)) = persisted w) /\
  (forall table column,
      persisted (world (columnExists s ctx table column w)) = persisted w).
Proof.
  split.
  - intros Htx f Hf.
    exact (shipped_keepsPersisted s codec persisted stored scope f Hf ctx Htx w).
  - intros table column.
    exact (Keeps_columnExists s persisted stored scope ctx table column w).
Qed.

(** X16.  [setVersion] and [version] are inverse to each other through a
    commit: when [setVersion] of [v] in a transaction and the commit of
    that transaction both return [nil], a [version] outside every
    transaction whose read succeeds returns [v], provided the document
    of [v] is not empty and decodes to [v]; it makes that one read and
    returns no error. *)
Theorem setVersion_version_round_trip ctx t (v : uint64) w w1 tr1 w2 tr2 :
  (forall data,
      jsonMarshal codec {| Version := v |} = Ok data ->
      data <> [] /\ jsonUnmarshal codec data = Ok {| Version := v |}) ->
  setVersion s codec (withTx ctx t) v w = (None, w1, tr1) ->
  CommitTx s (withTx ctx t) w1 = (None, w2, tr2) ->
  tx ctx = None ->
  isOk (be_Metadata s ctx "schema" w2).1 = true ->
  exists data,
    jsonMarshal codec {| Version := v |} = Ok data /\
    tr1 = [EvSetMetadata (withTx ctx t) "schema" data None] /\
    version s codec ctx w2 =
    ((v, None), (be_Metadata s ctx "schema" w2).2, [EvMetadata ctx "schema" (Ok data)]).
Proof.
  intros Hcodec Hset Hcommit Hctx Hok.
  unfold setVersion in Hset. change (tx (withTx ctx t)) with (Some t) in Hset.
  cbv iota zeta in Hset.
  destruct (jsonMarshal codec {| Version := v |}) as [data|err] eqn:Em;
    [|inversion Hset].
  destruct (Hcodec data eq_refl) as [Hne Hdec].
  unfold SetMetadata in Hset. unfold CommitTx in Hcommit.
  pose proof (ts_commit_SetMetadata _ _ _ scope (withTx ctx t) "schema" data w) as Hts.
  destruct (be_SetMetadata s (withTx ctx t) "schema" data w) as [e wa] eqn:Es.
  cbn [fst snd] in Hts. inversion Hset; subst.
  destruct (be_CommitTx s (withTx ctx t) w1) as [c wb] eqn:Ec.
  cbn [fst snd] in Hts. inversion Hcommit; subst.
  specialize (Hts eq_refl eq_refl).
  exists data. split; [reflexivity|]. split; [reflexivity|].
  destruct (be_Metadata s ctx "schema" w2).1 as [read|err] eqn:Er; [|discriminate Hok].
  pose proof (ts_read _ _ _ scope ctx "schema" w2 read Hctx Er) as Hread.
  rewrite Hts in Hread. subst read.
  exact (version_decoded s codec ctx w2 data {| Version := v |} Er Hne Hdec).
Qed.
End RoundTrip.

(** *** More runs at concrete inputs *)

Ltac found := repeat first [apply list_elem_of_here | apply list_elem_of_further].

(** The five functions in transaction 1 of the script backend. *)
Lemma statements_in_order_witness :
  let ctx := withTx background 1 in
  StatementsRun 1 ctx validatorsEpochNullStatements
    (validatorsEpochNull script ctx inTransaction) /\
  StatementsRun 1 ctx createDepositsStatements (createDeposits script ctx inTransaction) /\
  StatementsRun 1 ctx createChainSpecStatements (createChainSpec script ctx inTransaction) /\
  StatementsRun 1 ctx createGenesisStatements (createGenesis script ctx inTransaction) /\
  StatementsRun 1 ctx createETH1DepositsStatements
    (createETH1Deposits script ctx inTransaction).
Proof.
  intros ctx. exact (statements_in_order script ctx 1 inTransaction eq_refl).
Defined.

(** The backfill of the two slashings of [ledger]. *)
Lemma backfill_writes_roots_witness :
  let ctx := withTx background 1 in
  let run := addProposerSlashingBlockRoots ledger textCodec ctx (ledgerInTransaction noFaults) in
  answer run = None /\
  written (trace run) =
  [(setBlock2Root (setBlock1Root slashingA [x01; x02; x03]) [x01; x04; x05], None);
   (setBlock2Root (setBlock1Root slashingB [x0a; x0b; x0c]) [x0a; x0d; x0e], None)] /\
  exists ps ps',
    Forall2 (Backfilled textCodec) ps ps' /\
    trace run =
    map (okExec 1 ctx) addBlockRootsStatements
    ++ [EvProposerSlashingsForSlotRange ctx 0 0x7fffffffffffffff (Ok ps)]
    ++ map (fun p' => EvSetProposerSlashing ctx p' None) ps'
    ++ map (okExec 1 ctx) setBlockRootsNotNullStatements.
Proof.
  intros ctx run.
  assert (Hrun : addProposerSlashingBlockRoots ledger textCodec ctx
                   (ledgerInTransaction noFaults) = (None, world run, trace run)).
  { apply (run_eta_answer run). vm_compute. reflexivity. }
  split; [vm_compute; reflexivity|]. split; [vm_compute; reflexivity|].
  exact (backfill_writes_roots ledger textCodec ctx 1 (ledgerInTransaction noFaults)
           (world run) (trace run) eq_refl Hrun).
Defined.

(** The first NOT NULL statement of the same run. *)
Lemma not_null_after_backfill_witness :
  let ctx := withTx background 1 in
  let run := addProposerSlashingBlockRoots ledger textCodec ctx (ledgerInTransaction noFaults) in
  exists ps ps',
    EvProposerSlashingsForSlotRange ctx 0 0x7fffffffffffffff (Ok ps) ∈ trace run /\
    Forall2 (Backfilled textCodec) ps ps' /\
    written (trace run) = map (fun p' => (p', None)) ps'.
Proof.
  intros ctx run.
  pose (st := nth 0 setBlockRootsNotNullStatements ("", "")).
  assert (Hst : st ∈ setBlockRootsNotNullStatements) by (vm_compute; found).
  assert (Hin : EvExec 1 ctx st.1 None ∈ trace run) by (vm_compute; found).
  exact (not_null_after_backfill ledger textCodec ctx 1 (ledgerInTransaction noFaults)
           (answer run) (world run) (trace run) st None eq_refl (run_eta run) Hst Hin).
Defined.

(** The probe outside every transaction, the column being there. *)
Lemma columnExists_answer_witness :
  let run := columnExists script background "t_attestations" "f_aggregation_indices"
               (neverUpgraded noFaults) in
  answer run = (true, None) /\ EvRowsClose 1 ∈ trace run.
Proof.
  intros run.
  destruct (columnExists_answer script background "t_attestations" "f_aggregation_indices"
              (neverUpgraded noFaults) (answer run) (world run) (trace run) (run_eta run))
    as (Hclose & Hfound & _).
  assert (Hq : EvQuery 1 background
                 (columnExistsQuery "t_attestations" "f_aggregation_indices") (Ok 1)
               ∈ trace run) by (vm_compute; found).
  assert (Hs : EvRowsScan 1 (Ok true) ∈ trace run) by (vm_compute; found).
  split; [exact (Hfound 1 true Hs)|exact (proj1 (Hclose _ _ _ _ Hq))].
Defined.


(** [createDeposits] outside every transaction. *)
Lemma sentinel_only_without_transaction_witness :
  answer (createDeposits script background (neverUpgraded noFaults)) = Some ErrNoTransaction
  <-> tx background = None.
Proof.
  pose (u := {| requiresRefetch := true;
                funcs := [ validatorsEpochNull script; createDeposits script;
                           createChainSpec script; createGenesis script;
                           addProposerSlashingBlockRoots script textCodec;
                           createETH1Deposits script;
                           addAttestationAggregationIndices script ] |}).
  assert (Hu : upgrades script textCodec !! 1 = Some u) by reflexivity.
  assert (Hf : createDeposits script ∈ funcs u) by (cbn [funcs u]; found).
  exact (proj1 (sentinel_only_without_transaction script textCodec background
                  (neverUpgraded noFaults) 1 u (createDeposits script) Hu Hf)).
Defined.

(** The run whose commit fails cancels last; the first run commits. *)
Lemma Upgrade_closes_transaction_witness :
  last (trace commitFails) = Some (EvCancel 1) /\
  EvCommitTx (withTx background 1) None ∈ trace firstRun.
Proof.
  assert (H1 : Upgrade script textCodec currentVersion shipped 2 background
                 (neverUpgraded (faultAt 28 connectionReset))
               = (Some (false, Some (Wrap connectionReset
                                       "failed to commit upgrade transaction")),
                  world commitFails, trace commitFails)).
  { apply (run_eta_answer commitFails). vm_compute. reflexivity. }
  assert (H2 : Upgrade script textCodec currentVersion shipped 2 background
                 (neverUpgraded noFaults)
               = (Some (true, None), world firstRun, trace firstRun)).
  { apply (run_eta_answer firstRun). vm_compute. reflexivity. }
  assert (B1 : EvBeginTx background (Ok 1) ∈ trace commitFails) by (vm_compute; found).
  assert (B2 : EvBeginTx background (Ok 1) ∈ trace firstRun) by (vm_compute; found).
  destruct (Upgrade_closes_transaction script textCodec currentVersion shipped 2 background
              _ _ _ _ background 1 H1 B1) as [_ [Hlast _]].
  destruct (Upgrade_closes_transaction script textCodec currentVersion shipped 2 background
              _ _ _ _ background 1 H2 B2) as [_ [Hcommit _]].
  split; [exact Hlast|exact Hcommit].
Defined.

(** The commit fails on a connection reset: the committed state is the
    one the run found. *)
Lemma Upgrade_all_or_nothing_witness :
  committed _ (world commitFails) = committed _ (neverUpgraded (faultAt 28 connectionReset)).
Proof.
  apply (Upgrade_all_or_nothing script textCodec (committed _) (ref_stored _)
           (reference_scope _ _) currentVersion shipped 2 background
           (neverUpgraded (faultAt 28 connectionReset))
           (answer commitFails) (world commitFails) (trace commitFails)
           shipped_keeps (run_eta commitFails)).
  intros b Hb. vm_compute in Hb. discriminate Hb.
Defined.

(** The write of the version fails on a full disk. *)
Lemma Upgrade_sets_current_version_witness :
  answer versionWriteFails =
  Some (false, Some (Wrap diskFull "failed to set latest schema version")) /\
  (exists t, last (trace versionWriteFails) = Some (EvCancel t)) /\
  (forall c x, EvCommitTx c x ∉ trace versionWriteFails) /\
  (forall i j body e, EvCall i j body e ∈ trace versionWriteFails -> e = None).
Proof.
  assert (Hin : EvSetMetadata (withTx background 1) "schema" (document 1) (Some diskFull)
                ∈ trace versionWriteFails) by (vm_compute; found).
  destruct (Upgrade_sets_current_version script textCodec currentVersion shipped 2 background
              (neverUpgraded (faultAt 27 diskFull))
              (answer versionWriteFails) (world versionWriteFails) (trace versionWriteFails)
              _ _ _ _ (run_eta versionWriteFails) Hin)
    as (_ & _ & _ & Hcalls & Hfail).
  destruct (Hfail diskFull eq_refl) as (Hr & Hlast & Hnc).
  split; [exact Hr|]. split; [exact Hlast|]. split; [exact Hnc|exact Hcalls].
Defined.

(** The begin of the transaction fails on a connection reset. *)
Lemma Upgrade_begin_failure_witness :
  answer beginFails =
  Some (false, Some (Wrap connectionReset "failed to begin upgrade transaction")) /\
  trace beginFails =
  [EvMetadata background "schema" (Ok []); EvBeginTx background (Err connectionReset)].
Proof.
  assert (Hin : EvBeginTx background (Err connectionReset) ∈ trace beginFails)
    by (vm_compute; found).
  destruct (Upgrade_begin_failure script textCodec currentVersion shipped 2 background
              (neverUpgraded (faultAt 1 connectionReset))
              (answer beginFails) (world beginFails) (trace beginFails)
              _ _ (run_eta beginFails) Hin) as [Hr Htr].
  split; [exact Hr|]. rewrite Htr. vm_compute. reflexivity.
Defined.

(** Two units of fuel are enough for the current version 1. *)
Lemma Upgrade_returns_witness : answer firstRun <> None.
Proof.
  assert (no_wrap : currentVersion + 1 < uint64_modulus) by (vm_compute; reflexivity).
  assert (Hfuel : (N.to_nat (currentVersion + 1) <= 2)%nat) by (vm_compute; lia).
  exact (Upgrade_returns script textCodec currentVersion shipped no_wrap 2 background
           (neverUpgraded noFaults) Hfuel).
Defined.

(** From version 0 to the current version 3; from version 2 down to the
    current version 1. *)
Lemma Upgrade_applies_range_witness :
  visited (trace threeUpgradesRun) = [0; 1; 2; 3] /\
  called (trace threeUpgradesRun) = [(1, 0%nat); (2, 0%nat); (3, 0%nat)] /\
  called (trace fromVersion2) = [].
Proof.
  assert (no_wrap3 : 3 + 1 < uint64_modulus) by (vm_compute; reflexivity).
  assert (no_wrap1 : currentVersion + 1 < uint64_modulus) by (vm_compute; reflexivity).
  assert (H3 : Upgrade script textCodec 3 threeVersions 4 background
                 (database [] [] noFaults)
               = (Some (true, None), world threeUpgradesRun, trace threeUpgradesRun)).
  { apply (run_eta_answer threeUpgradesRun). vm_compute. reflexivity. }
  assert (H2 : Upgrade script textCodec currentVersion shipped 2 background
                 (database (document 2) [] noFaults)
               = (Some (false, None), world fromVersion2, trace fromVersion2)).
  { apply (run_eta_answer fromVersion2). vm_compute. reflexivity. }
  destruct (Upgrade_applies_range script textCodec 3 threeVersions no_wrap3 4 background
              (database [] [] noFaults) 0 true _ _ ltac:(vm_compute; reflexivity) H3)
    as (Hvis & Hcalled & _ & _).
  destruct (Upgrade_applies_range script textCodec currentVersion shipped no_wrap1 2
              background (database (document 2) [] noFaults) 2 false _ _
              ltac:(vm_compute; reflexivity) H2)
    as (_ & _ & _ & Habove).
  split; [rewrite Hvis; vm_compute; reflexivity|].
  split; [rewrite Hcalled; vm_compute; reflexivity|].
  apply Habove. vm_compute. reflexivity.
Defined.

(** The first run of the package on the script backend. *)
Lemma package_upgrade_calls_witness :
  visited (trace firstRun) = [0; 1] /\
  called (trace firstRun) =
  [(1, 0%nat); (1, 1%nat); (1, 2%nat); (1, 3%nat); (1, 4%nat); (1, 5%nat); (1, 6%nat)].
Proof.
  assert (H : Upgrade script textCodec currentVersion (upgrades script textCodec) 2
                background (neverUpgraded noFaults)
              = (Some (true, None), world firstRun, trace firstRun)).
  { apply (run_eta_answer firstRun). vm_compute. reflexivity. }
  destruct (package_upgrade_calls script textCodec 2 background (neverUpgraded noFaults)
              0 true _ _ ltac:(vm_compute; reflexivity) H) as [Hzero _].
  destruct (Hzero eq_refl) as (_ & Hvis & Hcalled).
  split; [exact Hvis|exact Hcalled].
Defined.

(** A database at the largest version, and a database never upgraded
    whose run is still in the loop after three versions. *)
Lemma Upgrade_largest_version_witness :
  answer atLargestVersion = Some (false, None) /\
  answer towardsLargestVersion = None /\
  (forall c res, EvCommitTx c res ∉ trace towardsLargestVersion).
Proof.
  destruct (Upgrade_largest_version script textCodec uint64_max shipped eq_refl 3 background
              (neverUpgraded noFaults)
              (answer towardsLargestVersion) (world towardsLargestVersion)
              (trace towardsLargestVersion)
              ltac:(vm_compute; reflexivity) (run_eta towardsLargestVersion))
    as (_ & _ & Hnc).
  split; [vm_compute; reflexivity|]. split; [vm_compute; reflexivity|exact Hnc].
Defined.

(** [createDeposits] in transaction 1, and the probe beginning its own
    transaction. *)
Lemma functions_keep_witness :
  committed _ (world (createDeposits script (withTx background 1) inTransaction))
  = committed _ inTransaction /\
  committed _ (world (columnExists script background "t_attestations"
                        "f_aggregation_indices" (neverUpgraded noFaults)))
  = committed _ (neverUpgraded noFaults).
Proof.
  destruct (functions_keep script textCodec (committed _) (ref_stored _)
              (reference_scope _ _) (withTx background 1) inTransaction) as [Hf _].
  destruct (functions_keep script textCodec (committed _) (ref_stored _)
              (reference_scope _ _) background (neverUpgraded noFaults)) as [_ Hp].
  split.
  - apply Hf; [eexists; reflexivity|found].
  - apply Hp.
Defined.

(** Version 7 written in transaction 1, committed, and read back. *)
Lemma setVersion_version_round_trip_witness :
  let ctx := withTx background 1 in
  let w1 := world (setVersion script textCodec ctx 7 inTransaction) in
  let w2 := world (CommitTx script ctx w1) in
  answer (version script textCodec background w2) = (7, None).
Proof.
  intros ctx w1 w2.
  assert (Hcodec : forall data,
             jsonMarshal textCodec {| Version := 7 |} = Ok data ->
             data <> [] /\ jsonUnmarshal textCodec data = Ok {| Version := 7 |}).
  { intros data H. vm_compute in H. inversion H; subst.
    split; [discriminate|]. vm_compute. reflexivity. }
  destruct (setVersion_version_round_trip script textCodec (committed _) (ref_stored _)
              (reference_scope _ _) background 1 7 inTransaction
              w1 (trace (setVersion script textCodec ctx 7 inTransaction))
              w2 (trace (CommitTx script ctx w1)) Hcodec)
    as (data & _ & _ & Hv).
  - apply (run_eta_answer (setVersion script textCodec ctx 7 inTransaction)).
    vm_compute. reflexivity.
  - apply (run_eta_answer (CommitTx script ctx w1)). vm_compute. reflexivity.
  - reflexivity.
  - vm_compute. reflexivity.
  - rewrite Hv. reflexivity.
Defined.
